(** * Lot-based inventory consumption of the nail-salon inventory backend

    A shallow embedding of [src/lib/inventory/product-service.ts] and of the
    service-type service that follows it in the same source file
    ([calculateAdjustedUsageAmount], [updateMonthlyStats]), together with the
    part of the Prisma schema these operations read and write.

    - JavaScript [number]s that hold amounts ([Float] columns) are IEEE 754
      binary64 values, taken from the standard library's [SpecFloat].
    - [Int] columns (counters, percentages) are [Z].
    - The document store is a record of tables; a table is the list of its
      rows in insertion order.  [async] functions that read and write it and
      may [throw] are computations in a state-and-exception monad [M]; an
      exception carries the store as it is at the moment of the throw, and
      [transaction] drops that store for the one it started from. *)

From Stdlib Require Import ZArith NArith List Bool Lia String.
From Stdlib Require Import Floats.SpecFloat.
Import ListNotations.
Open Scope Z_scope.

(** ** JavaScript numbers *)

Module Js.

Definition prec : Z := 53.
Definition emax : Z := 1024.

Definition number : Type := spec_float.

(** The double nearest to an integer. *)
Definition of_Z (z : Z) : number := binary_normalize prec emax z 0 false.

Definition add : number -> number -> number := SFadd prec emax.
Definition sub : number -> number -> number := SFsub prec emax.
Definition mul : number -> number -> number := SFmul prec emax.
Definition div : number -> number -> number := SFdiv prec emax.
Definition ltb : number -> number -> bool := SFltb.

(** A decimal literal [n / 10^k] of the source text, e.g. [0.5] is
    [decimal 5 1]: the double nearest to the quotient. *)
Definition decimal (n : Z) (k : nat) : number :=
  div (of_Z n) (of_Z (10 ^ Z.of_nat k)).

(** [ToBoolean] on a number: [+0], [-0] and [NaN] are falsy. *)
Definition truthy (x : number) : bool :=
  match x with
  | S754_zero _ | S754_nan => false
  | _ => true
  end.

(** [Math.round]: the integer closest to [x], ties towards +infinity;
    the sign of a zero result is the sign of [x]. *)
Definition Math_round (x : number) : number :=
  match x with
  | S754_finite s m e =>
      if 0 <=? e then x
      else
        let n := (2 * cond_Zopp s (Zpos m) + 2 ^ (- e)) / 2 ^ (1 - e) in
        binary_normalize prec emax n 0 s
  | _ => x
  end.

(** The strings [Number.prototype.toFixed] produces, by shape:
    - [StrNaN] is ["NaN"];
    - [StrNumber x] is [Number::toString] of [x], used for the infinities
      and for magnitudes of at least [10^21];
    - [StrFixed neg n f] is the optional minus sign followed by the
      decimal digits of [n] with a point before the last [f] of them. *)
Inductive NumberString :=
| StrNaN
| StrNumber (x : number)
| StrFixed (neg : bool) (n : Z) (f : nat).

(** The integer [n] for which [n / 10^f - m * 2^e] is closest to zero,
    the larger one of two. *)
Definition nearest_scaled (m : positive) (e : Z) (f : nat) : Z :=
  let p := 10 ^ Z.of_nat f in
  if 0 <=? e then Zpos m * 2 ^ e * p
  else (2 * p * Zpos m + 2 ^ (- e)) / 2 ^ (1 - e).

Definition toFixed (x : number) (f : nat) : NumberString :=
  match x with
  | S754_nan => StrNaN
  | S754_infinity _ => StrNumber x
  | S754_zero _ => StrFixed false 0 f
  | S754_finite s m e =>
      if ltb (S754_finite false m e) (of_Z (10 ^ 21))
      then StrFixed s (nearest_scaled m e f) f
      else StrNumber x
  end.

(** [parseFloat] on those strings: the double nearest to the decimal
    value read, negated after a leading minus sign. *)
Definition parseFloat (s : NumberString) : number :=
  match s with
  | StrNaN => S754_nan
  | StrNumber x => x
  | StrFixed neg n f =>
      match n with
      | Zpos d => div (S754_finite neg d 0) (of_Z (10 ^ Z.of_nat f))
      | _ => S754_zero neg
      end
  end.

End Js.

Import Js.

(** ** The schema *)

Inductive NailLength := SHORT | MEDIUM | LONG.

Inductive ProductType :=
| POLISH_COLOR | POLISH_BASE | POLISH_TOP
| GEL_COLOR | GEL_BASE | GEL_TOP | GEL_REMOVER
| NAIL_CARE | TOOL | CONSUMABLE | SANITIZATION | STORE_SUPPLY.

(** Object ids are opaque keys; the store hands them out from a counter. *)
Definition Id : Type := N.

(** A [Date] is its time value. *)
Definition Date : Type := Z.

Module ServiceType.
(** The timestamps [createdAt] and [updatedAt] are left out: no operation
    below updates a service type. *)
Record t := mk {
  id : Id;
  name : string;
  defaultUsageAmount : number;
  productType : ProductType;
  isGelService : bool;
  requiresBase : bool;
  requiresTop : bool;
  shortLengthRate : Z;
  mediumLengthRate : Z;
  longLengthRate : Z;
  allowCustomAmount : bool;
  designVariant : option string;
  designUsageRate : option number;
  storeId : Id
}.
End ServiceType.

(** ** Service type catalogue: the length and design adjustment *)

(** The [default:] arm of the [switch] needs a value outside the enum and
    has no counterpart here. *)
Definition calculateAdjustedUsageAmount
    (serviceType : ServiceType.t) (baseAmount : number)
    (nailLength : NailLength) : number :=
  let ratePercentage :=
    match nailLength with
    | SHORT => of_Z (ServiceType.shortLengthRate serviceType)
    | MEDIUM => of_Z (ServiceType.mediumLengthRate serviceType)
    | LONG => of_Z (ServiceType.longLengthRate serviceType)
    end in
  let ratePercentage :=
    match ServiceType.designUsageRate serviceType with
    | Some designUsageRate =>
        if truthy designUsageRate
        then Math_round (mul ratePercentage designUsageRate)
        else ratePercentage
    | None => ratePercentage
    end in
  parseFloat (toFixed (mul baseAmount (div ratePercentage (of_Z 100))) 2).

(** ** The inventory tables *)

Module Product.
(** [colorCode], [colorName], [opacity], [isLiquid], [useColorPicker],
    [capacityUnit] and [averageUsePerService] are stored as given and read
    by no operation below; they are left out, and so is [createdAt], which
    is written when the row is created and never again.  [updatedAt] is the
    column the schema marks [@updatedAt]: the store stamps it with the time
    of the call on [create] and on every [update] of the row. *)
Record t := mk {
  id : Id;
  brand : string;
  productName : string;
  type : ProductType;
  price : number;
  capacity : option number;
  totalQuantity : Z;
  inUseQuantity : Z;
  lotQuantity : Z;
  recommendedAlertPercentage : Z;
  minStockAlert : Z;
  usageCount : Z;
  lastUsed : option Date;
  storeId : Id;
  updatedAt : Date
}.
End Product.

Module ProductLot.
(** [createdAt] is written when the row is created and never again; it is
    left out.  [updatedAt] is stamped on [create] and on every [update], as
    for a product. *)
Record t := mk {
  id : Id;
  productId : Id;
  isInUse : bool;
  currentAmount : option number;
  startedAt : option Date;
  updatedAt : Date
}.
End ProductLot.

Module Usage.
(** Rows of [Usage], [RelatedProductUsage] and [Activity] are created and
    never updated; their [createdAt] (and [updatedAt], where the schema has
    one) are left out. *)
Record t := mk {
  id : Id;
  date : Date;
  usageAmount : number;
  defaultAmount : option number;
  nailLength : NailLength;
  isCustomAmount : bool;
  isGelService : bool;
  serviceTypeId : Id;
  productId : Id;
  usedLotId : option Id;
  note : option string
}.
End Usage.

Module RelatedProductUsage.
Record t := mk {
  id : Id;
  usageId : Id;
  productId : Id;
  amount : number;
  defaultAmount : option number;
  isCustomAmount : bool;
  role : option string;
  order : Z;
  usedLotId : option Id
}.
End RelatedProductUsage.

(** The [metadata] objects the operations attach to an activity. *)
Inductive Metadata :=
| MetaAddStock (productId : Id) (quantity : Z) (isInUse : bool)
    (currentAmount : option number)
| MetaStartUsing (productId lotId : Id)
| MetaRecordUsage (usageId productId serviceTypeId : Id) (usageAmount : number).

Module Activity.
Record t := mk {
  id : Id;
  userId : Id;
  type : string;
  action : string;
  metadata : Metadata
}.
End Activity.

Module MonthlyServiceStat.
(** The weather and analysis columns ([temperature], [humidity],
    [seasonalRate], [designUsageStats], [predictedUsage], [actualDeviation],
    [averageTimePerUse]) are written by no operation below; they are left
    out, and so are the timestamps [createdAt] and [updatedAt], the second
    of which every [update] of a row rewrites. *)
Record t := mk {
  id : Id;
  serviceTypeId : Id;
  month : Z;
  year : Z;
  totalUsage : number;
  averageUsage : number;
  usageCount : Z
}.
End MonthlyServiceStat.

(** Stores and users are only ever looked up by id. *)
Record DB := mkDB {
  stores : list Id;
  users : list Id;
  products : list Product.t;
  productLots : list ProductLot.t;
  serviceTypes : list ServiceType.t;
  usages : list Usage.t;
  relatedProductUsages : list RelatedProductUsage.t;
  activities : list Activity.t;
  monthlyServiceStats : list MonthlyServiceStat.t;
  nextId : Id
}.

(** ** Errors *)

Inductive Error :=
| StoreNotFound (storeId : Id)
| ProductNotFound (productId : Id)
| UserNotFound (userId : Id)
| ServiceTypeNotFound (serviceTypeId : Id)
| LotNotFound (lotId : Id)
| LotAlreadyInUse (lotId : Id)
| NoAvailableLots (productName : string)
| NotEnoughLeft (currentAmount required : number)
| NoAvailableRelatedLots (productId : Id)
| CapacityOfNull (lotId : Id).

(** The taxonomy the specification sorts the messages into;
    [CapacityOfNull] is the [TypeError] of reading [lot.product.capacity]
    when the product of the lot is missing, which is none of them. *)
Inductive ErrorKind :=
  NotFound | Conflict | InsufficientQuantity | OutOfStock | Unclassified.

Definition error_kind (e : Error) : ErrorKind :=
  match e with
  | StoreNotFound _ | ProductNotFound _ | UserNotFound _
  | ServiceTypeNotFound _ | LotNotFound _ => NotFound
  | LotAlreadyInUse _ => Conflict
  | NotEnoughLeft _ _ => InsufficientQuantity
  | NoAvailableLots _ | NoAvailableRelatedLots _ => OutOfStock
  | CapacityOfNull _ => Unclassified
  end.

(** ** Computations on the store *)

Inductive Outcome (A : Type) :=
| Ok (a : A) (db : DB)
| Throw (e : Error) (db : DB).
Arguments Ok {A} a db.
Arguments Throw {A} e db.

Definition M (A : Type) : Type := DB -> Outcome A.

Definition ret {A} (a : A) : M A := fun db => Ok a db.

Definition bind {A B} (m : M A) (k : A -> M B) : M B :=
  fun db =>
    match m db with
    | Ok a db' => k a db'
    | Throw e db' => Throw e db'
    end.

Definition throw {A} (e : Error) : M A := fun db => Throw e db.

Definition gets {A} (f : DB -> A) : M A := fun db => Ok (f db) db.

Definition modify (f : DB -> DB) : M unit := fun db => Ok tt (f db).

Declare Scope db_scope.
Delimit Scope db_scope with db.
Notation "x <- m ;; k" := (bind m (fun x => k))
  (at level 61, m at next level, right associativity) : db_scope.
Notation "m ;;; k" := (bind m (fun _ => k))
  (at level 61, right associativity) : db_scope.
Open Scope db_scope.

(** [prisma.$transaction]: all the writes of [body], or none of them. *)
Definition transaction {A} (body : M A) : M A :=
  fun db =>
    match body db with
    | Ok a db' => Ok a db'
    | Throw e _ => Throw e db
    end.

(** [for (const x of xs) { await body(x) }] *)
Fixpoint forEach {A} (xs : list A) (body : A -> M unit) : M unit :=
  match xs with
  | [] => ret tt
  | x :: xs' => body x ;;; forEach xs' body
  end.

(** [for (let i = 0; i < n; i++) { await body }] for a body that does not
    read [i]. *)
Fixpoint repeatM (n : nat) (body : M unit) : M unit :=
  match n with
  | O => ret tt
  | S n' => body ;;; repeatM n' body
  end.

Definition fresh : M Id :=
  fun db =>
    Ok (nextId db)
       (mkDB (stores db) (users db) (products db) (productLots db)
          (serviceTypes db) (usages db) (relatedProductUsages db)
          (activities db) (monthlyServiceStats db) (N.succ (nextId db))).

(** *** Table writes *)

Definition with_products (f : list Product.t -> list Product.t) (db : DB) : DB :=
  mkDB (stores db) (users db) (f (products db)) (productLots db)
    (serviceTypes db) (usages db) (relatedProductUsages db)
    (activities db) (monthlyServiceStats db) (nextId db).

Definition with_productLots
    (f : list ProductLot.t -> list ProductLot.t) (db : DB) : DB :=
  mkDB (stores db) (users db) (products db) (f (productLots db))
    (serviceTypes db) (usages db) (relatedProductUsages db)
    (activities db) (monthlyServiceStats db) (nextId db).

Definition with_usages (f : list Usage.t -> list Usage.t) (db : DB) : DB :=
  mkDB (stores db) (users db) (products db) (productLots db)
    (serviceTypes db) (f (usages db)) (relatedProductUsages db)
    (activities db) (monthlyServiceStats db) (nextId db).

Definition with_relatedProductUsages
    (f : list RelatedProductUsage.t -> list RelatedProductUsage.t)
    (db : DB) : DB :=
  mkDB (stores db) (users db) (products db) (productLots db)
    (serviceTypes db) (usages db) (f (relatedProductUsages db))
    (activities db) (monthlyServiceStats db) (nextId db).

Definition with_activities
    (f : list Activity.t -> list Activity.t) (db : DB) : DB :=
  mkDB (stores db) (users db) (products db) (productLots db)
    (serviceTypes db) (usages db) (relatedProductUsages db)
    (f (activities db)) (monthlyServiceStats db) (nextId db).

Definition with_monthlyServiceStats
    (f : list MonthlyServiceStat.t -> list MonthlyServiceStat.t)
    (db : DB) : DB :=
  mkDB (stores db) (users db) (products db) (productLots db)
    (serviceTypes db) (usages db) (relatedProductUsages db)
    (activities db) (f (monthlyServiceStats db)) (nextId db).

(** [update({ where: { id }, data })] rewrites the row that carries the id.
    Every call below passes the id of a row it has just read. *)
Definition update_where {A} (key : A -> Id) (id : Id) (f : A -> A)
    (rows : list A) : list A :=
  map (fun r => if N.eqb (key r) id then f r else r) rows.

Definition find_by_id {A} (key : A -> Id) (id : Id) (rows : list A) : option A :=
  find (fun r => N.eqb (key r) id) rows.

(** *** Lookups *)

Definition store_findUnique (id : Id) : M (option Id) :=
  gets (fun db => find (N.eqb id) (stores db)).

Definition user_findUnique (id : Id) : M (option Id) :=
  gets (fun db => find (N.eqb id) (users db)).

Definition serviceType_findUnique (id : Id) : M (option ServiceType.t) :=
  gets (fun db => find_by_id ServiceType.id id (serviceTypes db)).

Definition product_findUnique (id : Id) : M (option Product.t) :=
  gets (fun db => find_by_id Product.id id (products db)).

Definition productLot_findUnique (id : Id) : M (option ProductLot.t) :=
  gets (fun db => find_by_id ProductLot.id id (productLots db)).

(** [orderBy: { startedAt: 'asc' }]: a lot without a start date sorts
    before every dated one, as a null does in the document store; lots that
    compare equal keep their table order. *)
Definition startedAt_leb (a b : option Date) : bool :=
  match a, b with
  | None, _ => true
  | Some _, None => false
  | Some x, Some y => x <=? y
  end.

Fixpoint insert_by_startedAt (l : ProductLot.t) (ls : list ProductLot.t)
  : list ProductLot.t :=
  match ls with
  | [] => [l]
  | h :: t =>
      if startedAt_leb (ProductLot.startedAt l) (ProductLot.startedAt h)
      then l :: h :: t
      else h :: insert_by_startedAt l t
  end.

Fixpoint orderBy_startedAt (ls : list ProductLot.t) : list ProductLot.t :=
  match ls with
  | [] => []
  | l :: t => insert_by_startedAt l (orderBy_startedAt t)
  end.

(** The relation [currentProductLots] of a product, narrowed by
    [where: { isInUse: true }] and ordered by [startedAt]. *)
Definition inUseLots (productId : Id) (lots : list ProductLot.t)
  : list ProductLot.t :=
  orderBy_startedAt
    (filter (fun l => N.eqb (ProductLot.productId l) productId
                      && ProductLot.isInUse l) lots).

Definition product_findUnique_inUseLots (id : Id)
  : M (option (Product.t * list ProductLot.t)) :=
  gets (fun db =>
    match find_by_id Product.id id (products db) with
    | Some p => Some (p, inUseLots (Product.id p) (productLots db))
    | None => None
    end).

(** *** Creates and updates *)

(** [now] is what the clock reads during the call; the store stamps it on
    the [updatedAt] of every row it creates or updates.  For an update, the
    functions below that stand for its [data] write the stamp together with
    the columns the [data] names. *)
Definition productLot_create (productId : Id) (isInUse : bool)
    (currentAmount : option number) (startedAt : option Date) (now : Date)
  : M ProductLot.t :=
  id <- fresh ;;
  let lot := ProductLot.mk id productId isInUse currentAmount startedAt now in
  modify (with_productLots (fun ls => ls ++ [lot])) ;;;
  ret lot.

Definition product_update (id : Id) (f : Product.t -> Product.t) : M unit :=
  modify (with_products (update_where Product.id id f)).

Definition productLot_update (id : Id) (f : ProductLot.t -> ProductLot.t)
  : M unit :=
  modify (with_productLots (update_where ProductLot.id id f)).

Definition activity_create (userId : Id) (type action : string)
    (metadata : Metadata) : M unit :=
  id <- fresh ;;
  modify (with_activities
            (fun rows => rows ++ [Activity.mk id userId type action metadata])).

(** [currentAmount: { decrement: n }]: an atomic number operation leaves a
    null field null. *)
Definition decrement_currentAmount (n : number) (now : Date)
    (l : ProductLot.t) : ProductLot.t :=
  ProductLot.mk (ProductLot.id l) (ProductLot.productId l)
    (ProductLot.isInUse l)
    (match ProductLot.currentAmount l with
     | Some c => Some (sub c n)
     | None => None
     end)
    (ProductLot.startedAt l) now.

(** ** Product and lot registry *)

Module CreateProductParams.
Record t := mk {
  brand : string;
  productName : string;
  type : ProductType;
  price : number;
  capacity : option number;
  totalQuantity : option Z;
  recommendedAlertPercentage : option Z;
  minStockAlert : option Z;
  storeId : Id
}.
End CreateProductParams.

Definition or_default {A} (d : A) (o : option A) : A :=
  match o with
  | Some a => a
  | None => d
  end.

(** [prisma.product.create]; the columns the call does not name take the
    schema defaults: [inUseQuantity] 0, [usageCount] 0, no [lastUsed]. *)
Definition product_create (brand productName : string) (type : ProductType)
    (price : number) (capacity : option number)
    (totalQuantity lotQuantity recommendedAlertPercentage minStockAlert : Z)
    (storeId : Id) (now : Date) : M Product.t :=
  id <- fresh ;;
  let product :=
    Product.mk id brand productName type price capacity
      totalQuantity 0 lotQuantity recommendedAlertPercentage minStockAlert
      0 None storeId now in
  modify (with_products (fun ps => ps ++ [product])) ;;;
  ret product.

Definition createProduct (params : CreateProductParams.t) (now : Date)
  : M Product.t :=
  let totalQuantity := or_default 1 (CreateProductParams.totalQuantity params) in
  let recommendedAlertPercentage :=
    or_default 20 (CreateProductParams.recommendedAlertPercentage params) in
  let minStockAlert := or_default 5 (CreateProductParams.minStockAlert params) in
  let storeId := CreateProductParams.storeId params in
  store <- store_findUnique storeId ;;
  match store with
  | None => throw (StoreNotFound storeId)
  | Some _ =>
      product <- product_create
        (CreateProductParams.brand params)
        (CreateProductParams.productName params)
        (CreateProductParams.type params)
        (CreateProductParams.price params)
        (CreateProductParams.capacity params)
        totalQuantity totalQuantity recommendedAlertPercentage minStockAlert
        storeId now ;;
      repeatM (Z.to_nat totalQuantity)
        (_ <- productLot_create (Product.id product) false None None now ;;
         ret tt) ;;;
      ret product
  end.

Module AddProductStockParams.
Record t := mk {
  productId : Id;
  quantity : Z;
  currentAmount : option number;
  isInUse : option bool;
  addedBy : Id
}.
End AddProductStockParams.

Definition increment_stock (quantity : Z) (isInUse : bool) (now : Date)
    (p : Product.t) : Product.t :=
  Product.mk (Product.id p) (Product.brand p) (Product.productName p)
    (Product.type p) (Product.price p) (Product.capacity p)
    (Product.totalQuantity p + quantity)
    (Product.inUseQuantity p + (if isInUse then quantity else 0))
    (Product.lotQuantity p + (if isInUse then 0 else quantity))
    (Product.recommendedAlertPercentage p) (Product.minStockAlert p)
    (Product.usageCount p) (Product.lastUsed p) (Product.storeId p) now.

Definition addProductStock (params : AddProductStockParams.t) (now : Date)
  : M ProductLot.t :=
  let productId := AddProductStockParams.productId params in
  let quantity := AddProductStockParams.quantity params in
  let currentAmount := AddProductStockParams.currentAmount params in
  let isInUse := or_default false (AddProductStockParams.isInUse params) in
  let addedBy := AddProductStockParams.addedBy params in
  product <- product_findUnique productId ;;
  match product with
  | None => throw (ProductNotFound productId)
  | Some _ =>
      user <- user_findUnique addedBy ;;
      match user with
      | None => throw (UserNotFound addedBy)
      | Some _ =>
          productLot <- transaction (
            productLot <- productLot_create productId isInUse
              (if isInUse then currentAmount else None)
              (if isInUse then Some now else None) now ;;
            product_update productId (increment_stock quantity isInUse now) ;;;
            ret productLot) ;;
          activity_create addedBy "INVENTORY" "ADD_STOCK"
            (MetaAddStock productId quantity isInUse currentAmount) ;;;
          ret productLot
      end
  end.

Definition start_using (capacity : option number) (now : Date)
    (l : ProductLot.t) : ProductLot.t :=
  ProductLot.mk (ProductLot.id l) (ProductLot.productId l) true capacity
    (Some now) now.

Definition move_to_inUse (now : Date) (p : Product.t) : Product.t :=
  Product.mk (Product.id p) (Product.brand p) (Product.productName p)
    (Product.type p) (Product.price p) (Product.capacity p)
    (Product.totalQuantity p)
    (Product.inUseQuantity p + 1)
    (Product.lotQuantity p - 1)
    (Product.recommendedAlertPercentage p) (Product.minStockAlert p)
    (Product.usageCount p) (Product.lastUsed p) (Product.storeId p) now.

(** The lot is read together with its product ([include: { product: true }]);
    [update] returns the row as written.  The array handed to
    [prisma.$transaction] is built before anything is written, and building
    it reads [lot.product.capacity]: a lot whose product is missing makes
    the call throw there. *)
Definition productLot_findUnique_product (id : Id)
  : M (option (ProductLot.t * option Product.t)) :=
  gets (fun db =>
    match find_by_id ProductLot.id id (productLots db) with
    | Some l =>
        Some (l, find_by_id Product.id (ProductLot.productId l) (products db))
    | None => None
    end).

Definition startUsingProduct (lotId userId : Id) (now : Date)
  : M ProductLot.t :=
  lot <- productLot_findUnique_product lotId ;;
  match lot with
  | None => throw (LotNotFound lotId)
  | Some (lot, product) =>
      if ProductLot.isInUse lot then throw (LotAlreadyInUse lotId)
      else
        user <- user_findUnique userId ;;
        match user with
        | None => throw (UserNotFound userId)
        | Some _ =>
            match product with
            | None => throw (CapacityOfNull lotId)
            | Some product =>
                let capacity := Product.capacity product in
                updatedLot <- transaction (
                  productLot_update lotId (start_using capacity now) ;;;
                  product_update (ProductLot.productId lot)
                    (move_to_inUse now) ;;;
                  ret (start_using capacity now lot)) ;;
                activity_create userId "INVENTORY" "START_USING"
                  (MetaStartUsing (ProductLot.productId lot) lotId) ;;;
                ret updatedLot
            end
        end
  end.

(** ** Usage recorder *)

Module RelatedEntry.
Record t := mk {
  productId : Id;
  amount : number;
  defaultAmount : option number;
  isCustomAmount : option bool;
  role : option string;
  order : option Z
}.
End RelatedEntry.

Module RecordProductUsageParams.
Record t := mk {
  productId : Id;
  serviceTypeId : Id;
  usageAmount : number;
  defaultAmount : option number;
  nailLength : NailLength;
  isCustomAmount : option bool;
  relatedProducts : option (list RelatedEntry.t);
  note : option string;
  recordedBy : Id
}.
End RecordProductUsageParams.

Definition usage_create (date : Date) (usageAmount : number)
    (defaultAmount : option number) (nailLength : NailLength)
    (isCustomAmount isGelService : bool) (serviceTypeId productId : Id)
    (usedLotId : Id) (note : option string) : M Usage.t :=
  id <- fresh ;;
  let usage :=
    Usage.mk id date usageAmount defaultAmount nailLength isCustomAmount
      isGelService serviceTypeId productId (Some usedLotId) note in
  modify (with_usages (fun rows => rows ++ [usage])) ;;;
  ret usage.

Definition relatedProductUsage_create (usageId productId : Id)
    (amount : number) (defaultAmount : option number) (isCustomAmount : bool)
    (role : option string) (order : Z) (usedLotId : Id) : M unit :=
  id <- fresh ;;
  modify (with_relatedProductUsages (fun rows =>
    rows ++ [RelatedProductUsage.mk id usageId productId amount defaultAmount
               isCustomAmount role order (Some usedLotId)])).

Definition mark_used (now : Date) (p : Product.t) : Product.t :=
  Product.mk (Product.id p) (Product.brand p) (Product.productName p)
    (Product.type p) (Product.price p) (Product.capacity p)
    (Product.totalQuantity p) (Product.inUseQuantity p) (Product.lotQuantity p)
    (Product.recommendedAlertPercentage p) (Product.minStockAlert p)
    (Product.usageCount p + 1) (Some now) (Product.storeId p) now.

(** One turn of the loop over [relatedProducts]. *)
Definition recordRelated (usageId : Id) (now : Date)
    (related : RelatedEntry.t) : M unit :=
  relatedProduct <- product_findUnique_inUseLots (RelatedEntry.productId related) ;;
  match relatedProduct with
  | None => throw (NoAvailableRelatedLots (RelatedEntry.productId related))
  | Some (_, []) => throw (NoAvailableRelatedLots (RelatedEntry.productId related))
  | Some (_, relatedLot :: _) =>
      relatedProductUsage_create usageId (RelatedEntry.productId related)
        (RelatedEntry.amount related) (RelatedEntry.defaultAmount related)
        (or_default false (RelatedEntry.isCustomAmount related))
        (RelatedEntry.role related)
        (or_default 0 (RelatedEntry.order related))
        (ProductLot.id relatedLot) ;;;
      productLot_update (ProductLot.id relatedLot)
        (decrement_currentAmount (RelatedEntry.amount related) now)
  end.

(** [usedLot.currentAmount !== null && usedLot.currentAmount < usageAmount]:
    the amount that falls short, if one does. *)
Definition notEnough (usedLot : ProductLot.t) (usageAmount : number)
  : option number :=
  match ProductLot.currentAmount usedLot with
  | Some c => if ltb c usageAmount then Some c else None
  | None => None
  end.

(** The callback handed to [prisma.$transaction].  [now] is what the clock
    reads during the call: the [date] of the usage and the [lastUsed] of the
    product are both [new Date()], and the rows the call updates are stamped
    with it. *)
Definition recordUsageTx (params : RecordProductUsageParams.t) (now : Date)
    (serviceType : ServiceType.t) (usedLot : ProductLot.t) : M Usage.t :=
  let productId := RecordProductUsageParams.productId params in
  let serviceTypeId := RecordProductUsageParams.serviceTypeId params in
  let usageAmount := RecordProductUsageParams.usageAmount params in
  usage <- usage_create now usageAmount
    (RecordProductUsageParams.defaultAmount params)
    (RecordProductUsageParams.nailLength params)
    (or_default false (RecordProductUsageParams.isCustomAmount params))
    (ServiceType.isGelService serviceType)
    serviceTypeId productId (ProductLot.id usedLot)
    (RecordProductUsageParams.note params) ;;
  productLot_update (ProductLot.id usedLot)
    (decrement_currentAmount usageAmount now) ;;;
  forEach (or_default [] (RecordProductUsageParams.relatedProducts params))
    (recordRelated (Usage.id usage) now) ;;;
  product_update productId (mark_used now) ;;;
  activity_create (RecordProductUsageParams.recordedBy params)
    "INVENTORY" "RECORD_USAGE"
    (MetaRecordUsage (Usage.id usage) productId serviceTypeId usageAmount) ;;;
  ret usage.

Definition recordProductUsage (params : RecordProductUsageParams.t)
    (now : Date) : M Usage.t :=
  let productId := RecordProductUsageParams.productId params in
  let serviceTypeId := RecordProductUsageParams.serviceTypeId params in
  let usageAmount := RecordProductUsageParams.usageAmount params in
  let recordedBy := RecordProductUsageParams.recordedBy params in
  product <- product_findUnique_inUseLots productId ;;
  match product with
  | None => throw (ProductNotFound productId)
  | Some (product, []) => throw (NoAvailableLots (Product.productName product))
  | Some (product, usedLot :: _) =>
      serviceType <- serviceType_findUnique serviceTypeId ;;
      match serviceType with
      | None => throw (ServiceTypeNotFound serviceTypeId)
      | Some serviceType =>
          user <- user_findUnique recordedBy ;;
          match user with
          | None => throw (UserNotFound recordedBy)
          | Some _ =>
              match notEnough usedLot usageAmount with
              | Some c => throw (NotEnoughLeft c usageAmount)
              | None => transaction (recordUsageTx params now serviceType usedLot)
              end
          end
      end
  end.

(** ** Monthly statistics *)

Definition monthlyServiceStat_findUnique (serviceTypeId : Id) (year month : Z)
  : M (option MonthlyServiceStat.t) :=
  gets (fun db =>
    find (fun r => N.eqb (MonthlyServiceStat.serviceTypeId r) serviceTypeId
                   && (MonthlyServiceStat.year r =? year)
                   && (MonthlyServiceStat.month r =? month))
         (monthlyServiceStats db)).

Definition monthlyServiceStat_create (serviceTypeId : Id) (year month : Z)
    (totalUsage : number) (usageCount : Z) (averageUsage : number) : M unit :=
  id <- fresh ;;
  modify (with_monthlyServiceStats (fun rows =>
    rows ++ [MonthlyServiceStat.mk id serviceTypeId month year totalUsage
               averageUsage usageCount])).

Definition set_stat (totalUsage : number) (usageCount : Z)
    (averageUsage : number) (r : MonthlyServiceStat.t) : MonthlyServiceStat.t :=
  MonthlyServiceStat.mk (MonthlyServiceStat.id r)
    (MonthlyServiceStat.serviceTypeId r) (MonthlyServiceStat.month r)
    (MonthlyServiceStat.year r) totalUsage averageUsage usageCount.

Section MonthlyStats.

(** The calendar getters of [Date], which read the host's time zone. *)
Variable getFullYear : Date -> Z.
Variable getMonth : Date -> Z.

(** The caller's [date], or [new Date()] when it passes none. *)
Definition updateMonthlyStats (serviceTypeId : Id) (usageAmount : number)
    (date : option Date) (now : Date) : M unit :=
  let date := or_default now date in
  let year := getFullYear date in
  let month := getMonth date + 1 in
  existingStat <- monthlyServiceStat_findUnique serviceTypeId year month ;;
  match existingStat with
  | Some existingStat =>
      modify (with_monthlyServiceStats
        (update_where MonthlyServiceStat.id (MonthlyServiceStat.id existingStat)
           (set_stat
              (add (MonthlyServiceStat.totalUsage existingStat) usageAmount)
              (MonthlyServiceStat.usageCount existingStat + 1)
              (div (add (MonthlyServiceStat.totalUsage existingStat) usageAmount)
                   (of_Z (MonthlyServiceStat.usageCount existingStat + 1))))))
  | None =>
      monthlyServiceStat_create serviceTypeId year month usageAmount 1
        usageAmount
  end.

End MonthlyStats.

(** ** Vocabulary of the statements *)

(** The lot a usage of [productId] is drawn from. *)
Definition oldestInUse (productId : Id) (lots : list ProductLot.t)
  : option ProductLot.t :=
  hd_error (inUseLots productId lots).

(** One draw [(lot id, amount)] seen from a single lot, and a run of them. *)
Definition draw (now : Date) (d : Id * number) (l : ProductLot.t)
  : ProductLot.t :=
  if N.eqb (ProductLot.id l) (fst d)
  then decrement_currentAmount (snd d) now l
  else l.

Definition apply_draws (now : Date) (ds : list (Id * number))
    (l : ProductLot.t) : ProductLot.t :=
  fold_left (fun l d => draw now d l) ds l.

(** The rows the loop over [relatedProducts] adds when entry [r] is served
    from the lot with id [k]; [next] is the id of the first row. *)
Fixpoint relatedRows (usageId next : Id)
    (rks : list (RelatedEntry.t * Id)) : list RelatedProductUsage.t :=
  match rks with
  | [] => []
  | (r, k) :: t =>
      RelatedProductUsage.mk next usageId (RelatedEntry.productId r)
        (RelatedEntry.amount r) (RelatedEntry.defaultAmount r)
        (or_default false (RelatedEntry.isCustomAmount r))
        (RelatedEntry.role r) (or_default 0 (RelatedEntry.order r)) (Some k)
      :: relatedRows usageId (N.succ next) t
  end.

(** The head of an ordered list is no later than any of its elements. *)
Definition head_first (ls : list ProductLot.t) : Prop :=
  match ls with
  | [] => True
  | h :: _ =>
      Forall (fun x => startedAt_leb (ProductLot.startedAt h)
                         (ProductLot.startedAt x) = true) ls
  end.

(** The usage row a successful call creates and returns. *)
Definition usageRow (params : RecordProductUsageParams.t) (now : Date)
    (serviceType : ServiceType.t) (usedLot : ProductLot.t) (id : Id)
  : Usage.t :=
  Usage.mk id now (RecordProductUsageParams.usageAmount params)
    (RecordProductUsageParams.defaultAmount params)
    (RecordProductUsageParams.nailLength params)
    (or_default false (RecordProductUsageParams.isCustomAmount params))
    (ServiceType.isGelService serviceType)
    (RecordProductUsageParams.serviceTypeId params)
    (RecordProductUsageParams.productId params)
    (Some (ProductLot.id usedLot))
    (RecordProductUsageParams.note params).

(** The store a successful call leaves, given the lots [ks] that serve the
    related entries. *)
Definition afterUsage (params : RecordProductUsageParams.t) (now : Date)
    (serviceType : ServiceType.t) (usedLot : ProductLot.t) (ks : list Id)
    (db : DB) : DB :=
  let related := or_default [] (RecordProductUsageParams.relatedProducts params) in
  let usage := usageRow params now serviceType usedLot (nextId db) in
  let last := (N.succ (nextId db) + N.of_nat (List.length related))%N in
  mkDB (stores db) (users db)
    (update_where Product.id (RecordProductUsageParams.productId params)
       (mark_used now) (products db))
    (map (apply_draws now
            ((ProductLot.id usedLot, RecordProductUsageParams.usageAmount params)
             :: combine ks (map RelatedEntry.amount related)))
       (productLots db))
    (serviceTypes db)
    (usages db ++ [usage])
    (relatedProductUsages db
     ++ relatedRows (nextId db) (N.succ (nextId db)) (combine related ks))
    (activities db
     ++ [Activity.mk last (RecordProductUsageParams.recordedBy params)
           "INVENTORY" "RECORD_USAGE"
           (MetaRecordUsage (nextId db)
              (RecordProductUsageParams.productId params)
              (RecordProductUsageParams.serviceTypeId params)
              (RecordProductUsageParams.usageAmount params))])
    (monthlyServiceStats db)
    (N.succ last).

(** What a draw never touches in a lot: every column but [currentAmount]
    and the stamp [updatedAt]. *)
Definition same_shape (l l' : ProductLot.t) : Prop :=
  ProductLot.id l' = ProductLot.id l
  /\ ProductLot.productId l' = ProductLot.productId l
  /\ ProductLot.isInUse l' = ProductLot.isInUse l
  /\ ProductLot.startedAt l' = ProductLot.startedAt l.

(** What marking a product as used never touches in it: every column but
    [usageCount], [lastUsed] and the stamp [updatedAt]. *)
Definition same_except_usage (p p' : Product.t) : Prop :=
  Product.id p' = Product.id p
  /\ Product.brand p' = Product.brand p
  /\ Product.productName p' = Product.productName p
  /\ Product.type p' = Product.type p
  /\ Product.price p' = Product.price p
  /\ Product.capacity p' = Product.capacity p
  /\ Product.totalQuantity p' = Product.totalQuantity p
  /\ Product.inUseQuantity p' = Product.inUseQuantity p
  /\ Product.lotQuantity p' = Product.lotQuantity p
  /\ Product.recommendedAlertPercentage p' = Product.recommendedAlertPercentage p
  /\ Product.minStockAlert p' = Product.minStockAlert p
  /\ Product.storeId p' = Product.storeId p.

(** Entry [r] of a usage finds its product and is served from lot [k]. *)
Definition served (db : DB) (r : RelatedEntry.t) (k : Id) : Prop :=
  (exists p, find_by_id Product.id (RelatedEntry.productId r) (products db)
             = Some p)
  /\ exists lot, oldestInUse (RelatedEntry.productId r) (productLots db)
                 = Some lot
                 /\ ProductLot.id lot = k.

(** A product that takes part in a usage and cannot serve it. *)
Definition unavailable (productId : Id) (db : DB) : Prop :=
  find_by_id Product.id productId (products db) = None
  \/ oldestInUse productId (productLots db) = None.

Definition participant_fails (params : RecordProductUsageParams.t) (db : DB)
  : Prop :=
  unavailable (RecordProductUsageParams.productId params) db
  \/ exists r,
       In r (or_default [] (RecordProductUsageParams.relatedProducts params))
       /\ unavailable (RelatedEntry.productId r) db.

(** Primary keys: lot ids are unique, and no lot points at an id the store
    has yet to hand out. *)
Definition unique_lot_ids (db : DB) : Prop :=
  NoDup (map ProductLot.id (productLots db)).

Definition lots_reference_issued_ids (db : DB) : Prop :=
  Forall (fun l => (ProductLot.productId l < nextId db)%N) (productLots db).

(** The lots of one product, and the three counters read off the lot set. *)
Definition lotsOf (productId : Id) (db : DB) : list ProductLot.t :=
  filter (fun l => N.eqb (ProductLot.productId l) productId) (productLots db).

Definition counters_match_lots (p : Product.t) (db : DB) : Prop :=
  Z.of_nat (List.length (lotsOf (Product.id p) db)) = Product.totalQuantity p
  /\ Z.of_nat (List.length (filter ProductLot.isInUse (lotsOf (Product.id p) db)))
     = Product.inUseQuantity p
  /\ Z.of_nat (List.length (filter (fun l => negb (ProductLot.isInUse l))
                         (lotsOf (Product.id p) db)))
     = Product.lotQuantity p.

Definition stat_of (serviceTypeId : Id) (year month : Z) (db : DB)
  : option MonthlyServiceStat.t :=
  find (fun r => N.eqb (MonthlyServiceStat.serviceTypeId r) serviceTypeId
                 && (MonthlyServiceStat.year r =? year)
                 && (MonthlyServiceStat.month r =? month))
       (monthlyServiceStats db).

(** The lots [createProduct] adds for a new product: [n] unopened ones with
    consecutive ids. *)
Fixpoint newLots (productId next : Id) (now : Date) (n : nat)
  : list ProductLot.t :=
  match n with
  | O => []
  | S n' =>
      ProductLot.mk next productId false None None now
      :: newLots productId (N.succ next) now n'
  end.

(** A binary64 value proper: mantissa and exponent within the format. *)
Definition is_binary64 (x : number) : Prop := valid_binary prec emax x = true.

(** *** The adjustment in the specification's words *)

Definition lengthRate (serviceType : ServiceType.t) (nailLength : NailLength)
  : Z :=
  match nailLength with
  | SHORT => ServiceType.shortLengthRate serviceType
  | MEDIUM => ServiceType.mediumLengthRate serviceType
  | LONG => ServiceType.longLengthRate serviceType
  end.

(** "rounded to two decimal places" *)
Definition round2 (x : number) : number := parseFloat (toFixed x 2).

(** The rate percentage, multiplied by the design factor and rounded to the
    nearest integer whenever a design factor is set. *)
Definition resolveAdjustedAmount_as_specified (serviceType : ServiceType.t)
    (baseAmount : number) (nailLength : NailLength) : number :=
  let rate := of_Z (lengthRate serviceType nailLength) in
  let rate :=
    match ServiceType.designUsageRate serviceType with
    | Some factor => Math_round (mul rate factor)
    | None => rate
    end in
  round2 (mul baseAmount (div rate (of_Z 100))).

(** ** Sample data

    One salon with a polish (two open bottles, the second opened first), a
    base coat (one open bottle with 1 ml left) and a top coat (one unopened
    bottle).  Every row was last written at time 0. *)

Definition ex_product_at (updatedAt : Date) (id : Id) (name : string)
    (total inUse unused : Z) : Product.t :=
  Product.mk id "OPI" name POLISH_COLOR (of_Z 1200) (Some (of_Z 15))
    total inUse unused 20 5 0 None 1%N updatedAt.

Definition ex_product : Id -> string -> Z -> Z -> Z -> Product.t :=
  ex_product_at 0.

Definition ex_serviceType : ServiceType.t :=
  ServiceType.mk 3%N "Adjustable Manicure" (decimal 5 1) POLISH_COLOR
    false false false 80 100 150 false None None 1%N.

Definition salon : DB :=
  mkDB [1%N] [2%N]
    [ex_product 10%N "Color" 2 2 0;
     ex_product 11%N "Base" 1 1 0;
     ex_product 12%N "Top" 1 0 1]
    [ProductLot.mk 20%N 10%N true (Some (of_Z 15)) (Some 200) 0;
     ProductLot.mk 21%N 10%N true (Some (of_Z 9)) (Some 100) 0;
     ProductLot.mk 22%N 11%N true (Some (of_Z 1)) (Some 50) 0;
     ProductLot.mk 23%N 12%N false None None 0]
    [ex_serviceType] [] [] [] [] 100%N.

(** The same salon with the first-opened polish bottle used up and the
    later one holding 10 ml. *)
Definition salon_depleted : DB :=
  with_productLots (fun _ =>
    [ProductLot.mk 20%N 10%N true (Some (of_Z 0)) (Some 100) 0;
     ProductLot.mk 21%N 10%N true (Some (of_Z 10)) (Some 200) 0;
     ProductLot.mk 22%N 11%N true (Some (of_Z 1)) (Some 50) 0;
     ProductLot.mk 23%N 12%N false None None 0]) salon.

Definition ex_related (productId : Id) (amount : number) : RelatedEntry.t :=
  RelatedEntry.mk productId amount None None None None.

Definition ex_usage (amount : number) (related : list RelatedEntry.t)
  : RecordProductUsageParams.t :=
  RecordProductUsageParams.mk 10%N 3%N amount None MEDIUM None (Some related)
    None 2%N.

Definition ex_newProduct (storeId : Id) (n : Z) : CreateProductParams.t :=
  CreateProductParams.mk "OPI" "Red Nail Polish" POLISH_COLOR (of_Z 1200)
    (Some (of_Z 15)) (Some n) None None storeId.

(** A service type whose design factor is stored as zero. *)
Definition ex_zeroDesign : ServiceType.t :=
  ServiceType.mk 4%N "Plain" (decimal 5 1) POLISH_COLOR
    false false false 80 100 150 false (Some "BASIC"%string) (Some (of_Z 0)) 1%N.

(** A service type with rates 80/100/130 and a design factor of 1.25. *)
Definition ex_french : ServiceType.t :=
  ServiceType.mk 5%N "French" (decimal 5 1) POLISH_COLOR
    false false false 80 100 130 false (Some "FRENCH"%string)
    (Some (decimal 125 2)) 1%N.

(** ** Vocabulary of the further statements *)

(** The store an outcome leaves, whether the call returned or threw. *)
Definition final {A} (o : Outcome A) : DB :=
  match o with
  | Ok _ db => db
  | Throw _ db => db
  end.


(** Primary keys of products and lots: unique, and handed out by the store;
    lots point at issued ids. *)
Definition unique_product_ids (db : DB) : Prop :=
  NoDup (map Product.id (products db)).

Definition ids_issued (db : DB) : Prop :=
  Forall (fun l => (ProductLot.id l < nextId db)%N) (productLots db)
  /\ Forall (fun p => (Product.id p < nextId db)%N) (products db).

Definition well_keyed (db : DB) : Prop :=
  unique_lot_ids db /\ unique_product_ids db /\ ids_issued db
  /\ lots_reference_issued_ids db.

(** A related entry can be served: its product exists and has a lot in
    use. *)
Definition availableb (db : DB) (productId : Id) : bool :=
  match find_by_id Product.id productId (products db),
        oldestInUse productId (productLots db) with
  | Some _, Some _ => true
  | _, _ => false
  end.

(** The lots that serve the related entries, read off the store the call
    starts from. *)
Definition servingLots (db : DB) (rels : list RelatedEntry.t) : list Id :=
  map (fun r =>
         match oldestInUse (RelatedEntry.productId r) (productLots db) with
         | Some lot => ProductLot.id lot
         | None => 0%N
         end) rels.

(** The rewrite [startUsingProduct] applies to the lot table. *)
Definition started (lotId : Id) (capacity : option number) (now : Date)
    (l : ProductLot.t) : ProductLot.t :=
  if N.eqb (ProductLot.id l) lotId then start_using capacity now l else l.

(** The capacity [startUsingProduct] reads through the lot's product. *)
Definition capacityOf (productId : Id) (db : DB) : option number :=
  match find_by_id Product.id productId (products db) with
  | Some p => Product.capacity p
  | None => None
  end.

(** The store a successful [startUsingProduct] leaves. *)
Definition afterStart (lotId userId : Id) (now : Date) (lot : ProductLot.t)
    (db : DB) : DB :=
  mkDB (stores db) (users db)
    (update_where Product.id (ProductLot.productId lot) (move_to_inUse now)
       (products db))
    (map (started lotId (capacityOf (ProductLot.productId lot) db) now)
       (productLots db))
    (serviceTypes db) (usages db) (relatedProductUsages db)
    (activities db
     ++ [Activity.mk (nextId db) userId "INVENTORY" "START_USING"
           (MetaStartUsing (ProductLot.productId lot) lotId)])
    (monthlyServiceStats db) (N.succ (nextId db)).

(** The lot [addProductStock] creates, and the store it leaves. *)
Definition stockLot (params : AddProductStockParams.t) (now : Date) (id : Id)
  : ProductLot.t :=
  let isInUse := or_default false (AddProductStockParams.isInUse params) in
  ProductLot.mk id (AddProductStockParams.productId params) isInUse
    (if isInUse then AddProductStockParams.currentAmount params else None)
    (if isInUse then Some now else None) now.

Definition afterAdd (params : AddProductStockParams.t) (now : Date) (db : DB)
  : DB :=
  let isInUse := or_default false (AddProductStockParams.isInUse params) in
  mkDB (stores db) (users db)
    (update_where Product.id (AddProductStockParams.productId params)
       (increment_stock (AddProductStockParams.quantity params) isInUse now)
       (products db))
    (productLots db ++ [stockLot params now (nextId db)])
    (serviceTypes db) (usages db) (relatedProductUsages db)
    (activities db
     ++ [Activity.mk (N.succ (nextId db))
           (AddProductStockParams.addedBy params) "INVENTORY" "ADD_STOCK"
           (MetaAddStock (AddProductStockParams.productId params)
              (AddProductStockParams.quantity params) isInUse
              (AddProductStockParams.currentAmount params))])
    (monthlyServiceStats db) (N.succ (N.succ (nextId db))).

(** *** More sample data *)

(** The salon with one more product: a cuticle oil whose only open bottle
    has no recorded amount. *)
Definition salon_unmeasured : DB :=
  mkDB [1%N] [2%N]
    (products salon ++ [ex_product 13%N "Oil" 1 1 0])
    (productLots salon ++ [ProductLot.mk 24%N 13%N true None (Some 10) 0])
    [ex_serviceType] [] [] [] [] 100%N.

Definition ex_usageOf (productId : Id) (amount : number)
    (related : list RelatedEntry.t) : RecordProductUsageParams.t :=
  RecordProductUsageParams.mk productId 3%N amount None MEDIUM None
    (Some related) None 2%N.

(** A number that is zero or above: a zero of either sign, a positive
    finite value or +infinity. *)
Definition nonnegative (x : number) : Prop :=
  match x with
  | S754_zero _ | S754_finite false _ _ | S754_infinity false => True
  | _ => False
  end.

(** The product [createProduct] stores, and the store it leaves. *)
Definition newProduct (params : CreateProductParams.t) (now : Date) (id : Id)
  : Product.t :=
  let totalQuantity := or_default 1 (CreateProductParams.totalQuantity params) in
  Product.mk id (CreateProductParams.brand params)
    (CreateProductParams.productName params)
    (CreateProductParams.type params) (CreateProductParams.price params)
    (CreateProductParams.capacity params)
    totalQuantity 0 totalQuantity
    (or_default 20 (CreateProductParams.recommendedAlertPercentage params))
    (or_default 5 (CreateProductParams.minStockAlert params))
    0 None (CreateProductParams.storeId params) now.

Definition afterCreate (params : CreateProductParams.t) (now : Date) (db : DB)
  : DB :=
  let n := Z.to_nat (or_default 1 (CreateProductParams.totalQuantity params)) in
  mkDB (stores db) (users db)
    (products db ++ [newProduct params now (nextId db)])
    (productLots db ++ newLots (nextId db) (N.succ (nextId db)) now n)
    (serviceTypes db) (usages db) (relatedProductUsages db)
    (activities db) (monthlyServiceStats db)
    (N.succ (nextId db) + N.of_nat n)%N.

(** ** Stock status: [getProductStock] *)

(** [include: { currentProductLots: true }]: the product with all its
    lots. *)
Definition product_findUnique_lots (id : Id)
  : M (option (Product.t * list ProductLot.t)) :=
  gets (fun db =>
    match find_by_id Product.id id (products db) with
    | Some p => Some (p, lotsOf (Product.id p) db)
    | None => None
    end).

(** [x || 0] on a nullable number: null, zero and NaN give 0. *)
Definition or_zero (x : option number) : number :=
  match x with
  | Some v => if truthy v then v else of_Z 0
  | None => of_Z 0
  end.

(** [if (x)] on a nullable number. *)
Definition truthy_opt (x : option number) : bool :=
  match x with
  | Some v => truthy v
  | None => false
  end.

Module ProductStock.
Record t := mk {
  product : Product.t;
  totalCapacity : number;
  currentTotal : number;
  inUseLots : list ProductLot.t;
  unusedLots : list ProductLot.t;
  isLowStock : bool
}.
End ProductStock.

Definition getProductStock (productId : Id) : M ProductStock.t :=
  product <- product_findUnique_lots productId ;;
  match product with
  | None => throw (ProductNotFound productId)
  | Some (product, currentProductLots) =>
      let inUseLots := filter ProductLot.isInUse currentProductLots in
      let unusedLots :=
        filter (fun lot => negb (ProductLot.isInUse lot)) currentProductLots in
      let totals :=
        if truthy_opt (Product.capacity product)
        then
          let totalCapacity :=
            mul (of_Z (Product.totalQuantity product))
              (or_zero (Product.capacity product)) in
          let inUseAmount :=
            fold_left
              (fun sum lot => add sum (or_zero (ProductLot.currentAmount lot)))
              inUseLots (of_Z 0) in
          let unusedAmount :=
            mul (of_Z (Z.of_nat (List.length unusedLots)))
              (or_zero (Product.capacity product)) in
          (totalCapacity, add inUseAmount unusedAmount)
        else
          (of_Z (Product.totalQuantity product),
           add (of_Z (Product.lotQuantity product))
             (of_Z (Z.of_nat (List.length inUseLots)))) in
      let isLowStock :=
        Product.lotQuantity product <=? Product.minStockAlert product in
      ret (ProductStock.mk product (fst totals) (snd totals) inUseLots
             unusedLots isLowStock)
  end.

(** A number that is not below zero and not the negative zero (NaN
    included). *)
Definition not_negative (x : number) : Prop :=
  match x with
  | S754_zero true | S754_finite true _ _ | S754_infinity true => False
  | _ => True
  end.

(** ** Monthly statistics: reading a row, and the keys of the table *)

Definition getMonthlyServiceStats (serviceTypeId : Id) (year month : Z)
  : M (option MonthlyServiceStat.t) :=
  monthlyServiceStat_findUnique serviceTypeId year month.

(** The compound key [monthlyStatIdentifier]. *)
Definition stat_key (r : MonthlyServiceStat.t) : Id * Z * Z :=
  (MonthlyServiceStat.serviceTypeId r, MonthlyServiceStat.year r,
   MonthlyServiceStat.month r).

(** Row ids are unique and issued by the store, and no two rows share a
    service type, year and month. *)
Definition stats_keyed (db : DB) : Prop :=
  NoDup (map MonthlyServiceStat.id (monthlyServiceStats db))
  /\ Forall (fun r => (MonthlyServiceStat.id r < nextId db)%N)
       (monthlyServiceStats db)
  /\ NoDup (map stat_key (monthlyServiceStats db)).

(** The store [updateMonthlyStats] leaves for an amount booked on
    [year]/[month]. *)
Definition afterStat (serviceTypeId : Id) (year month : Z)
    (usageAmount : number) (db : DB) : DB :=
  match stat_of serviceTypeId year month db with
  | Some row =>
      with_monthlyServiceStats
        (update_where MonthlyServiceStat.id (MonthlyServiceStat.id row)
           (set_stat
              (add (MonthlyServiceStat.totalUsage row) usageAmount)
              (MonthlyServiceStat.usageCount row + 1)
              (div (add (MonthlyServiceStat.totalUsage row) usageAmount)
                 (of_Z (MonthlyServiceStat.usageCount row + 1))))) db
  | None =>
      mkDB (stores db) (users db) (products db) (productLots db)
        (serviceTypes db) (usages db) (relatedProductUsages db)
        (activities db)
        (monthlyServiceStats db
         ++ [MonthlyServiceStat.mk (nextId db) serviceTypeId month year
               usageAmount usageAmount 1])
        (N.succ (nextId db))
  end.

(** [salon] in its second month of statistics for the service type. *)
Definition salon_stats : DB :=
  with_monthlyServiceStats
    (fun _ => [MonthlyServiceStat.mk 50%N 3%N 4 2025 (of_Z 3) (of_Z 1) 3;
               MonthlyServiceStat.mk 51%N 3%N 5 2025 (of_Z 1) (of_Z 1) 1])
    salon.

(** ** Inventory summary *)

(** The enum values as the strings that key [categoryCounts]. *)
Definition ProductType_name (t : ProductType) : string :=
  match t with
  | POLISH_COLOR => "POLISH_COLOR"
  | POLISH_BASE => "POLISH_BASE"
  | POLISH_TOP => "POLISH_TOP"
  | GEL_COLOR => "GEL_COLOR"
  | GEL_BASE => "GEL_BASE"
  | GEL_TOP => "GEL_TOP"
  | GEL_REMOVER => "GEL_REMOVER"
  | NAIL_CARE => "NAIL_CARE"
  | TOOL => "TOOL"
  | CONSUMABLE => "CONSUMABLE"
  | SANITIZATION => "SANITIZATION"
  | STORE_SUPPLY => "STORE_SUPPLY"
  end%string.

(** A [Record<string, number>]: its entries in the order the keys were
    first set. *)
Definition Record_get (key : string) (o : list (string * Z)) : option Z :=
  match find (fun kv => String.eqb (fst kv) key) o with
  | Some kv => Some (snd kv)
  | None => None
  end.

Fixpoint Record_set (key : string) (v : Z) (o : list (string * Z))
  : list (string * Z) :=
  match o with
  | [] => [(key, v)]
  | (k, w) :: t =>
      if String.eqb k key then (k, v) :: t else (k, w) :: Record_set key v t
  end.

(** [x || 0] on a count read from the record. *)
Definition count_or_zero (x : option Z) : Z :=
  match x with
  | Some c => if c =? 0 then 0 else c
  | None => 0
  end.

(** The body of [products.forEach]. *)
Definition countCategory (categoryCounts : list (string * Z))
    (type : ProductType) : list (string * Z) :=
  Record_set (ProductType_name type)
    (count_or_zero (Record_get (ProductType_name type) categoryCounts) + 1)
    categoryCounts.

(** [orderBy: { lastUsed: 'desc' }]: the latest first, products never used
    last; products that compare equal keep their table order. *)
Definition lastUsed_geb (a b : option Date) : bool :=
  match a, b with
  | _, None => true
  | None, Some _ => false
  | Some x, Some y => y <=? x
  end.

Fixpoint insert_by_lastUsed (p : Product.t) (ps : list Product.t)
  : list Product.t :=
  match ps with
  | [] => [p]
  | h :: t =>
      if lastUsed_geb (Product.lastUsed p) (Product.lastUsed h)
      then p :: h :: t
      else h :: insert_by_lastUsed p t
  end.

Fixpoint orderBy_lastUsed_desc (ps : list Product.t) : list Product.t :=
  match ps with
  | [] => []
  | p :: t => insert_by_lastUsed p (orderBy_lastUsed_desc t)
  end.

Definition is_used (p : Product.t) : bool :=
  match Product.lastUsed p with
  | Some _ => true
  | None => false
  end.

Module InventorySummary.
Record t := mk {
  totalProducts : Z;
  lowStockCount : Z;
  categoryCounts : list (string * Z);
  recentlyUsed : list Product.t
}.
End InventorySummary.

Definition getInventorySummary (storeId : Id) : M InventorySummary.t :=
  totalProducts <-
    gets (fun db =>
      Z.of_nat (List.length
        (filter (fun p => N.eqb (Product.storeId p) storeId) (products db)))) ;;
  lowStockProducts <-
    gets (fun db =>
      filter (fun p => N.eqb (Product.storeId p) storeId
                       && (Product.lotQuantity p <=? Product.minStockAlert p))
        (products db)) ;;
  products' <-
    gets (fun db =>
      map Product.type
        (filter (fun p => N.eqb (Product.storeId p) storeId) (products db))) ;;
  let categoryCounts := fold_left countCategory products' [] in
  recentlyUsed <-
    gets (fun db =>
      firstn 5
        (orderBy_lastUsed_desc
           (filter (fun p => N.eqb (Product.storeId p) storeId && is_used p)
              (products db)))) ;;
  ret (InventorySummary.mk totalProducts
         (Z.of_nat (List.length lowStockProducts)) categoryCounts recentlyUsed).

(** The sum of the counts of a record. *)
Definition total_count (o : list (string * Z)) : Z :=
  fold_right (fun kv sum => snd kv + sum) 0 o.

(** How many products of a store have a type. *)
Definition productsOfType (storeId : Id) (t : ProductType) (db : DB) : Z :=
  Z.of_nat (List.length
    (filter (fun p => N.eqb (Product.storeId p) storeId
                      && String.eqb (ProductType_name (Product.type p))
                           (ProductType_name t))
       (products db))).

(** Latest first. *)
Fixpoint descending (ps : list Product.t) : Prop :=
  match ps with
  | [] => True
  | h :: t =>
      Forall (fun x => lastUsed_geb (Product.lastUsed h) (Product.lastUsed x)
                       = true) t
      /\ descending t
  end.

(** [salon] after a day of work, with the top coat filed under its own
    type: the polish was used at 300, the top coat at 250. *)
Definition salon_used : DB :=
  with_products
    (map (fun p =>
       if N.eqb (Product.id p) 10
       then Product.mk (Product.id p) (Product.brand p) (Product.productName p)
              (Product.type p) (Product.price p) (Product.capacity p)
              (Product.totalQuantity p) (Product.inUseQuantity p)
              (Product.lotQuantity p) (Product.recommendedAlertPercentage p)
              (Product.minStockAlert p) 1 (Some 300) (Product.storeId p) 300
       else if N.eqb (Product.id p) 12
       then Product.mk (Product.id p) (Product.brand p) (Product.productName p)
              POLISH_TOP (Product.price p) (Product.capacity p)
              (Product.totalQuantity p) (Product.inUseQuantity p)
              (Product.lotQuantity p) (Product.recommendedAlertPercentage p)
              (Product.minStockAlert p) 1 (Some 250) (Product.storeId p) 250
       else p))
    salon.

(** ** The service type catalogue *)

Module ServiceTypeProduct.
(** [createdAt] and [updatedAt] are read by no operation below; they are
    left out. *)
Record t := mk {
  id : Id;
  serviceTypeId : Id;
  productId : Id;
  usageAmount : number;
  isRequired : bool;
  productRole : option string;
  order : Z
}.
End ServiceTypeProduct.

(** The store together with the table that ties products to service
    types. *)
Record Catalog := mkCatalog {
  tables : DB;
  serviceTypeProducts : list ServiceTypeProduct.t
}.

(** What the catalogue throws: the errors of the store, the messages of its
    own, and the database's refusal of a second row for a pair that
    [@@unique] covers. *)
Inductive CatalogError :=
| Missing (e : Error)
| NameTaken (name : string)
| SourceNotFound (sourceId : Id)
| NotAssociated (productId serviceTypeId : Id)
| UniqueConstraintFailed.

Inductive Reply (A : Type) :=
| Returns (a : A) (c : Catalog)
| Throws (e : CatalogError) (c : Catalog).

Arguments Returns {A} a c.
Arguments Throws {A} e c.

Module K.

Definition t (A : Type) : Type := Catalog -> Reply A.

Definition ret {A} (a : A) : t A := fun c => Returns a c.

Definition bind {A B} (m : t A) (k : A -> t B) : t B :=
  fun c =>
    match m c with
    | Returns a c' => k a c'
    | Throws e c' => Throws e c'
    end.

Definition throw {A} (e : CatalogError) : t A := fun c => Throws e c.

Definition gets {A} (f : Catalog -> A) : t A := fun c => Returns (f c) c.

Definition modify (f : Catalog -> Catalog) : t unit :=
  fun c => Returns tt (f c).

(** A computation on the store, run on the store of the catalogue. *)
Definition lift {A} (m : M A) : t A :=
  fun c =>
    match m (tables c) with
    | Ok a db => Returns a (mkCatalog db (serviceTypeProducts c))
    | Throw e db => Throws (Missing e) (mkCatalog db (serviceTypeProducts c))
    end.

Definition transaction {A} (body : t A) : t A :=
  fun c =>
    match body c with
    | Returns a c' => Returns a c'
    | Throws e _ => Throws e c
    end.

End K.

Declare Scope cat_scope.
Delimit Scope cat_scope with cat.
Notation "x <- m ;; k" := (K.bind m (fun x => k))
  (at level 61, m at next level, right associativity) : cat_scope.
Notation "m ;;; k" := (K.bind m (fun _ => k))
  (at level 61, right associativity) : cat_scope.

Fixpoint forEachK {A} (xs : list A) (body : A -> K.t unit) : K.t unit :=
  match xs with
  | [] => K.ret tt
  | x :: xs' => (body x ;;; forEachK xs' body)%cat
  end.

(** *** Tables of the catalogue *)

Definition with_serviceTypes
    (f : list ServiceType.t -> list ServiceType.t) (db : DB) : DB :=
  mkDB (stores db) (users db) (products db) (productLots db)
    (f (serviceTypes db)) (usages db) (relatedProductUsages db)
    (activities db) (monthlyServiceStats db) (nextId db).

Definition with_tables (f : DB -> DB) (c : Catalog) : Catalog :=
  mkCatalog (f (tables c)) (serviceTypeProducts c).

Definition with_serviceTypeProducts
    (f : list ServiceTypeProduct.t -> list ServiceTypeProduct.t)
    (c : Catalog) : Catalog :=
  mkCatalog (tables c) (f (serviceTypeProducts c)).

Definition same_name (name : string) (storeId : Id) (s : ServiceType.t)
  : bool :=
  String.eqb (ServiceType.name s) name && N.eqb (ServiceType.storeId s) storeId.

Definition same_pair (serviceTypeId productId : Id)
    (r : ServiceTypeProduct.t) : bool :=
  N.eqb (ServiceTypeProduct.serviceTypeId r) serviceTypeId
  && N.eqb (ServiceTypeProduct.productId r) productId.

(** [serviceType.findFirst({ where: { name, storeId } })] *)
Definition serviceType_findFirst (name : string) (storeId : Id)
  : K.t (option ServiceType.t) :=
  K.gets (fun c => find (same_name name storeId) (serviceTypes (tables c))).

(** [serviceTypeProduct.findFirst({ where: { serviceTypeId, productId } })] *)
Definition serviceTypeProduct_findFirst (serviceTypeId productId : Id)
  : K.t (option ServiceTypeProduct.t) :=
  K.gets (fun c =>
    find (same_pair serviceTypeId productId) (serviceTypeProducts c)).

(** [serviceType.create]; [@@unique([name, storeId])] refuses a second row
    of a name in a store. *)
Definition serviceType_create (row : Id -> ServiceType.t)
  : K.t ServiceType.t :=
  (id <- K.lift fresh ;;
   let r := row id in
   clash <- serviceType_findFirst (ServiceType.name r) (ServiceType.storeId r) ;;
   match clash with
   | Some _ => K.throw UniqueConstraintFailed
   | None =>
       K.modify (with_tables (with_serviceTypes (fun rows => rows ++ [r]))) ;;;
       K.ret r
   end)%cat.

(** [serviceTypeProduct.create]; [@@unique([serviceTypeId, productId])]
    refuses a second row of a pair. *)
Definition serviceTypeProduct_create (serviceTypeId productId : Id)
    (usageAmount : number) (isRequired : bool) (productRole : option string)
    (order : Z) : K.t ServiceTypeProduct.t :=
  (clash <- serviceTypeProduct_findFirst serviceTypeId productId ;;
   match clash with
   | Some _ => K.throw UniqueConstraintFailed
   | None =>
       id <- K.lift fresh ;;
       let r := ServiceTypeProduct.mk id serviceTypeId productId usageAmount
                  isRequired productRole order in
       K.modify (with_serviceTypeProducts (fun rows => rows ++ [r])) ;;;
       K.ret r
   end)%cat.

(** The [data] of the update in [upsertServiceTypeProduct]; a [productRole]
    that is [undefined] leaves the column as it is. *)
Definition set_association (usageAmount : number) (isRequired : bool)
    (productRole : option string) (order : Z) (r : ServiceTypeProduct.t)
  : ServiceTypeProduct.t :=
  ServiceTypeProduct.mk (ServiceTypeProduct.id r)
    (ServiceTypeProduct.serviceTypeId r) (ServiceTypeProduct.productId r)
    usageAmount isRequired
    match productRole with
    | Some role => Some role
    | None => ServiceTypeProduct.productRole r
    end
    order.

(** *** createServiceType *)

Module ProductEntry.
Record t := mk {
  productId : Id;
  usageAmount : number;
  isRequired : option bool;
  productRole : option string;
  order : option Z
}.
End ProductEntry.

Module CreateServiceTypeParams.
Record t := mk {
  name : string;
  defaultUsageAmount : option number;
  productType : ProductType;
  isGelService : option bool;
  requiresBase : option bool;
  requiresTop : option bool;
  shortLengthRate : option Z;
  mediumLengthRate : option Z;
  longLengthRate : option Z;
  allowCustomAmount : option bool;
  designVariant : option string;
  designUsageRate : option number;
  storeId : Id;
  products : option (list ProductEntry.t)
}.
End CreateServiceTypeParams.

(** The row of the new service type, with the defaults of the
    destructuring. *)
Definition newServiceType (params : CreateServiceTypeParams.t) (id : Id)
  : ServiceType.t :=
  ServiceType.mk id (CreateServiceTypeParams.name params)
    (or_default (decimal 5 1) (CreateServiceTypeParams.defaultUsageAmount params))
    (CreateServiceTypeParams.productType params)
    (or_default false (CreateServiceTypeParams.isGelService params))
    (or_default false (CreateServiceTypeParams.requiresBase params))
    (or_default false (CreateServiceTypeParams.requiresTop params))
    (or_default 80 (CreateServiceTypeParams.shortLengthRate params))
    (or_default 100 (CreateServiceTypeParams.mediumLengthRate params))
    (or_default 130 (CreateServiceTypeParams.longLengthRate params))
    (or_default false (CreateServiceTypeParams.allowCustomAmount params))
    (CreateServiceTypeParams.designVariant params)
    (CreateServiceTypeParams.designUsageRate params)
    (CreateServiceTypeParams.storeId params).

Definition createServiceType (params : CreateServiceTypeParams.t)
  : K.t ServiceType.t :=
  let name := CreateServiceTypeParams.name params in
  let storeId := CreateServiceTypeParams.storeId params in
  let products' := or_default [] (CreateServiceTypeParams.products params) in
  (store <- K.lift (store_findUnique storeId) ;;
   match store with
   | None => K.throw (Missing (StoreNotFound storeId))
   | Some _ =>
       existingServiceType <- serviceType_findFirst name storeId ;;
       match existingServiceType with
       | Some _ => K.throw (NameTaken name)
       | None =>
           K.transaction
             (serviceType <- serviceType_create (newServiceType params) ;;
              (if (0 <? Z.of_nat (List.length products'))%Z
               then
                 forEachK products' (fun product =>
                   serviceTypeProduct_create (ServiceType.id serviceType)
                     (ProductEntry.productId product)
                     (ProductEntry.usageAmount product)
                     (or_default true (ProductEntry.isRequired product))
                     (ProductEntry.productRole product)
                     (or_default 0 (ProductEntry.order product)) ;;;
                   K.ret tt)
               else K.ret tt) ;;;
              K.ret serviceType)
       end
   end)%cat.

(** *** upsertServiceTypeProduct and removeProductFromServiceType *)

Module UpsertServiceTypeProductParams.
Record t := mk {
  serviceTypeId : Id;
  productId : Id;
  usageAmount : number;
  isRequired : option bool;
  productRole : option string;
  order : option Z
}.
End UpsertServiceTypeProductParams.

Definition upsertServiceTypeProduct (params : UpsertServiceTypeProductParams.t)
  : K.t ServiceTypeProduct.t :=
  let serviceTypeId := UpsertServiceTypeProductParams.serviceTypeId params in
  let productId := UpsertServiceTypeProductParams.productId params in
  let usageAmount := UpsertServiceTypeProductParams.usageAmount params in
  let isRequired :=
    or_default true (UpsertServiceTypeProductParams.isRequired params) in
  let productRole := UpsertServiceTypeProductParams.productRole params in
  let order := or_default 0 (UpsertServiceTypeProductParams.order params) in
  (serviceType <- K.lift (serviceType_findUnique serviceTypeId) ;;
   match serviceType with
   | None => K.throw (Missing (ServiceTypeNotFound serviceTypeId))
   | Some _ =>
       product <- K.lift (product_findUnique productId) ;;
       match product with
       | None => K.throw (Missing (ProductNotFound productId))
       | Some _ =>
           existingRelation <-
             serviceTypeProduct_findFirst serviceTypeId productId ;;
           match existingRelation with
           | Some existingRelation =>
               K.modify (with_serviceTypeProducts
                 (update_where ServiceTypeProduct.id
                    (ServiceTypeProduct.id existingRelation)
                    (set_association usageAmount isRequired productRole
                       order))) ;;;
               K.ret (set_association usageAmount isRequired productRole
                        order existingRelation)
           | None =>
               serviceTypeProduct_create serviceTypeId productId usageAmount
                 isRequired productRole order
           end
       end
   end)%cat.

Definition removeProductFromServiceType (serviceTypeId productId : Id)
  : K.t unit :=
  (existingRelation <- serviceTypeProduct_findFirst serviceTypeId productId ;;
   match existingRelation with
   | None => K.throw (NotAssociated productId serviceTypeId)
   | Some existingRelation =>
       K.modify (with_serviceTypeProducts
         (filter (fun r =>
            negb (N.eqb (ServiceTypeProduct.id r)
                    (ServiceTypeProduct.id existingRelation)))))
   end)%cat.

(** *** copyServiceType *)

Module CopyServiceTypeParams.
Record t := mk {
  sourceId : Id;
  newName : string;
  designVariant : option string;
  designUsageRate : option number
}.
End CopyServiceTypeParams.

(** [a || b] on an optional string and on an optional number: the empty
    string, zero and NaN give way to [b], as [undefined] does. *)
Definition string_or (a b : option string) : option string :=
  match a with
  | Some EmptyString | None => b
  | Some s => Some s
  end.

Definition number_or (a b : option number) : option number :=
  match a with
  | Some v => if truthy v then Some v else b
  | None => b
  end.

(** [serviceType.findUnique] with [include: { serviceTypeProducts: true }] *)
Definition serviceType_findUnique_products (id : Id)
  : K.t (option (ServiceType.t * list ServiceTypeProduct.t)) :=
  K.gets (fun c =>
    match find_by_id ServiceType.id id (serviceTypes (tables c)) with
    | Some s =>
        Some (s, filter (fun r => N.eqb (ServiceTypeProduct.serviceTypeId r)
                                    (ServiceType.id s))
                   (serviceTypeProducts c))
    | None => None
    end).

Definition copiedServiceType (params : CopyServiceTypeParams.t)
    (source : ServiceType.t) (id : Id) : ServiceType.t :=
  ServiceType.mk id (CopyServiceTypeParams.newName params)
    (ServiceType.defaultUsageAmount source)
    (ServiceType.productType source)
    (ServiceType.isGelService source)
    (ServiceType.requiresBase source)
    (ServiceType.requiresTop source)
    (ServiceType.shortLengthRate source)
    (ServiceType.mediumLengthRate source)
    (ServiceType.longLengthRate source)
    (ServiceType.allowCustomAmount source)
    (string_or (CopyServiceTypeParams.designVariant params)
       (ServiceType.designVariant source))
    (number_or (CopyServiceTypeParams.designUsageRate params)
       (ServiceType.designUsageRate source))
    (ServiceType.storeId source).

Definition copyServiceType (params : CopyServiceTypeParams.t)
  : K.t ServiceType.t :=
  let sourceId := CopyServiceTypeParams.sourceId params in
  let newName := CopyServiceTypeParams.newName params in
  (source <- serviceType_findUnique_products sourceId ;;
   match source with
   | None => K.throw (SourceNotFound sourceId)
   | Some (sourceServiceType, sourceProducts) =>
       existingServiceType <-
         serviceType_findFirst newName (ServiceType.storeId sourceServiceType) ;;
       match existingServiceType with
       | Some _ => K.throw (NameTaken newName)
       | None =>
           K.transaction
             (newServiceType <-
                serviceType_create (copiedServiceType params sourceServiceType) ;;
              forEachK sourceProducts (fun product =>
                serviceTypeProduct_create (ServiceType.id newServiceType)
                  (ServiceTypeProduct.productId product)
                  (ServiceTypeProduct.usageAmount product)
                  (ServiceTypeProduct.isRequired product)
                  (ServiceTypeProduct.productRole product)
                  (ServiceTypeProduct.order product) ;;;
                K.ret tt) ;;;
              K.ret newServiceType)
       end
   end)%cat.

(** *** Vocabulary of the catalogue statements *)

(** The rows that tie products to a service type, in table order, and the
    row of a pair. *)
Definition associationsOf (serviceTypeId : Id) (c : Catalog)
  : list ServiceTypeProduct.t :=
  filter (fun r => N.eqb (ServiceTypeProduct.serviceTypeId r) serviceTypeId)
    (serviceTypeProducts c).

Definition association (serviceTypeId productId : Id) (c : Catalog)
  : option ServiceTypeProduct.t :=
  find (same_pair serviceTypeId productId) (serviceTypeProducts c).

(** What an association says, apart from its id and its service type. *)
Definition content (r : ServiceTypeProduct.t)
  : Id * number * bool * option string * Z :=
  (ServiceTypeProduct.productId r, ServiceTypeProduct.usageAmount r,
   ServiceTypeProduct.isRequired r, ServiceTypeProduct.productRole r,
   ServiceTypeProduct.order r).

(** Rows with consecutive ids for a service type, one per content. *)
Fixpoint rowsFrom (serviceTypeId next : Id)
    (cs : list (Id * number * bool * option string * Z))
  : list ServiceTypeProduct.t :=
  match cs with
  | [] => []
  | (productId, usageAmount, isRequired, productRole, order) :: t =>
      ServiceTypeProduct.mk next serviceTypeId productId usageAmount
        isRequired productRole order
      :: rowsFrom serviceTypeId (N.succ next) t
  end.

(** The rows [createServiceType] adds for the entries of [products]. *)
Definition entry_content (e : ProductEntry.t)
  : Id * number * bool * option string * Z :=
  (ProductEntry.productId e, ProductEntry.usageAmount e,
   or_default true (ProductEntry.isRequired e), ProductEntry.productRole e,
   or_default 0 (ProductEntry.order e)).

Definition entryRows (serviceTypeId next : Id) (entries : list ProductEntry.t)
  : list ServiceTypeProduct.t :=
  rowsFrom serviceTypeId next (map entry_content entries).

(** The rows [copyServiceType] adds for the associations of the source. *)
Definition copiedRows (serviceTypeId next : Id)
    (rows : list ServiceTypeProduct.t) : list ServiceTypeProduct.t :=
  rowsFrom serviceTypeId next (map content rows).

(** The catalogue after a service type [s] and [rows] for it were added,
    the store having issued [s]'s id and one id per row. *)
Definition grown (s : ServiceType.t) (rows : list ServiceTypeProduct.t)
    (c : Catalog) : Catalog :=
  let db := tables c in
  mkCatalog
    (mkDB (stores db) (users db) (products db) (productLots db)
       (serviceTypes db ++ [s]) (usages db) (relatedProductUsages db)
       (activities db) (monthlyServiceStats db)
       (N.succ (nextId db) + N.of_nat (List.length rows))%N)
    (serviceTypeProducts c ++ rows).

(** The catalogue a reply leaves. *)
Definition left_by {A} (r : Reply A) : Catalog :=
  match r with
  | Returns _ c => c
  | Throws _ c => c
  end.

(** Keys of the catalogue: ids unique and issued by the store, one service
    type per name and store, one association per service type and
    product. *)
Definition serviceType_key (s : ServiceType.t) : string * Id :=
  (ServiceType.name s, ServiceType.storeId s).

Definition pair_key (r : ServiceTypeProduct.t) : Id * Id :=
  (ServiceTypeProduct.serviceTypeId r, ServiceTypeProduct.productId r).

Definition associations_issued (c : Catalog) : Prop :=
  Forall (fun r =>
            (ServiceTypeProduct.id r < nextId (tables c))%N
            /\ (ServiceTypeProduct.serviceTypeId r < nextId (tables c))%N)
    (serviceTypeProducts c).

Definition serviceTypes_issued (c : Catalog) : Prop :=
  Forall (fun s => (ServiceType.id s < nextId (tables c))%N)
    (serviceTypes (tables c)).

Definition catalog_keyed (c : Catalog) : Prop :=
  NoDup (map serviceType_key (serviceTypes (tables c)))
  /\ NoDup (map pair_key (serviceTypeProducts c))
  /\ NoDup (map ServiceTypeProduct.id (serviceTypeProducts c))
  /\ associations_issued c
  /\ serviceTypes_issued c.

(** The salon's catalogue: the manicure takes the polish and the base
    coat. *)
Definition atelier : Catalog :=
  mkCatalog salon
    [ServiceTypeProduct.mk 30%N 3%N 10%N (decimal 5 1) true (Some "COLOR"%string) 1;
     ServiceTypeProduct.mk 31%N 3%N 11%N (decimal 3 1) false (Some "BASE"%string) 0].

Definition ex_entry (productId : Id) : ProductEntry.t :=
  ProductEntry.mk productId (decimal 5 1) None None None.

Definition ex_newServiceType (name : string)
    (entries : list ProductEntry.t) : CreateServiceTypeParams.t :=
  CreateServiceTypeParams.mk name None GEL_COLOR (Some true) None None None
    None None None None None 1%N (Some entries).

Definition ex_upsert (productId : Id) (role : option string)
  : UpsertServiceTypeProductParams.t :=
  UpsertServiceTypeProductParams.mk 3%N productId (decimal 4 1) None role None.

Definition ex_copy (newName : string) (designUsageRate : option number)
  : CopyServiceTypeParams.t :=
  CopyServiceTypeParams.mk 3%N newName (Some "FRENCH"%string) designUsageRate.

(** * Properties *)

(** ** Lists, lookups and the lot order *)

Lemma find_by_id_key {A} (key : A -> Id) id rows r :
  find_by_id key id rows = Some r -> key r = id.
Proof.
  unfold find_by_id. intros H. apply find_some in H.
  now apply N.eqb_eq.
Qed.

Lemma find_by_id_In {A} (key : A -> Id) id rows r :
  find_by_id key id rows = Some r -> In r rows.
Proof.
  unfold find_by_id. intros H. now apply find_some in H.
Qed.

Lemma startedAt_leb_refl a : startedAt_leb a a = true.
Proof. destruct a; simpl; [apply Z.leb_refl | reflexivity]. Qed.

Lemma startedAt_leb_trans a b c :
  startedAt_leb a b = true -> startedAt_leb b c = true ->
  startedAt_leb a c = true.
Proof.
  destruct a, b, c; simpl; try congruence; rewrite !Z.leb_le; lia.
Qed.

Lemma startedAt_leb_total a b :
  startedAt_leb a b = false -> startedAt_leb b a = true.
Proof.
  destruct a, b; simpl; try congruence.
  rewrite Z.leb_gt, Z.leb_le. lia.
Qed.

Lemma insert_by_startedAt_In x l ls :
  In x (insert_by_startedAt l ls) <-> x = l \/ In x ls.
Proof.
  induction ls as [|h t IH]; simpl.
  - intuition congruence.
  - destruct (startedAt_leb _ _); simpl; [intuition congruence|].
    rewrite IH. intuition congruence.
Qed.

Lemma orderBy_startedAt_In x ls : In x (orderBy_startedAt ls) <-> In x ls.
Proof.
  induction ls as [|l t IH]; simpl; [tauto|].
  rewrite insert_by_startedAt_In, IH. intuition congruence.
Qed.

Lemma insert_by_startedAt_head_first l ls :
  head_first ls -> head_first (insert_by_startedAt l ls).
Proof.
  destruct ls as [|h t]; simpl; intros H.
  - constructor; [apply startedAt_leb_refl | constructor].
  - destruct (startedAt_leb (ProductLot.startedAt l) (ProductLot.startedAt h))
      eqn:E; simpl.
    + constructor; [apply startedAt_leb_refl|].
      eapply Forall_impl; [|exact H]. simpl. intros x Hx.
      eapply startedAt_leb_trans; eauto.
    + apply startedAt_leb_total in E.
      rewrite Forall_forall in *. intros x Hx.
      destruct Hx as [<-|Hx]; [apply startedAt_leb_refl|].
      apply insert_by_startedAt_In in Hx. destruct Hx as [->|Hx]; [exact E|].
      apply H. now right.
Qed.

Lemma orderBy_startedAt_head_first ls : head_first (orderBy_startedAt ls).
Proof.
  induction ls as [|l t IH]; simpl; [exact I|].
  now apply insert_by_startedAt_head_first.
Qed.

Lemma inUseLots_In pid lots l :
  In l (inUseLots pid lots) <->
  In l lots /\ ProductLot.productId l = pid /\ ProductLot.isInUse l = true.
Proof.
  unfold inUseLots. rewrite orderBy_startedAt_In, filter_In, andb_true_iff,
    N.eqb_eq. tauto.
Qed.

Lemma oldestInUse_spec pid lots l :
  oldestInUse pid lots = Some l ->
  In l lots /\ ProductLot.productId l = pid /\ ProductLot.isInUse l = true
  /\ forall x, In x lots -> ProductLot.productId x = pid ->
       ProductLot.isInUse x = true ->
       startedAt_leb (ProductLot.startedAt l) (ProductLot.startedAt x) = true.
Proof.
  unfold oldestInUse. intros H.
  destruct (inUseLots pid lots) as [|h t] eqn:E; simpl in H; [discriminate|].
  injection H as ->.
  assert (Hin : In l (inUseLots pid lots)) by (rewrite E; now left).
  apply inUseLots_In in Hin. destruct Hin as (H1 & H2 & H3).
  repeat split; auto. intros x Hx Hp Hu.
  assert (Hx' : In x (inUseLots pid lots)) by (apply inUseLots_In; auto).
  pose proof (orderBy_startedAt_head_first
    (filter (fun l => N.eqb (ProductLot.productId l) pid
                      && ProductLot.isInUse l) lots)) as Hh.
  fold (inUseLots pid lots) in Hh. rewrite E in Hh, Hx'. simpl in Hh.
  rewrite Forall_forall in Hh. now apply Hh.
Qed.

(** A rewrite of the lots that keeps every lot's shape commutes with the
    query for a product's open lots. *)
Section ShapeKeeping.

Variable h : ProductLot.t -> ProductLot.t.
Hypothesis h_shape : forall l, same_shape l (h l).

Lemma insert_by_startedAt_map l ls :
  insert_by_startedAt (h l) (map h ls) = map h (insert_by_startedAt l ls).
Proof.
  induction ls as [|x t IH]; simpl; [reflexivity|].
  destruct (h_shape l) as (_ & _ & _ & ->).
  destruct (h_shape x) as (_ & _ & _ & ->).
  destruct (startedAt_leb _ _); simpl; [reflexivity|].
  now rewrite IH.
Qed.

Lemma orderBy_startedAt_map ls :
  orderBy_startedAt (map h ls) = map h (orderBy_startedAt ls).
Proof.
  induction ls as [|x t IH]; simpl; [reflexivity|].
  now rewrite IH, insert_by_startedAt_map.
Qed.

Lemma inUseLots_map pid ls :
  inUseLots pid (map h ls) = map h (inUseLots pid ls).
Proof.
  unfold inUseLots. rewrite <- orderBy_startedAt_map. f_equal.
  induction ls as [|x t IH]; simpl; [reflexivity|].
  destruct (h_shape x) as (_ & -> & -> & _).
  destruct (_ && _); simpl; now rewrite IH.
Qed.

Lemma oldestInUse_map pid ls :
  oldestInUse pid (map h ls) = option_map h (oldestInUse pid ls).
Proof.
  unfold oldestInUse. rewrite inUseLots_map.
  now destruct (inUseLots pid ls).
Qed.

End ShapeKeeping.

Lemma same_shape_refl l : same_shape l l.
Proof. now repeat split. Qed.

Lemma same_shape_trans a b c :
  same_shape a b -> same_shape b c -> same_shape a c.
Proof.
  unfold same_shape. intros (? & ? & ? & ?) (? & ? & ? & ?).
  repeat split; congruence.
Qed.

Lemma decrement_currentAmount_shape n now l :
  same_shape l (decrement_currentAmount n now l).
Proof. now repeat split. Qed.

Lemma draw_shape now d l : same_shape l (draw now d l).
Proof.
  unfold draw. destruct (N.eqb _ _);
    [apply decrement_currentAmount_shape | apply same_shape_refl].
Qed.

Lemma apply_draws_shape now ds l : same_shape l (apply_draws now ds l).
Proof.
  unfold apply_draws. revert l.
  induction ds as [|d t IH]; intros l; simpl; [apply same_shape_refl|].
  eapply same_shape_trans; [apply (draw_shape now d) | apply IH].
Qed.

Lemma apply_draws_untouched now ds l :
  ~ In (ProductLot.id l) (map fst ds) -> apply_draws now ds l = l.
Proof.
  unfold apply_draws. revert l.
  induction ds as [|d t IH]; intros l Hn; simpl; [reflexivity|].
  simpl in Hn. unfold draw at 2.
  destruct (N.eqb (ProductLot.id l) (fst d)) eqn:E.
  - apply N.eqb_eq in E. exfalso. apply Hn. now left.
  - apply IH. tauto.
Qed.

Lemma update_where_draw now k n ls :
  update_where ProductLot.id k (decrement_currentAmount n now) ls
  = map (draw now (k, n)) ls.
Proof. reflexivity. Qed.

(** ** The usage transaction, step by step *)

Ltac unfold_db :=
  unfold product_findUnique_inUseLots, product_findUnique,
    serviceType_findUnique, user_findUnique, store_findUnique,
    relatedProductUsage_create, usage_create, productLot_create,
    product_create, activity_create, productLot_update, product_update,
    monthlyServiceStat_findUnique, monthlyServiceStat_create,
    fresh, modify, gets, throw, ret, bind,
    with_products, with_productLots, with_usages, with_relatedProductUsages,
    with_activities, with_monthlyServiceStats in *;
  simpl in *.

Lemma recordRelated_Ok uid now r db u db1 :
  recordRelated uid now r db = Ok u db1 ->
  exists p lot,
    find_by_id Product.id (RelatedEntry.productId r) (products db) = Some p
    /\ oldestInUse (RelatedEntry.productId r) (productLots db) = Some lot
    /\ db1 = mkDB (stores db) (users db) (products db)
               (map (draw now (ProductLot.id lot, RelatedEntry.amount r))
                  (productLots db))
               (serviceTypes db) (usages db)
               (relatedProductUsages db
                ++ relatedRows uid (nextId db) [(r, ProductLot.id lot)])
               (activities db) (monthlyServiceStats db) (N.succ (nextId db)).
Proof.
  unfold recordRelated, oldestInUse. unfold_db.
  destruct (find_by_id Product.id (RelatedEntry.productId r) (products db))
    as [p|] eqn:Hp; [|discriminate].
  rewrite (find_by_id_key _ _ _ _ Hp).
  destruct (inUseLots (RelatedEntry.productId r) (productLots db))
    as [|lot rest] eqn:Hl; [discriminate|].
  intros H. injection H as _ <-.
  exists p, lot. repeat split.
Qed.

Lemma forEach_recordRelated_Ok uid now rels : forall db u db',
  forEach rels (recordRelated uid now) db = Ok u db' ->
  exists ks,
    Forall2 (served db) rels ks
    /\ db' = mkDB (stores db) (users db) (products db)
               (map (apply_draws now (combine ks (map RelatedEntry.amount rels)))
                  (productLots db))
               (serviceTypes db) (usages db)
               (relatedProductUsages db
                ++ relatedRows uid (nextId db) (combine rels ks))
               (activities db) (monthlyServiceStats db)
               (nextId db + N.of_nat (List.length rels))%N.
Proof.
  induction rels as [|r t IH]; intros db u db' H.
  - simpl in H. injection H as _ <-. exists []. split; [constructor|].
    destruct db; simpl. rewrite map_id, app_nil_r, N.add_0_r. reflexivity.
  - simpl in H. unfold bind at 1 in H.
    destruct (recordRelated uid now r db) as [u1 db1|] eqn:H1; [|discriminate].
    apply recordRelated_Ok in H1. destruct H1 as (p & lot & Hp & Hl & ->).
    apply IH in H. destruct H as (ks & Hks & ->). simpl in *.
    exists (ProductLot.id lot :: ks). split.
    + constructor; [split; eauto|].
      eapply Forall2_impl; [|exact Hks]. intros r' k' [Hp' (lot' & Hl' & Hk')].
      split; [exact Hp'|]. simpl in Hl'.
      rewrite (oldestInUse_map _ (draw_shape now _)) in Hl'.
      destruct (oldestInUse (RelatedEntry.productId r') (productLots db))
        as [lot0|]; [|discriminate].
      simpl in Hl'. injection Hl' as <-.
      exists lot0. split; [reflexivity|].
      destruct (draw_shape now (ProductLot.id lot, RelatedEntry.amount r) lot0)
        as (E & _). congruence.
    + f_equal.
      * rewrite map_map. reflexivity.
      * rewrite <- app_assoc. reflexivity.
      * change (N.pos (Pos.of_succ_nat (List.length t)))
          with (N.of_nat (S (List.length t))).
        rewrite Nat2N.inj_succ. lia.
Qed.

Lemma served_before_draw now db db1 d r k :
  products db1 = products db ->
  productLots db1 = map (draw now d) (productLots db) ->
  served db1 r k -> served db r k.
Proof.
  unfold served. intros -> -> [Hp (lot1 & Hl & Hk)]. split; [exact Hp|].
  rewrite (oldestInUse_map _ (draw_shape now d)) in Hl.
  destruct (oldestInUse (RelatedEntry.productId r) (productLots db))
    as [lot|]; [|discriminate].
  simpl in Hl. injection Hl as <-. exists lot. split; [reflexivity|].
  destruct (draw_shape now d lot) as (E & _). congruence.
Qed.

Lemma recordUsageTx_Ok params now serviceType usedLot db usage db' :
  recordUsageTx params now serviceType usedLot db = Ok usage db' ->
  exists ks,
    Forall2 (served db)
      (or_default [] (RecordProductUsageParams.relatedProducts params)) ks
    /\ usage = usageRow params now serviceType usedLot (nextId db)
    /\ db' = afterUsage params now serviceType usedLot ks db.
Proof.
  unfold recordUsageTx. unfold_db.
  match goal with
  | |- context [forEach ?rels ?body ?d] =>
      destruct (forEach rels body d) as [u db3|] eqn:Hloop; [|discriminate]
  end.
  apply forEach_recordRelated_Ok in Hloop. destruct Hloop as (ks & Hks & ->).
  simpl. intros H. injection H as <- <-.
  exists ks. split; [|split; [reflexivity|]].
  - eapply Forall2_impl; [|exact Hks]. intros r k.
    apply served_before_draw with (now := now)
      (d := (ProductLot.id usedLot, RecordProductUsageParams.usageAmount params));
      reflexivity.
  - unfold afterUsage. rewrite update_where_draw, map_map. reflexivity.
Qed.

Lemma recordProductUsage_Ok params now db usage db' :
  recordProductUsage params now db = Ok usage db' ->
  exists product usedLot serviceType,
    find_by_id Product.id (RecordProductUsageParams.productId params)
      (products db) = Some product
    /\ oldestInUse (RecordProductUsageParams.productId params)
         (productLots db) = Some usedLot
    /\ find_by_id ServiceType.id (RecordProductUsageParams.serviceTypeId params)
         (serviceTypes db) = Some serviceType
    /\ notEnough usedLot (RecordProductUsageParams.usageAmount params) = None
    /\ recordUsageTx params now serviceType usedLot db = Ok usage db'.
Proof.
  unfold recordProductUsage, oldestInUse. unfold_db.
  destruct (find_by_id Product.id _ (products db)) as [p|] eqn:Hp;
    [|discriminate].
  rewrite (find_by_id_key _ _ _ _ Hp).
  destruct (inUseLots _ (productLots db)) as [|usedLot rest] eqn:Hl;
    [discriminate|].
  destruct (find_by_id ServiceType.id _ (serviceTypes db)) as [st|] eqn:Hs;
    [|discriminate].
  destruct (find (N.eqb _) (users db)); [|discriminate].
  destruct (notEnough usedLot _) eqn:Hn; [discriminate|].
  unfold transaction.
  destruct (recordUsageTx params now st usedLot db) eqn:Htx; [|discriminate].
  intros H. injection H as <- <-.
  exists p, usedLot, st. repeat split; auto.
Qed.

(** Whatever makes the call throw, the store is the one it started from. *)
Lemma recordProductUsage_Throw params now db e db' :
  recordProductUsage params now db = Throw e db' -> db' = db.
Proof.
  unfold recordProductUsage. unfold_db.
  destruct (find_by_id Product.id _ (products db)) as [p|];
    [|intros H; now injection H].
  destruct (inUseLots _ (productLots db)) as [|usedLot rest];
    [intros H; now injection H|].
  destruct (find_by_id ServiceType.id _ (serviceTypes db)) as [st|];
    [|intros H; now injection H].
  destruct (find (N.eqb _) (users db)); [|intros H; now injection H].
  destruct (notEnough usedLot _); [intros H; now injection H|].
  unfold transaction.
  destruct (recordUsageTx params now st usedLot db); [discriminate|].
  intros H. now injection H.
Qed.

(** ** Which lots a successful usage draws from *)

Lemma Forall2_In_l {A B} (R : A -> B -> Prop) xs ys x :
  Forall2 R xs ys -> In x xs -> exists y, In y ys /\ R x y.
Proof.
  induction 1 as [|a b xs ys Hab _ IH]; simpl; [tauto|].
  intros [->|Hx]; [exists b; auto|].
  destruct (IH Hx) as (y & Hy & HR). exists y. auto.
Qed.

Lemma Forall2_In_r {A B} (R : A -> B -> Prop) xs ys y :
  Forall2 R xs ys -> In y ys -> exists x, In x xs /\ R x y.
Proof.
  induction 1 as [|a b xs ys Hab _ IH]; simpl; [tauto|].
  intros [->|Hy]; [exists a; auto|].
  destruct (IH Hy) as (x & Hx & HR). exists x. auto.
Qed.

Lemma Forall2_map_self {A} (R : A -> A -> Prop) (f : A -> A) xs :
  (forall x, In x xs -> R x (f x)) -> Forall2 R xs (map f xs).
Proof.
  induction xs as [|x t IH]; simpl; intros H; constructor; auto.
Qed.

Lemma NoDup_map_In_eq {A B} (f : A -> B) xs a b :
  NoDup (map f xs) -> In a xs -> In b xs -> f a = f b -> a = b.
Proof.
  induction xs as [|x t IH]; simpl; [tauto|].
  intros Hnd Ha Hb E. inversion Hnd as [|? ? Hx Ht]; subst.
  destruct Ha as [->|Ha], Hb as [->|Hb]; auto.
  - exfalso. apply Hx. rewrite E. now apply in_map.
  - exfalso. apply Hx. rewrite <- E. now apply in_map.
Qed.

Lemma served_lot_ids (R : RelatedEntry.t -> Id -> Prop) rels ks :
  Forall2 R rels ks ->
  map fst (combine ks (map RelatedEntry.amount rels)) = ks.
Proof. induction 1; simpl; congruence. Qed.

Lemma relatedRows_usedLotId (R : RelatedEntry.t -> Id -> Prop) uid rels ks :
  Forall2 R rels ks -> forall next,
  map RelatedProductUsage.usedLotId (relatedRows uid next (combine rels ks))
  = map Some ks.
Proof. induction 1; intros next; simpl; [reflexivity|]. now rewrite IHForall2. Qed.

(** With unique lot ids, a lot that serves an entry of the primary product
    is the primary lot itself, and a lot that serves another product is not
    a lot of the primary product. *)
Lemma served_lot_of_primary db pid usedLot r k l :
  unique_lot_ids db ->
  oldestInUse pid (productLots db) = Some usedLot ->
  served db r k ->
  In l (productLots db) -> ProductLot.id l = k ->
  ProductLot.productId l = pid ->
  RelatedEntry.productId r = pid /\ l = usedLot.
Proof.
  intros Hnd Hu [_ (lot & Hl & Hk)] Hin Hid Hp.
  destruct (oldestInUse_spec _ _ _ Hl) as (Hlin & Hlp & _).
  assert (lot = l)
    by (eapply NoDup_map_In_eq; [exact Hnd| | |]; auto; congruence).
  subst lot. assert (E : RelatedEntry.productId r = pid) by congruence.
  split; [exact E|]. rewrite E in Hl. congruence.
Qed.

Lemma draws_spare_other_lots now db pid usedLot rels ks ds l :
  unique_lot_ids db ->
  oldestInUse pid (productLots db) = Some usedLot ->
  Forall2 (served db) rels ks ->
  incl (map fst ds) (ProductLot.id usedLot :: ks) ->
  In l (productLots db) ->
  ProductLot.productId l = pid ->
  ProductLot.id l <> ProductLot.id usedLot ->
  apply_draws now ds l = l.
Proof.
  intros Hnd Hu Hks Hds Hin Hp Hne. apply apply_draws_untouched.
  intros Hd. apply Hds in Hd. destruct Hd as [E|Hk]; [congruence|].
  destruct (Forall2_In_r _ _ _ _ Hks Hk) as (r & _ & Hs).
  destruct (served_lot_of_primary _ _ _ _ _ _ Hnd Hu Hs Hin eq_refl Hp)
    as (_ & ->).
  now apply Hne.
Qed.

(** ** Claims about [recordProductUsage] *)

(** C1.  When a participating product fails -- the primary product or the
    product of a related entry is missing or has no lot in use --
    [recordProductUsage] throws and the store it leaves is the
    store it was called on.  That holds for every throw of the call: the
    lots keep their [currentAmount], the products their [usageCount], and no
    [Usage] or [RelatedProductUsage] row has been added. *)
Theorem recordProductUsage_all_or_nothing params now db :
  (participant_fails params db ->
   exists e, recordProductUsage params now db = Throw e db)
  /\ (forall e db',
        recordProductUsage params now db = Throw e db' ->
        db' = db
        /\ productLots db' = productLots db
        /\ products db' = products db
        /\ usages db' = usages db
        /\ relatedProductUsages db' = relatedProductUsages db).
Proof.
  split.
  - intros Hfail.
    destruct (recordProductUsage params now db) as [usage db'|e db'] eqn:E.
    + exfalso.
      apply recordProductUsage_Ok in E.
      destruct E as (p & usedLot & st & Hp & Hu & _ & _ & Htx).
      apply recordUsageTx_Ok in Htx. destruct Htx as (ks & Hks & _).
      destruct Hfail as [Hun|(r & Hr & Hun)]; [destruct Hun; congruence|].
      destruct (Forall2_In_l _ _ _ _ Hks Hr)
        as (k & _ & (p' & Hp') & lot & Hl & _).
      destruct Hun; congruence.
    + apply recordProductUsage_Throw in E. subst db'. now exists e.
  - intros e db' E. apply recordProductUsage_Throw in E. subst db'.
    repeat split.
Qed.

Lemma recordProductUsage_all_or_nothing_witness :
  participant_fails
    (ex_usage (of_Z 1) [ex_related 11%N (decimal 5 1); ex_related 12%N (of_Z 1)])
    salon
  /\ exists e,
       recordProductUsage
         (ex_usage (of_Z 1)
            [ex_related 11%N (decimal 5 1); ex_related 12%N (of_Z 1)])
         1000 salon
       = Throw e salon.
Proof.
  assert (H : participant_fails
                (ex_usage (of_Z 1)
                   [ex_related 11%N (decimal 5 1); ex_related 12%N (of_Z 1)])
                salon).
  { right. exists (ex_related 12%N (of_Z 1)). split.
    - simpl. right. left. reflexivity.
    - right. reflexivity. }
  split; [exact H|].
  exact (proj1 (recordProductUsage_all_or_nothing _ 1000 salon) H).
Defined.

(** The order of [startedAt], written out: a lot without a date comes
    before every dated lot, and of two dated lots the earlier date comes
    first. *)
Lemma startedAt_leb_dates a b :
  startedAt_leb a b = true ->
  match a, b with
  | Some d, Some d' => d <= d'
  | Some _, None => False
  | None, _ => True
  end.
Proof.
  destruct a as [d|], b as [d'|]; simpl; intros H;
    [now apply Z.leb_le|discriminate|exact I|exact I].
Qed.

(** C4.  For a product that exists: with no lot in use the call fails with
    OutOfStock and changes nothing.  A call that succeeds has picked a lot in
    use of the product whose [startedAt] date is less than or equal to the
    date of every lot in use of the product (a lot in use without a date,
    which the operations of the service never produce, would come first);
    the [Usage] row it returns and stores names that lot; every other lot of
    the product is left exactly as it was; and -- when no related entry
    names the primary product again -- the picked lot holds its old
    [currentAmount] minus [usageAmount] (a [currentAmount] of null stays
    null) and is stamped with the time of the call. *)
Theorem recordProductUsage_fifo params now db product :
  unique_lot_ids db ->
  find_by_id Product.id (RecordProductUsageParams.productId params)
    (products db) = Some product ->
  (oldestInUse (RecordProductUsageParams.productId params) (productLots db)
   = None ->
   recordProductUsage params now db
   = Throw (NoAvailableLots (Product.productName product)) db
   /\ error_kind (NoAvailableLots (Product.productName product)) = OutOfStock)
  /\ (forall usage db',
        recordProductUsage params now db = Ok usage db' ->
        exists usedLot,
          In usedLot (productLots db)
          /\ ProductLot.productId usedLot
             = RecordProductUsageParams.productId params
          /\ ProductLot.isInUse usedLot = true
          /\ (forall l, In l (productLots db) ->
                ProductLot.productId l
                = RecordProductUsageParams.productId params ->
                ProductLot.isInUse l = true ->
                match ProductLot.startedAt usedLot, ProductLot.startedAt l with
                | Some d, Some d' => d <= d'
                | Some _, None => False
                | None, _ => True
                end)
          /\ Usage.usedLotId usage = Some (ProductLot.id usedLot)
          /\ In usage (usages db')
          /\ Forall2
               (fun l l' =>
                  same_shape l l'
                  /\ (ProductLot.productId l
                      = RecordProductUsageParams.productId params ->
                      ProductLot.id l <> ProductLot.id usedLot -> l' = l)
                  /\ ((forall r,
                         In r (or_default []
                                 (RecordProductUsageParams.relatedProducts params)) ->
                         RelatedEntry.productId r
                         <> RecordProductUsageParams.productId params) ->
                      ProductLot.id l = ProductLot.id usedLot ->
                      ProductLot.currentAmount l'
                      = match ProductLot.currentAmount l with
                        | Some c =>
                            Some (sub c
                                    (RecordProductUsageParams.usageAmount params))
                        | None => None
                        end
                      /\ ProductLot.updatedAt l' = now))
               (productLots db) (productLots db')).
Proof.
  intros Hnd Hp. split.
  - intros Hnone. split; [|reflexivity].
    unfold recordProductUsage, oldestInUse in *. unfold_db.
    rewrite Hp, (find_by_id_key _ _ _ _ Hp).
    destruct (inUseLots _ (productLots db)); [reflexivity|discriminate].
  - intros usage db' E.
    apply recordProductUsage_Ok in E.
    destruct E as (p & usedLot & st & _ & Hu & _ & _ & Htx).
    apply recordUsageTx_Ok in Htx. destruct Htx as (ks & Hks & -> & ->).
    destruct (oldestInUse_spec _ _ _ Hu) as (Hin & Hpid & Huse & Hmin).
    exists usedLot.
    split; [exact Hin|]. split; [exact Hpid|]. split; [exact Huse|].
    split; [intros l Hl Hlp Hlu; apply startedAt_leb_dates; auto|].
    split; [reflexivity|].
    split; [simpl; apply in_or_app; right; now left|].
    simpl. apply Forall2_map_self. intros l Hl.
    split; [apply apply_draws_shape|]. split.
    + intros Hlp Hne.
      eapply draws_spare_other_lots; eauto.
      simpl. rewrite (served_lot_ids _ _ _ Hks). apply incl_refl.
    + intros Hrel Hid.
      assert (l = usedLot)
        by (eapply NoDup_map_In_eq; [exact Hnd| | |]; auto).
      subst l.
      assert (Hd : apply_draws now
                     ((ProductLot.id usedLot,
                       RecordProductUsageParams.usageAmount params)
                      :: combine ks
                           (map RelatedEntry.amount
                              (or_default []
                                 (RecordProductUsageParams.relatedProducts
                                    params))))
                     usedLot
                   = decrement_currentAmount
                       (RecordProductUsageParams.usageAmount params) now
                       usedLot).
      { unfold apply_draws. simpl. unfold draw at 2. simpl.
        rewrite N.eqb_refl. apply apply_draws_untouched.
        rewrite (served_lot_ids _ _ _ Hks). simpl. intros Hk.
        destruct (Forall2_In_r _ _ _ _ Hks Hk) as (r & Hr & Hs).
        destruct (served_lot_of_primary _ _ _ _ _ _ Hnd Hu Hs Hin eq_refl Hpid)
          as (Hrp & _).
        exact (Hrel r Hr Hrp). }
      rewrite Hd. split; reflexivity.
Qed.

Lemma salon_unique_lot_ids : unique_lot_ids salon.
Proof.
  unfold unique_lot_ids. simpl.
  repeat constructor; simpl; intuition discriminate.
Defined.

(** On [salon] the polish has lot 20, opened at 200 and holding 15, and lot
    21, opened at 100 and holding 9.  A usage of 1 at time 1000 is drawn
    from lot 21, which is left holding 8, and lot 20 is as it was. *)
Lemma recordProductUsage_fifo_witness :
  unique_lot_ids salon
  /\ exists usage db',
       recordProductUsage (ex_usage (of_Z 1) []) 1000 salon = Ok usage db'
       /\ Usage.usedLotId usage = Some 21%N
       /\ productLots db'
          = [ProductLot.mk 20%N 10%N true (Some (of_Z 15)) (Some 200) 0;
             ProductLot.mk 21%N 10%N true (Some (of_Z 8)) (Some 100) 1000;
             ProductLot.mk 22%N 11%N true (Some (of_Z 1)) (Some 50) 0;
             ProductLot.mk 23%N 12%N false None None 0]
       /\ exists usedLot,
            usedLot = ProductLot.mk 21%N 10%N true (Some (of_Z 9)) (Some 100) 0
            /\ In usedLot (productLots salon)
            /\ forall l, In l (productLots salon) ->
                 ProductLot.productId l = 10%N ->
                 ProductLot.isInUse l = true ->
                 match ProductLot.startedAt usedLot, ProductLot.startedAt l with
                 | Some d, Some d' => d <= d'
                 | Some _, None => False
                 | None, _ => True
                 end.
Proof.
  split; [exact salon_unique_lot_ids|].
  destruct (recordProductUsage_fifo (ex_usage (of_Z 1) []) 1000 salon
              (ex_product 10%N "Color" 2 2 0) salon_unique_lot_ids eq_refl)
    as [_ H].
  destruct (recordProductUsage (ex_usage (of_Z 1) []) 1000 salon)
    as [usage db'|e db'] eqn:E; [|vm_compute in E; discriminate].
  exists usage, db'. split; [reflexivity|].
  destruct (H usage db' eq_refl) as (usedLot & H1 & _ & _ & H4 & H5 & _).
  vm_compute in E. injection E as <- <-.
  split; [reflexivity|]. split; [vm_compute; reflexivity|].
  exists usedLot.
  assert (Hl : usedLot
               = ProductLot.mk 21%N 10%N true (Some (of_Z 9)) (Some 100) 0).
  { cbn [Usage.usedLotId] in H5. injection H5 as H5.
    simpl in H1.
    destruct H1 as [<-|[<-|[<-|[<-|[]]]]]; try discriminate H5.
    reflexivity. }
  split; [exact Hl|]. split; [exact H1|exact H4].
Defined.

Lemma apply_draws_stamped now ds : forall l,
  ProductLot.updatedAt l = now -> ProductLot.updatedAt (apply_draws now ds l) = now.
Proof.
  unfold apply_draws.
  induction ds as [|d t IH]; intros l Hl; simpl; [exact Hl|].
  apply IH. unfold draw. now destruct (N.eqb _ _).
Qed.

Lemma apply_draws_stamps now ds : forall l,
  In (ProductLot.id l) (map fst ds) ->
  ProductLot.updatedAt (apply_draws now ds l) = now.
Proof.
  induction ds as [|d t IH]; intros l Hin; [destruct Hin|].
  change (apply_draws now (d :: t) l) with (apply_draws now t (draw now d l)).
  destruct (N.eqb_spec (ProductLot.id l) (fst d)) as [E|E].
  - apply apply_draws_stamped. unfold draw.
    apply N.eqb_eq in E. now rewrite E.
  - apply IH. destruct (draw_shape now d l) as (Hid & _). rewrite Hid.
    destruct Hin as [Hin|Hin]; [congruence|exact Hin].
Qed.

(** C10, as stated, fails on [salon]: a usage of the polish with the base
    coat as related product rewrites a column the claim does not list.  The
    product and the two lots drawn from were last written at time 0; after
    the call at time 1000 their [updatedAt] is 1000, the schema marking the
    column [@updatedAt]. *)
Lemma recordProductUsage_stamps_updatedAt :
  exists usage db',
    recordProductUsage (ex_usage (of_Z 1) [ex_related 11%N (decimal 5 1)])
      1000 salon = Ok usage db'
    /\ option_map Product.updatedAt (find_by_id Product.id 10%N (products salon))
       = Some 0
    /\ option_map Product.updatedAt (find_by_id Product.id 10%N (products db'))
       = Some 1000
    /\ map ProductLot.updatedAt (productLots salon) = [0; 0; 0; 0]
    /\ map ProductLot.id (productLots db') = [20%N; 21%N; 22%N; 23%N]
    /\ map ProductLot.updatedAt (productLots db') = [0; 1000; 1000; 0].
Proof.
  eexists. eexists. split; [vm_compute; reflexivity|].
  repeat split; reflexivity.
Qed.

(** C10, amended.  A successful call leaves stores, users, service types and
    monthly statistics as they were.  Every product keeps every column
    except [usageCount], [lastUsed] and the stamp [updatedAt] -- so
    [totalQuantity], [lotQuantity] and [inUseQuantity] too -- and only the
    primary product's three columns move: one more use, last used and
    updated at the time of the call.  Every lot keeps its id, product,
    [isInUse] and [startedAt]; a lot that neither the [Usage] row nor one of
    the new [RelatedProductUsage] rows names is exactly as it was, and a lot
    that one of them names is stamped with the time of the call.  One
    [Usage] row, one [RelatedProductUsage] row per related entry and one
    activity are added. *)
Theorem recordProductUsage_frame params now db usage db' :
  recordProductUsage params now db = Ok usage db' ->
  stores db' = stores db
  /\ users db' = users db
  /\ serviceTypes db' = serviceTypes db
  /\ monthlyServiceStats db' = monthlyServiceStats db
  /\ Forall2
       (fun p p' =>
          same_except_usage p p'
          /\ (Product.id p <> RecordProductUsageParams.productId params ->
              p' = p)
          /\ (Product.id p = RecordProductUsageParams.productId params ->
              Product.usageCount p' = Product.usageCount p + 1
              /\ Product.lastUsed p' = Some now
              /\ Product.updatedAt p' = now))
       (products db) (products db')
  /\ exists related activity,
       usages db' = usages db ++ [usage]
       /\ relatedProductUsages db' = relatedProductUsages db ++ related
       /\ List.length related
          = List.length
              (or_default [] (RecordProductUsageParams.relatedProducts params))
       /\ activities db' = activities db ++ [activity]
       /\ Forall2
            (fun l l' =>
               same_shape l l'
               /\ (~ In (Some (ProductLot.id l))
                     (Usage.usedLotId usage
                      :: map RelatedProductUsage.usedLotId related) ->
                   l' = l)
               /\ (In (Some (ProductLot.id l))
                     (Usage.usedLotId usage
                      :: map RelatedProductUsage.usedLotId related) ->
                   ProductLot.updatedAt l' = now))
            (productLots db) (productLots db').
Proof.
  intros E. apply recordProductUsage_Ok in E.
  destruct E as (p & usedLot & st & _ & _ & _ & _ & Htx).
  apply recordUsageTx_Ok in Htx. destruct Htx as (ks & Hks & -> & ->).
  unfold afterUsage. simpl.
  repeat (split; [reflexivity|]). split.
  - apply Forall2_map_self. intros q _.
    destruct (N.eqb (Product.id q) (RecordProductUsageParams.productId params))
      eqn:Eq.
    + apply N.eqb_eq in Eq. split; [now repeat split|].
      split; [congruence|]. intros _. repeat split; reflexivity.
    + apply N.eqb_neq in Eq. split; [now repeat split|].
      split; [reflexivity|]. congruence.
  - eexists. eexists. split; [reflexivity|]. split; [reflexivity|].
    split.
    { generalize (N.succ (nextId db)).
      induction Hks; intros next; simpl; [reflexivity|].
      now rewrite IHHks. }
    split; [reflexivity|].
    apply Forall2_map_self. intros l _.
    split; [apply apply_draws_shape|].
    rewrite (relatedRows_usedLotId _ _ _ _ Hks). split.
    + intros Hn. apply apply_draws_untouched. simpl.
      rewrite (served_lot_ids _ _ _ Hks).
      intros [Hd|Hd]; apply Hn.
      * left. now f_equal.
      * right. now apply in_map.
    + intros Hin. apply apply_draws_stamps. simpl.
      rewrite (served_lot_ids _ _ _ Hks).
      destruct Hin as [Hin|Hin].
      * left. now injection Hin.
      * right. apply in_map_iff in Hin. destruct Hin as (k & Hk & Hin).
        now injection Hk as ->.
Qed.

Lemma recordProductUsage_frame_witness :
  exists usage db',
    recordProductUsage (ex_usage (of_Z 1) [ex_related 11%N (decimal 5 1)])
      1000 salon = Ok usage db'
    /\ stores db' = stores salon
    /\ monthlyServiceStats db' = monthlyServiceStats salon
    /\ usages db' = usages salon ++ [usage]
    /\ map Product.totalQuantity (products db') = [2; 1; 1]
    /\ map Product.usageCount (products db') = [1; 0; 0]
    /\ map ProductLot.isInUse (productLots db') = [true; true; true; false].
Proof.
  destruct (recordProductUsage
              (ex_usage (of_Z 1) [ex_related 11%N (decimal 5 1)]) 1000 salon)
    as [usage db'|e db'] eqn:E; [|vm_compute in E; discriminate].
  exists usage, db'. split; [reflexivity|].
  destruct (recordProductUsage_frame _ _ _ _ _ E)
    as (H1 & _ & _ & H4 & _ & related & activity & H6 & _).
  split; [exact H1|]. split; [exact H4|]. split; [exact H6|].
  vm_compute in E. injection E as _ <-. repeat split; reflexivity.
Defined.

(** The check on the primary lot: an amount above what the oldest lot in
    use holds makes the call fail before anything is written. *)
Lemma recordProductUsage_notEnough params now db product usedLot serviceType c :
  find_by_id Product.id (RecordProductUsageParams.productId params)
    (products db) = Some product ->
  oldestInUse (RecordProductUsageParams.productId params) (productLots db)
  = Some usedLot ->
  find_by_id ServiceType.id (RecordProductUsageParams.serviceTypeId params)
    (serviceTypes db) = Some serviceType ->
  In (RecordProductUsageParams.recordedBy params) (users db) ->
  ProductLot.currentAmount usedLot = Some c ->
  ltb c (RecordProductUsageParams.usageAmount params) = true ->
  recordProductUsage params now db
  = Throw (NotEnoughLeft c (RecordProductUsageParams.usageAmount params)) db.
Proof.
  intros Hp Hu Hs Huser Hc Hlt.
  unfold recordProductUsage, oldestInUse in *. unfold_db.
  rewrite Hp, (find_by_id_key _ _ _ _ Hp).
  destruct (inUseLots _ (productLots db)) as [|l rest]; [discriminate|].
  simpl in Hu. injection Hu as ->. rewrite Hs.
  destruct (find (N.eqb (RecordProductUsageParams.recordedBy params)) (users db))
    eqn:Ef.
  - unfold notEnough. now rewrite Hc, Hlt.
  - exfalso. eapply find_none in Ef; [|exact Huser].
    now rewrite N.eqb_refl in Ef.
Qed.

(** C6, as stated, fails on [salon_depleted]: the polish bottle opened first
    holds 0, the one opened later holds 10, and a usage of 1 is refused
    with InsufficientQuantity instead of being served from the later
    bottle. *)
Lemma depleted_lot_still_selected :
  oldestInUse 10%N (productLots salon_depleted)
  = Some (ProductLot.mk 20%N 10%N true (Some (of_Z 0)) (Some 100) 0)
  /\ In (ProductLot.mk 21%N 10%N true (Some (of_Z 10)) (Some 200) 0)
       (productLots salon_depleted)
  /\ ltb (of_Z 10) (of_Z 1) = false
  /\ ltb (of_Z 0) (of_Z 1) = true
  /\ recordProductUsage (ex_usage (of_Z 1) []) 1000 salon_depleted
     = Throw (NotEnoughLeft (of_Z 0) (of_Z 1)) salon_depleted.
Proof.
  split; [reflexivity|]. split; [simpl; tauto|].
  split; [reflexivity|]. split; [reflexivity|].
  vm_compute. reflexivity.
Qed.

(** C6, amended.  A lot stays in use when it is used up, and the oldest lot
    in use stays the one selected: when it holds 0 and the usage amount is
    positive, the call fails with InsufficientQuantity and leaves the store
    as it was, whatever the lots opened later hold (service type and user
    being known). *)
Theorem depleted_oldest_lot_blocks_usage
    params now db product usedLot serviceType :
  find_by_id Product.id (RecordProductUsageParams.productId params)
    (products db) = Some product ->
  oldestInUse (RecordProductUsageParams.productId params) (productLots db)
  = Some usedLot ->
  find_by_id ServiceType.id (RecordProductUsageParams.serviceTypeId params)
    (serviceTypes db) = Some serviceType ->
  In (RecordProductUsageParams.recordedBy params) (users db) ->
  ProductLot.currentAmount usedLot = Some (of_Z 0) ->
  ltb (of_Z 0) (RecordProductUsageParams.usageAmount params) = true ->
  exists e,
    recordProductUsage params now db = Throw e db
    /\ error_kind e = InsufficientQuantity.
Proof.
  intros Hp Hu Hs Huser Hc Hlt.
  exists (NotEnoughLeft (of_Z 0) (RecordProductUsageParams.usageAmount params)).
  split; [|reflexivity].
  eapply recordProductUsage_notEnough; eauto.
Qed.

Lemma depleted_oldest_lot_blocks_usage_witness :
  exists e,
    recordProductUsage (ex_usage (of_Z 1) []) 1000 salon_depleted
    = Throw e salon_depleted
    /\ error_kind e = InsufficientQuantity.
Proof.
  apply (depleted_oldest_lot_blocks_usage (ex_usage (of_Z 1) []) 1000
           salon_depleted (ex_product 10%N "Color" 2 2 0)
           (ProductLot.mk 20%N 10%N true (Some (of_Z 0)) (Some 100) 0)
           ex_serviceType).
  - reflexivity.
  - reflexivity.
  - reflexivity.
  - simpl. left. reflexivity.
  - reflexivity.
  - reflexivity.
Defined.

(** C2 at a failing input: the base coat's only open bottle holds 1 and the
    related entry asks for 2.  The call succeeds and the bottle is left at
    -1; the check that guards the primary lot is not made for a related
    lot. *)
Theorem related_lot_overdrawn :
  oldestInUse 11%N (productLots salon)
  = Some (ProductLot.mk 22%N 11%N true (Some (of_Z 1)) (Some 50) 0)
  /\ ltb (of_Z 1) (of_Z 2) = true
  /\ exists usage db',
       recordProductUsage (ex_usage (of_Z 1) [ex_related 11%N (of_Z 2)])
         1000 salon = Ok usage db'
       /\ find_by_id ProductLot.id 22%N (productLots db')
          = Some (ProductLot.mk 22%N 11%N true (Some (of_Z (-1))) (Some 50) 1000)
       /\ ltb (of_Z (-1)) (of_Z 0) = true.
Proof.
  split; [reflexivity|]. split; [reflexivity|].
  eexists. eexists. split; [vm_compute; reflexivity|].
  split; reflexivity.
Qed.

(** ** Binary64 facts *)

Lemma fexp_binary64 k : fexp prec emax k = Z.max (k - 53) (-1074).
Proof. reflexivity. Qed.

Lemma shr_fexp_exact_0 m e :
  fexp prec emax (Zdigits2 m + e) = e ->
  shr_fexp prec emax m e loc_Exact = (Build_shr_record m false false, e).
Proof.
  intros H. unfold shr_fexp. rewrite H, Z.sub_diag. reflexivity.
Qed.

Lemma shr_fexp_exact_1 p e :
  fexp prec emax (Zdigits2 (Zpos p~0) + e) = e + 1 ->
  shr_fexp prec emax (Zpos p~0) e loc_Exact
  = (Build_shr_record (Zpos p) false false, e + 1).
Proof.
  intros H. unfold shr_fexp. rewrite H.
  replace (e + 1 - e) with 1 by lia. reflexivity.
Qed.

Lemma div_eucl_exact a b q : 0 < b -> a = b * q -> Z.div_eucl a b = (q, 0).
Proof.
  intros Hb ->.
  assert (E : Z.div_eucl (b * q) b = ((b * q) / b, (b * q) mod b))
    by (unfold Z.div, Z.modulo; now destruct (Z.div_eucl (b * q) b)).
  rewrite E, (Z.mul_comm b q), Z.div_mul, Z.mod_mul by lia. reflexivity.
Qed.

(** Dividing a finite double by 1 gives it back: the quotient is exact and
    already in the format. *)
Lemma div_one_finite s m e :
  bounded prec emax m e = true ->
  div (S754_finite s m e) (of_Z 1) = S754_finite s m e.
Proof.
  unfold bounded, canonical_mantissa. rewrite andb_true_iff, Z.eqb_eq, Z.leb_le.
  intros [Hc He]. rewrite fexp_binary64 in Hc.
  change (emax - prec) with 971 in He.
  change (of_Z 1) with (S754_finite false 4503599627370496 (-52)).
  unfold div, SFdiv, SFdiv_core_binary.
  change (Zdigits2 (Zpos 4503599627370496)) with 53.
  change (Zdigits2 (Zpos m)) with (Zpos (digits2_pos m)).
  set (d := Zpos (digits2_pos m)) in *.
  assert (Hd : 0 < d) by (unfold d; lia).
  rewrite fexp_binary64.
  destruct (Z.eq_dec e (-1074)) as [Hemin|Hemin].
  - replace (Z.min (Z.max (d + e - (53 + -52) - 53) (-1074)) (e - -52))
      with e by lia.
    replace (e - -52 - e) with 52 by lia.
    rewrite (div_eucl_exact _ _ (Zpos m));
      [| lia
       | rewrite Z.shiftl_mul_pow2 by lia;
         change (2 ^ 52) with 4503599627370496; lia].
    change (new_location 4503599627370496 0) with loc_Exact.
    unfold binary_round_aux.
    rewrite shr_fexp_exact_0
      by (rewrite fexp_binary64; change (Zdigits2 (Z.pos m)) with d; lia).
    simpl round_nearest_even.
    rewrite shr_fexp_exact_0
      by (rewrite fexp_binary64; change (Zdigits2 (Z.pos m)) with d; lia).
    simpl. destruct (Z.leb_spec e 971); [now destruct s | lia].
  - replace (Z.min (Z.max (d + e - (53 + -52) - 53) (-1074)) (e - -52))
      with (e - 1) by lia.
    replace (e - -52 - (e - 1)) with 53 by lia.
    rewrite (div_eucl_exact _ _ (Zpos m~0));
      [| lia
       | rewrite Z.shiftl_mul_pow2 by lia;
         change (2 ^ 53) with 9007199254740992; lia].
    change (new_location 4503599627370496 0) with loc_Exact.
    unfold binary_round_aux.
    rewrite shr_fexp_exact_1.
    2:{ rewrite fexp_binary64.
        change (Zdigits2 (Zpos m~0)) with (Zpos (Pos.succ (digits2_pos m))).
        rewrite Pos2Z.inj_succ. fold d. lia. }
    simpl round_nearest_even.
    rewrite shr_fexp_exact_0
      by (rewrite fexp_binary64; change (Zdigits2 (Z.pos m)) with d; lia).
    simpl. replace (e - 1 + 1) with e by lia.
    destruct (Z.leb_spec e 971); [now destruct s | lia].
Qed.

Lemma div_one x : is_binary64 x -> div x (of_Z 1) = x.
Proof.
  destruct x as [s|s| |s m e]; intros Hx.
  - now destruct s.
  - now destruct s.
  - reflexivity.
  - now apply div_one_finite.
Qed.

(** [toFixed] rounds to the nearest: for a magnitude [m * 2^e] with a
    fractional part, the integer [n] it prints lies within one half of
    [m * 2^e * 10^f], the upper end included. *)
Lemma nearest_scaled_spec m e f :
  e < 0 ->
  2 * 10 ^ Z.of_nat f * Zpos m - 2 ^ (- e)
  < 2 ^ (1 - e) * nearest_scaled m e f
  <= 2 * 10 ^ Z.of_nat f * Zpos m + 2 ^ (- e).
Proof.
  intros He. unfold nearest_scaled.
  destruct (Z.leb_spec 0 e); [lia|].
  replace (1 - e) with (Z.succ (- e)) by lia.
  rewrite Z.pow_succ_r by lia.
  assert (Hk : 0 < 2 ^ (- e)) by (apply Z.pow_pos_nonneg; lia).
  set (k := 2 ^ (- e)) in *. set (a := 2 * 10 ^ Z.of_nat f * Z.pos m + k).
  pose proof (Z.div_mod a (2 * k) ltac:(lia)).
  pose proof (Z.mod_pos_bound a (2 * k) ltac:(lia)).
  lia.
Qed.

(** ** Monthly statistics *)

Lemma find_map_keeps {A} (P : A -> bool) (g : A -> A) rows r :
  (forall x, P (g x) = P x) ->
  find P rows = Some r -> find P (map g rows) = Some (g r).
Proof.
  intros Hg. induction rows as [|x t IH]; simpl; [discriminate|].
  rewrite Hg. destruct (P x); [now intros [= ->] | exact IH].
Qed.

Lemma find_app_new {A} (P : A -> bool) rows x :
  find P rows = None -> P x = true -> find P (rows ++ [x]) = Some x.
Proof.
  intros Hn Hx. induction rows as [|y t IH]; simpl in *; [now rewrite Hx|].
  destruct (P y); [discriminate | auto].
Qed.

Section MonthlyStatsFacts.

Variable getFullYear : Date -> Z.
Variable getMonth : Date -> Z.

Lemma updateMonthlyStats_effect serviceTypeId usageAmount date now db :
  let year := getFullYear (or_default now date) in
  let month := getMonth (or_default now date) + 1 in
  exists db',
    updateMonthlyStats getFullYear getMonth serviceTypeId usageAmount date
      now db = Ok tt db'
    /\ stat_of serviceTypeId year month db'
       = Some
           match stat_of serviceTypeId year month db with
           | Some row =>
               set_stat
                 (add (MonthlyServiceStat.totalUsage row) usageAmount)
                 (MonthlyServiceStat.usageCount row + 1)
                 (div (add (MonthlyServiceStat.totalUsage row) usageAmount)
                    (of_Z (MonthlyServiceStat.usageCount row + 1)))
                 row
           | None =>
               MonthlyServiceStat.mk (nextId db) serviceTypeId month year
                 usageAmount usageAmount 1
           end.
Proof.
  intros year month. unfold updateMonthlyStats, stat_of. unfold_db.
  fold year month.
  destruct (find _ (monthlyServiceStats db)) as [row|] eqn:E.
  - eexists. split; [reflexivity|]. simpl. unfold update_where.
    erewrite find_map_keeps;
      [|intros x; cbv beta;
        now destruct (N.eqb (MonthlyServiceStat.id x) _)|exact E].
    now rewrite N.eqb_refl.
  - eexists. split; [reflexivity|]. simpl.
    apply find_app_new; [exact E|]. simpl.
    now rewrite N.eqb_refl, !Z.eqb_refl.
Qed.

(** C9.  [updateMonthlyStats] finds the row of the service type for the
    year and month of the date.  If there is one, its total grows by the
    amount, its count by one, and its average becomes the new total
    divided by the new count; if there is none, a row with the amount as
    total and as average and a count of one is created.  Either way the
    average of the row is its total divided by its count (for a created
    row this reads [a = a / 1], which holds for every binary64 value).
    Starting without a row, a usage of 0.6 gives 0.6, 1, 0.6 and a second
    one of 0.4 gives 1.0, 2, 0.5. *)
Theorem updateMonthlyStats_rollup :
  (forall serviceTypeId usageAmount date now db,
     let year := getFullYear (or_default now date) in
     let month := getMonth (or_default now date) + 1 in
     exists db' row',
       updateMonthlyStats getFullYear getMonth serviceTypeId usageAmount
         date now db = Ok tt db'
       /\ stat_of serviceTypeId year month db' = Some row'
       /\ match stat_of serviceTypeId year month db with
          | Some row =>
              MonthlyServiceStat.id row' = MonthlyServiceStat.id row
              /\ MonthlyServiceStat.totalUsage row'
                 = add (MonthlyServiceStat.totalUsage row) usageAmount
              /\ MonthlyServiceStat.usageCount row'
                 = MonthlyServiceStat.usageCount row + 1
              /\ MonthlyServiceStat.averageUsage row'
                 = div (MonthlyServiceStat.totalUsage row')
                     (of_Z (MonthlyServiceStat.usageCount row'))
          | None =>
              MonthlyServiceStat.totalUsage row' = usageAmount
              /\ MonthlyServiceStat.usageCount row' = 1
              /\ MonthlyServiceStat.averageUsage row' = usageAmount
          end
       /\ (is_binary64 usageAmount ->
           MonthlyServiceStat.averageUsage row'
           = div (MonthlyServiceStat.totalUsage row')
               (of_Z (MonthlyServiceStat.usageCount row'))))
  /\ (forall serviceTypeId date now db,
        let year := getFullYear (or_default now date) in
        let month := getMonth (or_default now date) + 1 in
        stat_of serviceTypeId year month db = None ->
        exists db1 row1 db2 row2,
          updateMonthlyStats getFullYear getMonth serviceTypeId
            (decimal 6 1) date now db = Ok tt db1
          /\ stat_of serviceTypeId year month db1 = Some row1
          /\ MonthlyServiceStat.totalUsage row1 = decimal 6 1
          /\ MonthlyServiceStat.usageCount row1 = 1
          /\ MonthlyServiceStat.averageUsage row1 = decimal 6 1
          /\ updateMonthlyStats getFullYear getMonth serviceTypeId
               (decimal 4 1) date now db1 = Ok tt db2
          /\ stat_of serviceTypeId year month db2 = Some row2
          /\ MonthlyServiceStat.totalUsage row2 = of_Z 1
          /\ MonthlyServiceStat.usageCount row2 = 2
          /\ MonthlyServiceStat.averageUsage row2 = decimal 5 1).
Proof.
  split.
  - intros sid a date now db year month.
    destruct (updateMonthlyStats_effect sid a date now db)
      as (db' & Hrun & Hrow).
    fold year month in Hrow.
    eexists. eexists. split; [exact Hrun|]. split; [exact Hrow|].
    destruct (stat_of sid year month db) as [row|]; simpl.
    + repeat split; reflexivity.
    + repeat split; try reflexivity.
      intros Ha. symmetry. now apply div_one.
  - intros sid date now db year month Hnone.
    destruct (updateMonthlyStats_effect sid (decimal 6 1) date now db)
      as (db1 & Hrun1 & Hrow1).
    fold year month in Hrow1. rewrite Hnone in Hrow1.
    destruct (updateMonthlyStats_effect sid (decimal 4 1) date now db1)
      as (db2 & Hrun2 & Hrow2).
    fold year month in Hrow2. rewrite Hrow1 in Hrow2.
    do 4 eexists.
    split; [exact Hrun1|]. split; [exact Hrow1|].
    split; [reflexivity|]. split; [reflexivity|]. split; [reflexivity|].
    split; [exact Hrun2|]. split; [exact Hrow2|].
    split; [vm_compute; reflexivity|]. split; [reflexivity|].
    vm_compute. reflexivity.
Qed.

(** C3, amended.  A successful [recordProductUsage] leaves every monthly
    statistics row as it was.  The row of the usage's service type and
    month is brought up to date by the separate call the source documents
    as "called after a usage is recorded": [updateMonthlyStats] on the
    service type, amount and date of the returned [Usage]. *)
Theorem recordProductUsage_leaves_monthly_stats params now db usage db' :
  recordProductUsage params now db = Ok usage db' ->
  monthlyServiceStats db' = monthlyServiceStats db
  /\ Usage.serviceTypeId usage = RecordProductUsageParams.serviceTypeId params
  /\ Usage.usageAmount usage = RecordProductUsageParams.usageAmount params
  /\ Usage.date usage = now
  /\ forall later,
       let year := getFullYear now in
       let month := getMonth now + 1 in
       exists db'' row',
         updateMonthlyStats getFullYear getMonth (Usage.serviceTypeId usage)
           (Usage.usageAmount usage) (Some (Usage.date usage)) later db'
         = Ok tt db''
         /\ stat_of (Usage.serviceTypeId usage) year month db'' = Some row'
         /\ match stat_of (Usage.serviceTypeId usage) year month db with
            | Some row =>
                MonthlyServiceStat.totalUsage row'
                = add (MonthlyServiceStat.totalUsage row)
                    (Usage.usageAmount usage)
                /\ MonthlyServiceStat.usageCount row'
                   = MonthlyServiceStat.usageCount row + 1
            | None =>
                MonthlyServiceStat.totalUsage row' = Usage.usageAmount usage
                /\ MonthlyServiceStat.usageCount row' = 1
            end.
Proof.
  intros E. apply recordProductUsage_Ok in E.
  destruct E as (p & usedLot & st & _ & _ & _ & _ & Htx).
  apply recordUsageTx_Ok in Htx. destruct Htx as (ks & _ & -> & ->).
  repeat (split; [reflexivity|]).
  intros later year month. simpl.
  destruct (updateMonthlyStats_effect
              (RecordProductUsageParams.serviceTypeId params)
              (RecordProductUsageParams.usageAmount params)
              (Some now) later (afterUsage params now st usedLot ks db))
    as (db'' & Hrun & Hrow).
  simpl in Hrow. fold year month in Hrow.
  eexists. eexists. split; [exact Hrun|]. split; [exact Hrow|].
  change (stat_of (RecordProductUsageParams.serviceTypeId params) year month
            (afterUsage params now st usedLot ks db))
    with (stat_of (RecordProductUsageParams.serviceTypeId params) year month
            db).
  destruct (stat_of _ year month db); simpl; split; reflexivity.
Qed.

End MonthlyStatsFacts.

Lemma updateMonthlyStats_rollup_witness :
  is_binary64 (decimal 6 1)
  /\ exists db' row',
       updateMonthlyStats (fun _ => 2025) (fun _ => 4) 3%N (decimal 6 1)
         None 1000 salon = Ok tt db'
       /\ stat_of 3%N 2025 5 db' = Some row'
       /\ MonthlyServiceStat.averageUsage row'
          = div (MonthlyServiceStat.totalUsage row')
              (of_Z (MonthlyServiceStat.usageCount row')).
Proof.
  assert (Ha : is_binary64 (decimal 6 1)) by reflexivity.
  split; [exact Ha|].
  destruct (updateMonthlyStats_rollup (fun _ => 2025) (fun _ => 4)) as [H _].
  destruct (H 3%N (decimal 6 1) None 1000 salon)
    as (db' & row' & Hrun & Hrow & _ & Havg).
  exists db', row'. split; [exact Hrun|]. split; [exact Hrow|].
  exact (Havg Ha).
Defined.

(** C3, as stated, fails on [salon]: a usage of the polish is recorded, and
    afterwards there is still no statistics row for its service type, in
    any year and month. *)
Lemma recordProductUsage_skips_monthly_stats :
  exists usage db',
    recordProductUsage (ex_usage (of_Z 1) []) 1000 salon = Ok usage db'
    /\ Usage.serviceTypeId usage = 3%N
    /\ forall year month, stat_of 3%N year month db' = None.
Proof.
  eexists. eexists. split; [vm_compute; reflexivity|].
  split; reflexivity.
Qed.

Lemma recordProductUsage_leaves_monthly_stats_witness :
  exists usage db',
    recordProductUsage (ex_usage (of_Z 1) []) 1000 salon = Ok usage db'
    /\ monthlyServiceStats db' = monthlyServiceStats salon
    /\ exists db'' row',
         updateMonthlyStats (fun _ => 2025) (fun _ => 4)
           (Usage.serviceTypeId usage) (Usage.usageAmount usage)
           (Some (Usage.date usage)) 2000 db' = Ok tt db''
         /\ stat_of (Usage.serviceTypeId usage) 2025 5 db'' = Some row'
         /\ MonthlyServiceStat.usageCount row' = 1.
Proof.
  destruct (recordProductUsage (ex_usage (of_Z 1) []) 1000 salon)
    as [usage db'|e db'] eqn:E; [|vm_compute in E; discriminate].
  exists usage, db'. split; [reflexivity|].
  destruct (recordProductUsage_leaves_monthly_stats
              (fun _ => 2025) (fun _ => 4) _ _ _ _ _ E)
    as (H1 & _ & _ & _ & H5).
  split; [exact H1|].
  destruct (H5 2000) as (db'' & row' & Hrun & Hrow & Hnew).
  exists db'', row'. split; [exact Hrun|]. split; [exact Hrow|].
  simpl in Hnew. exact (proj2 Hnew).
Defined.

(** ** Product and lot registry *)

Lemma find_eqb_In k (ids : list Id) :
  In k ids -> find (N.eqb k) ids = Some k.
Proof.
  induction ids as [|x t IH]; simpl; [tauto|].
  destruct (N.eqb k x) eqn:E.
  - apply N.eqb_eq in E. now subst.
  - intros [->|H]; [now rewrite N.eqb_refl in E | auto].
Qed.

Lemma find_eqb_not_In k (ids : list Id) :
  ~ In k ids -> find (N.eqb k) ids = None.
Proof.
  induction ids as [|x t IH]; simpl; [reflexivity|].
  intros H. destruct (N.eqb k x) eqn:E.
  - apply N.eqb_eq in E. subst. tauto.
  - apply IH. tauto.
Qed.

Lemma repeatM_create_lots productId now n : forall db,
  repeatM n (_ <- productLot_create productId false None None now ;; ret tt) db
  = Ok tt
      (mkDB (stores db) (users db) (products db)
         (productLots db ++ newLots productId (nextId db) now n)
         (serviceTypes db) (usages db) (relatedProductUsages db)
         (activities db) (monthlyServiceStats db)
         (nextId db + N.of_nat n)%N).
Proof.
  induction n as [|n IH]; intros db.
  - simpl. unfold ret. destruct db; simpl.
    now rewrite app_nil_r, N.add_0_r.
  - cbn [repeatM]. unfold bind at 1. unfold_db. rewrite IH. simpl.
    f_equal. f_equal.
    + now rewrite <- app_assoc.
    + change (N.pos (Pos.of_succ_nat n)) with (N.of_nat (S n)).
      rewrite Nat2N.inj_succ. lia.
Qed.

Lemma newLots_length productId next now n :
  List.length (newLots productId next now n) = n.
Proof. revert next. induction n; intros next; simpl; auto. Qed.

Lemma newLots_filter productId next now n :
  filter (fun l => N.eqb (ProductLot.productId l) productId)
    (newLots productId next now n)
  = newLots productId next now n.
Proof.
  revert next. induction n as [|n IH]; intros next; simpl; [reflexivity|].
  now rewrite N.eqb_refl, IH.
Qed.

Lemma newLots_unused productId next now n :
  Forall (fun l => ProductLot.isInUse l = false)
    (newLots productId next now n).
Proof.
  revert next. induction n as [|n IH]; intros next; simpl; constructor; auto.
Qed.

Lemma no_lots_of_unissued_id db :
  lots_reference_issued_ids db ->
  filter (fun l => N.eqb (ProductLot.productId l) (nextId db)) (productLots db)
  = [].
Proof.
  unfold lots_reference_issued_ids.
  induction (productLots db) as [|l t IH]; intros H; simpl; [reflexivity|].
  inversion H as [|? ? Hl Ht]; subst.
  destruct (N.eqb (ProductLot.productId l) (nextId db)) eqn:E.
  - apply N.eqb_eq in E. lia.
  - auto.
Qed.

(** C7, as stated, fails for a negative quantity, which [createProduct]
    accepts: with [totalQuantity = -2] the product is stored with
    [totalQuantity] and [lotQuantity] both -2, and no lot is created for it,
    so the number of its lots is not [n]. *)
Lemma createProduct_negative_quantity :
  exists product db',
    createProduct (ex_newProduct 1%N (-2)) 1000 salon = Ok product db'
    /\ In product (products db')
    /\ Product.totalQuantity product = -2
    /\ Product.lotQuantity product = -2
    /\ Product.inUseQuantity product = 0
    /\ lotsOf (Product.id product) db' = []
    /\ Z.of_nat (List.length (lotsOf (Product.id product) db')) <> -2.
Proof.
  eexists. eexists. split; [vm_compute; reflexivity|].
  split; [simpl; tauto|]. split; [reflexivity|]. split; [reflexivity|].
  split; [reflexivity|]. split; [reflexivity|]. discriminate.
Qed.

(** C7, amended.  [createProduct] with [totalQuantity = n] checks the store
    and nothing else.  If the store exists, the product is stored with
    [totalQuantity] and [lotQuantity] both [n] and [inUseQuantity] 0, and
    the lots of the product are exactly [max n 0], none in use: [n] lots
    for a count [n >= 0], and no lot for a negative [n], which the counters
    store all the same.  If the store does not exist the call fails with
    NotFound and the store of records is as it was.  (The new product's id
    is fresh: no lot of the store points at an id not yet issued.) *)
Theorem createProduct_lots params now db n :
  CreateProductParams.totalQuantity params = Some n ->
  lots_reference_issued_ids db ->
  (In (CreateProductParams.storeId params) (stores db) ->
   exists product db',
     createProduct params now db = Ok product db'
     /\ In product (products db')
     /\ Product.totalQuantity product = n
     /\ Product.lotQuantity product = n
     /\ Product.inUseQuantity product = 0
     /\ Z.of_nat (List.length (lotsOf (Product.id product) db')) = Z.max n 0
     /\ (0 <= n ->
         Z.of_nat (List.length (lotsOf (Product.id product) db')) = n)
     /\ (n < 0 -> lotsOf (Product.id product) db' = [])
     /\ Forall (fun l => ProductLot.isInUse l = false)
          (lotsOf (Product.id product) db'))
  /\ (~ In (CreateProductParams.storeId params) (stores db) ->
      createProduct params now db
      = Throw (StoreNotFound (CreateProductParams.storeId params)) db
      /\ error_kind (StoreNotFound (CreateProductParams.storeId params))
         = NotFound).
Proof.
  intros Hn Hfresh. split; intros Hstore.
  - apply find_eqb_In in Hstore.
    pose proof repeatM_create_lots as Hlots.
    unfold createProduct. rewrite Hn. unfold_db. rewrite Hstore.
    rewrite Hlots. simpl.
    eexists. eexists. split; [reflexivity|]. simpl.
    split; [apply in_or_app; right; now left|].
    repeat (split; [reflexivity|]).
    unfold lotsOf. simpl.
    rewrite filter_app, (no_lots_of_unissued_id _ Hfresh), newLots_filter.
    simpl. rewrite newLots_length.
    split; [lia|]. split; [lia|]. split; [|apply newLots_unused].
    intros Hneg. destruct n as [|q|q]; try lia. reflexivity.
  - apply find_eqb_not_In in Hstore.
    unfold createProduct. unfold_db. rewrite Hstore. split; reflexivity.
Qed.

Lemma createProduct_lots_witness :
  lots_reference_issued_ids salon
  /\ exists product db',
       createProduct (ex_newProduct 1%N 3) 1000 salon = Ok product db'
       /\ Product.lotQuantity product = 3
       /\ Product.inUseQuantity product = 0
       /\ Z.of_nat (List.length (lotsOf (Product.id product) db')) = 3.
Proof.
  assert (Hf : lots_reference_issued_ids salon)
    by (unfold lots_reference_issued_ids; simpl; repeat constructor).
  split; [exact Hf|].
  destruct (createProduct_lots (ex_newProduct 1%N 3) 1000 salon 3 eq_refl Hf)
    as [H _].
  destruct H as (product & db' & H1 & _ & _ & H4 & H5 & _ & H6 & _).
  - simpl. left. reflexivity.
  - exists product, db'. split; [exact H1|]. split; [exact H4|].
    split; [exact H5|]. apply H6. lia.
Defined.

(** C5 at a failing input: the top coat has one unopened bottle and its
    counters say so.  Adding stock with [quantity = 2] creates one lot and
    raises [totalQuantity] and [lotQuantity] by two: two lots, counters at
    three. *)
Theorem addProductStock_counters_diverge :
  counters_match_lots (ex_product 12%N "Top" 1 0 1) salon
  /\ exists productLot db',
       addProductStock (AddProductStockParams.mk 12%N 2 None None 2%N) 1000
         salon = Ok productLot db'
       /\ productLots db' = productLots salon ++ [productLot]
       /\ find_by_id Product.id 12%N (products db')
          = Some (ex_product_at 1000 12%N "Top" 3 0 3)
       /\ List.length (lotsOf 12%N db') = 2%nat
       /\ ~ counters_match_lots (ex_product_at 1000 12%N "Top" 3 0 3) db'.
Proof.
  split; [repeat split|].
  eexists. eexists. split; [vm_compute; reflexivity|].
  split; [reflexivity|]. split; [reflexivity|]. split; [reflexivity|].
  intros (H & _). vm_compute in H. discriminate.
Qed.

(** Whatever the quantity, a successful [addProductStock] creates one lot
    and moves the counters of the product by [quantity]. *)
Lemma addProductStock_Ok params now db productLot db' :
  addProductStock params now db = Ok productLot db' ->
  productLots db' = productLots db ++ [productLot]
  /\ ProductLot.productId productLot = AddProductStockParams.productId params
  /\ products db'
     = update_where Product.id (AddProductStockParams.productId params)
         (increment_stock (AddProductStockParams.quantity params)
            (or_default false (AddProductStockParams.isInUse params)) now)
         (products db).
Proof.
  unfold addProductStock, transaction. unfold_db.
  destruct (find_by_id Product.id _ (products db)); [|discriminate].
  destruct (find (N.eqb _) (users db)); [|discriminate].
  intros H. injection H as <- <-. simpl. repeat split.
Qed.

(** ** Service type catalogue *)

(** C8, as stated, fails on a service type whose design factor is stored as
    0: the factor is set, so the rate would become [round (100 * 0) = 0] and
    the amount 0, but the source tests the factor for truthiness, skips the
    multiplication and returns 0.5. *)
Lemma designUsageRate_zero_not_applied :
  ServiceType.designUsageRate ex_zeroDesign = Some (of_Z 0)
  /\ calculateAdjustedUsageAmount ex_zeroDesign (decimal 5 1) MEDIUM
     = decimal 5 1
  /\ resolveAdjustedAmount_as_specified ex_zeroDesign (decimal 5 1) MEDIUM
     = of_Z 0
  /\ calculateAdjustedUsageAmount ex_zeroDesign (decimal 5 1) MEDIUM
     <> resolveAdjustedAmount_as_specified ex_zeroDesign (decimal 5 1) MEDIUM.
Proof.
  split; [reflexivity|]. split; [vm_compute; reflexivity|].
  split; [vm_compute; reflexivity|]. vm_compute. discriminate.
Qed.

(** [Math.round] on a value with a fractional part, [z * 2^e] with [e < 0]:
    the result is the double of the integer [n] with
    [n - 1/2 <= z * 2^e < n + 1/2], written without fractions. *)
Lemma Math_round_nearest s m e :
  e < 0 ->
  exists n,
    Math_round (S754_finite s m e) = binary_normalize prec emax n 0 s
    /\ 2 ^ (1 - e) * n - 2 ^ (- e)
       <= 2 * cond_Zopp s (Zpos m)
       < 2 ^ (1 - e) * n + 2 ^ (- e).
Proof.
  intros He. unfold Math_round.
  destruct (Z.leb_spec 0 e); [lia|].
  eexists. split; [reflexivity|].
  replace (1 - e) with (Z.succ (- e)) by lia.
  rewrite Z.pow_succ_r by lia.
  assert (Hk : 0 < 2 ^ (- e)) by (apply Z.pow_pos_nonneg; lia).
  set (k := 2 ^ (- e)) in *. set (a := 2 * cond_Zopp s (Z.pos m) + k).
  pose proof (Z.div_mod a (2 * k) ltac:(lia)).
  pose proof (Z.mod_pos_bound a (2 * k) ltac:(lia)).
  lia.
Qed.

(** C8, amended.  [calculateAdjustedUsageAmount] returns
    [baseAmount * (rate / 100)] rounded to two decimal places, where [rate]
    is the percentage of the nail length, first multiplied by the design
    factor and rounded to the nearest integer when the design factor is set
    and is neither zero nor NaN (a factor of zero or NaN counts as not
    set).
    - Rounding to the nearest integer is [Math.round]: a product
      [z * 2^e] with a fractional part becomes the double of the integer
      [n] with [n - 1/2 <= z * 2^e < n + 1/2], so a tie goes up; a product
      without a fractional part, an infinity or NaN is kept.
    - Rounding to two decimal places is [toFixed(2)] read back by
      [parseFloat]: below [10^21] the result is the double nearest to
      [n / 100], where [n] is the integer nearest to 100 times the
      magnitude (the larger of two).
    - With rates 80/100/150 and no design factor, a base amount of 0.5
      gives exactly 0.4, 0.5 and 0.75.  With rates 80/100/130 and a design
      factor of 1.25 the percentages become 100, 125 and 163 (162.5 rounded
      up), and a base amount of 10 gives exactly 10, 12.5 and 16.3. *)
Theorem calculateAdjustedUsageAmount_spec :
  (forall serviceType baseAmount nailLength,
     calculateAdjustedUsageAmount serviceType baseAmount nailLength
     = let rate := of_Z (lengthRate serviceType nailLength) in
       match ServiceType.designUsageRate serviceType with
       | Some (S754_zero _) | Some S754_nan | None =>
           round2 (mul baseAmount (div rate (of_Z 100)))
       | Some factor =>
           round2 (mul baseAmount
                     (div (Math_round (mul rate factor)) (of_Z 100)))
       end)
  /\ (forall s m e,
        (e < 0 ->
         exists n,
           Math_round (S754_finite s m e) = binary_normalize prec emax n 0 s
           /\ 2 ^ (1 - e) * n - 2 ^ (- e)
              <= 2 * cond_Zopp s (Zpos m)
              < 2 ^ (1 - e) * n + 2 ^ (- e))
        /\ (0 <= e -> Math_round (S754_finite s m e) = S754_finite s m e)
        /\ Math_round (S754_infinity s) = S754_infinity s
        /\ Math_round S754_nan = S754_nan)
  /\ (forall s m e,
        ltb (S754_finite false m e) (of_Z (10 ^ 21)) = true ->
        exists n,
          round2 (S754_finite s m e)
          = match n with
            | Zpos d => div (S754_finite s d 0) (of_Z 100)
            | _ => S754_zero s
            end
          /\ (0 <= e -> n = Zpos m * 2 ^ e * 100)
          /\ (e < 0 ->
              200 * Zpos m - 2 ^ (- e) < 2 ^ (1 - e) * n
              <= 200 * Zpos m + 2 ^ (- e)))
  /\ (forall serviceType,
        ServiceType.shortLengthRate serviceType = 80 ->
        ServiceType.mediumLengthRate serviceType = 100 ->
        ServiceType.longLengthRate serviceType = 150 ->
        ServiceType.designUsageRate serviceType = None ->
        calculateAdjustedUsageAmount serviceType (decimal 5 1) SHORT
        = decimal 4 1
        /\ calculateAdjustedUsageAmount serviceType (decimal 5 1) MEDIUM
           = decimal 5 1
        /\ calculateAdjustedUsageAmount serviceType (decimal 5 1) LONG
           = decimal 75 2)
  /\ (forall serviceType,
        ServiceType.shortLengthRate serviceType = 80 ->
        ServiceType.mediumLengthRate serviceType = 100 ->
        ServiceType.longLengthRate serviceType = 130 ->
        ServiceType.designUsageRate serviceType = Some (decimal 125 2) ->
        Math_round (mul (of_Z 130) (decimal 125 2)) = of_Z 163
        /\ calculateAdjustedUsageAmount serviceType (of_Z 10) SHORT = of_Z 10
        /\ calculateAdjustedUsageAmount serviceType (of_Z 10) MEDIUM
           = decimal 125 1
        /\ calculateAdjustedUsageAmount serviceType (of_Z 10) LONG
           = decimal 163 1).
Proof.
  split; [|split; [|split; [|split]]].
  - intros st base len.
    unfold calculateAdjustedUsageAmount, round2, lengthRate. cbv zeta.
    destruct len; destruct (ServiceType.designUsageRate st) as [[z|i| |z m e]|];
      reflexivity.
  - intros s m e. split; [apply Math_round_nearest|].
    split; [|split; reflexivity].
    intros He. unfold Math_round.
    destruct (Z.leb_spec 0 e); [reflexivity|lia].
  - intros s m e Hlt. exists (nearest_scaled m e 2). split; [|split].
    + unfold round2, toFixed. rewrite Hlt. reflexivity.
    + intros He. unfold nearest_scaled.
      destruct (Z.leb_spec 0 e); [reflexivity | lia].
    + intros He. pose proof (nearest_scaled_spec m e 2 He) as H.
      change (10 ^ Z.of_nat 2) with 100 in H. lia.
  - intros st Hs Hm Hl Hd.
    unfold calculateAdjustedUsageAmount. rewrite Hs, Hm, Hl, Hd.
    repeat split; vm_compute; reflexivity.
  - intros st Hs Hm Hl Hd.
    unfold calculateAdjustedUsageAmount. rewrite Hs, Hm, Hl, Hd.
    repeat split; vm_compute; reflexivity.
Qed.

Lemma calculateAdjustedUsageAmount_spec_witness :
  (calculateAdjustedUsageAmount ex_serviceType (decimal 5 1) SHORT
   = decimal 4 1
   /\ calculateAdjustedUsageAmount ex_serviceType (decimal 5 1) MEDIUM
      = decimal 5 1
   /\ calculateAdjustedUsageAmount ex_serviceType (decimal 5 1) LONG
      = decimal 75 2)
  /\ (Math_round (mul (of_Z 130) (decimal 125 2)) = of_Z 163
      /\ calculateAdjustedUsageAmount ex_french (of_Z 10) SHORT = of_Z 10
      /\ calculateAdjustedUsageAmount ex_french (of_Z 10) MEDIUM
         = decimal 125 1
      /\ calculateAdjustedUsageAmount ex_french (of_Z 10) LONG
         = decimal 163 1)
  /\ calculateAdjustedUsageAmount ex_french (of_Z 10) LONG
     <> round2 (mul (of_Z 10)
                  (div (mul (of_Z 130) (decimal 125 2)) (of_Z 100))).
Proof.
  destruct calculateAdjustedUsageAmount_spec as (_ & _ & _ & Hplain & Hdesign).
  split; [apply (Hplain ex_serviceType); reflexivity|].
  split; [apply (Hdesign ex_french); reflexivity|].
  vm_compute. discriminate.
Defined.

(** * Further properties of the inventory service *)

(** ** Lookups after an update *)

Lemma find_by_id_update_where_same {A} (key : A -> Id) k (f : A -> A) rows :
  (forall r, key (f r) = key r) ->
  find_by_id key k (update_where key k f rows)
  = option_map f (find_by_id key k rows).
Proof.
  intros Hf. unfold find_by_id, update_where.
  induction rows as [|x t IH]; simpl; [reflexivity|].
  destruct (N.eqb (key x) k) eqn:E.
  - now rewrite Hf, E.
  - now rewrite E.
Qed.

Lemma find_by_id_update_where_other {A} (key : A -> Id) k k' (f : A -> A) rows :
  (forall r, key (f r) = key r) -> k' <> k ->
  find_by_id key k' (update_where key k f rows) = find_by_id key k' rows.
Proof.
  intros Hf Hne. unfold find_by_id, update_where.
  induction rows as [|x t IH]; simpl; [reflexivity|].
  destruct (N.eqb (key x) k) eqn:E.
  - rewrite Hf. apply N.eqb_eq in E.
    destruct (N.eqb (key x) k') eqn:E'; [apply N.eqb_eq in E'; congruence|].
    exact IH.
  - destruct (N.eqb (key x) k'); [reflexivity | exact IH].
Qed.

Lemma map_key_update_where {A} (key : A -> Id) k (f : A -> A) rows :
  (forall r, key (f r) = key r) ->
  map key (update_where key k f rows) = map key rows.
Proof.
  intros Hf. unfold update_where. rewrite map_map. apply map_ext.
  intros r. destruct (N.eqb (key r) k); [apply Hf | reflexivity].
Qed.

Lemma user_known_find userId (ids : list Id) :
  find (N.eqb userId) ids <> None <-> In userId ids.
Proof.
  split.
  - intros H. destruct (find (N.eqb userId) ids) as [x|] eqn:E; [|congruence].
    apply find_some in E. destruct E as [Hin Heq].
    apply N.eqb_eq in Heq. now subst.
  - intros H. now rewrite (find_eqb_In _ _ H).
Qed.

(** ** Opening a lot: [startUsingProduct] *)

(** The whole behaviour of [startUsingProduct], decided on the store it is
    called on. *)
Lemma startUsingProduct_run lotId userId now db :
  startUsingProduct lotId userId now db
  = match find_by_id ProductLot.id lotId (productLots db) with
    | None => Throw (LotNotFound lotId) db
    | Some lot =>
        if ProductLot.isInUse lot then Throw (LotAlreadyInUse lotId) db
        else
          match find (N.eqb userId) (users db) with
          | None => Throw (UserNotFound userId) db
          | Some _ =>
              match find_by_id Product.id (ProductLot.productId lot)
                      (products db) with
              | None => Throw (CapacityOfNull lotId) db
              | Some _ =>
                  Ok (start_using (capacityOf (ProductLot.productId lot) db)
                        now lot)
                     (afterStart lotId userId now lot db)
              end
          end
    end.
Proof.
  unfold startUsingProduct, productLot_findUnique_product, transaction,
    capacityOf, afterStart.
  unfold_db.
  destruct (find_by_id ProductLot.id lotId (productLots db)) as [lot|];
    [|reflexivity].
  destruct (ProductLot.isInUse lot); [reflexivity|].
  destruct (find (N.eqb userId) (users db)); [|reflexivity].
  destruct (find_by_id Product.id (ProductLot.productId lot) (products db))
    eqn:E; [|reflexivity].
  unfold capacityOf. now rewrite E.
Qed.

(** X1.  [startUsingProduct] refuses a lot it cannot find (NotFound), a lot
    that is already in use (Conflict) and a user it cannot find (NotFound),
    in that order; whenever it throws, the store is as it was. *)
Theorem startUsingProduct_refusals lotId userId now db :
  (find_by_id ProductLot.id lotId (productLots db) = None ->
   startUsingProduct lotId userId now db = Throw (LotNotFound lotId) db
   /\ error_kind (LotNotFound lotId) = NotFound)
  /\ (forall lot,
        find_by_id ProductLot.id lotId (productLots db) = Some lot ->
        ProductLot.isInUse lot = true ->
        startUsingProduct lotId userId now db = Throw (LotAlreadyInUse lotId) db
        /\ error_kind (LotAlreadyInUse lotId) = Conflict)
  /\ (forall lot,
        find_by_id ProductLot.id lotId (productLots db) = Some lot ->
        ProductLot.isInUse lot = false ->
        ~ In userId (users db) ->
        startUsingProduct lotId userId now db = Throw (UserNotFound userId) db
        /\ error_kind (UserNotFound userId) = NotFound)
  /\ (forall e db',
        startUsingProduct lotId userId now db = Throw e db' -> db' = db).
Proof.
  rewrite startUsingProduct_run. split; [|split; [|split]].
  - intros Hnone. now rewrite Hnone.
  - intros lot Hlot Huse. now rewrite Hlot, Huse.
  - intros lot Hlot Huse Huser.
    rewrite Hlot, Huse. now rewrite (find_eqb_not_In _ _ Huser).
  - intros e db'.
    destruct (find_by_id ProductLot.id lotId (productLots db)) as [lot|];
      [|now intros [= _ <-]].
    destruct (ProductLot.isInUse lot); [now intros [= _ <-]|].
    destruct (find (N.eqb userId) (users db)); [|now intros [= _ <-]].
    destruct (find_by_id Product.id (ProductLot.productId lot) (products db));
      [discriminate|].
    now intros [= _ <-].
Qed.

Lemma startUsingProduct_refusals_witness :
  startUsingProduct 20%N 2%N 1000 salon = Throw (LotAlreadyInUse 20%N) salon
  /\ error_kind (LotAlreadyInUse 20%N) = Conflict.
Proof.
  destruct (startUsingProduct_refusals 20%N 2%N 1000 salon) as (_ & H & _).
  apply (H (ProductLot.mk 20%N 10%N true (Some (of_Z 15)) (Some 200) 0));
    reflexivity.
Defined.

Lemma start_using_shape capacity now l :
  ProductLot.id (start_using capacity now l) = ProductLot.id l
  /\ ProductLot.productId (start_using capacity now l) = ProductLot.productId l.
Proof. split; reflexivity. Qed.

Lemma started_id lotId capacity now l :
  ProductLot.id (started lotId capacity now l) = ProductLot.id l.
Proof. unfold started. now destruct (N.eqb _ _). Qed.

Lemma started_productId lotId capacity now l :
  ProductLot.productId (started lotId capacity now l) = ProductLot.productId l.
Proof. unfold started. now destruct (N.eqb _ _). Qed.

Lemma move_to_inUse_id now p :
  Product.id (move_to_inUse now p) = Product.id p.
Proof. reflexivity. Qed.

(** X2.  On an unopened lot whose product exists, for a known user,
    [startUsingProduct] succeeds: the lot is then in use, holds the
    capacity of its product and is dated [now]; the lots with another id
    are as before; the product has one unopened lot less and one lot in use
    more, with the same total, and the other products are as before. *)
Theorem startUsingProduct_opens_lot lotId userId now db lot p :
  find_by_id ProductLot.id lotId (productLots db) = Some lot ->
  ProductLot.isInUse lot = false ->
  In userId (users db) ->
  find_by_id Product.id (ProductLot.productId lot) (products db) = Some p ->
  exists updatedLot db',
    startUsingProduct lotId userId now db = Ok updatedLot db'
    /\ find_by_id ProductLot.id lotId (productLots db') = Some updatedLot
    /\ ProductLot.id updatedLot = lotId
    /\ ProductLot.productId updatedLot = ProductLot.productId lot
    /\ ProductLot.isInUse updatedLot = true
    /\ ProductLot.currentAmount updatedLot = Product.capacity p
    /\ ProductLot.startedAt updatedLot = Some now
    /\ Forall2 (fun l l' => ProductLot.id l <> lotId -> l' = l)
         (productLots db) (productLots db')
    /\ (exists p',
          find_by_id Product.id (ProductLot.productId lot) (products db')
          = Some p'
          /\ Product.lotQuantity p' = Product.lotQuantity p - 1
          /\ Product.inUseQuantity p' = Product.inUseQuantity p + 1
          /\ Product.totalQuantity p' = Product.totalQuantity p)
    /\ Forall2
         (fun q q' => Product.id q <> ProductLot.productId lot -> q' = q)
         (products db) (products db').
Proof.
  intros Hlot Huse Huser Hp.
  rewrite startUsingProduct_run, Hlot, Huse, (find_eqb_In _ _ Huser), Hp.
  assert (Hcap : capacityOf (ProductLot.productId lot) db = Product.capacity p)
    by (unfold capacityOf; now rewrite Hp).
  rewrite Hcap.
  eexists. eexists. split; [reflexivity|]. unfold afterStart. simpl.
  split.
  { change (map (started lotId (capacityOf (ProductLot.productId lot) db) now)
              (productLots db))
      with (update_where ProductLot.id lotId
              (start_using (capacityOf (ProductLot.productId lot) db) now)
              (productLots db)).
    rewrite find_by_id_update_where_same by reflexivity.
    now rewrite Hlot, Hcap. }
  split; [exact (find_by_id_key _ _ _ _ Hlot)|].
  repeat (split; [reflexivity|]).
  split.
  { apply Forall2_map_self. intros l _ Hne. unfold started.
    destruct (N.eqb (ProductLot.id l) lotId) eqn:E; [|reflexivity].
    apply N.eqb_eq in E. congruence. }
  split.
  { exists (move_to_inUse now p). split; [|repeat split].
    rewrite find_by_id_update_where_same by reflexivity. now rewrite Hp. }
  apply Forall2_map_self. intros q _ Hne.
  destruct (N.eqb (Product.id q) (ProductLot.productId lot)) eqn:E;
    [|reflexivity].
  apply N.eqb_eq in E. congruence.
Qed.

Lemma startUsingProduct_opens_lot_witness :
  exists updatedLot db',
    startUsingProduct 23%N 2%N 1000 salon = Ok updatedLot db'
    /\ ProductLot.isInUse updatedLot = true
    /\ ProductLot.currentAmount updatedLot = Some (of_Z 15)
    /\ ProductLot.startedAt updatedLot = Some 1000.
Proof.
  destruct (startUsingProduct_opens_lot 23%N 2%N 1000 salon
              (ProductLot.mk 23%N 12%N false None None 0)
              (ex_product 12%N "Top" 1 0 1))
    as (l & db' & H1 & _ & _ & _ & H5 & H6 & H7 & _).
  - reflexivity.
  - reflexivity.
  - simpl. left. reflexivity.
  - reflexivity.
  - exists l, db'. auto.
Defined.

(** X3.  Opening a lot is not repeatable: once [startUsingProduct] has
    succeeded on a lot, every further call on that lot fails with Conflict
    and leaves the store as the first call left it. *)
Theorem startUsingProduct_twice_conflict lotId userId now db updatedLot db' :
  startUsingProduct lotId userId now db = Ok updatedLot db' ->
  forall userId' now',
    startUsingProduct lotId userId' now' db' = Throw (LotAlreadyInUse lotId) db'
    /\ error_kind (LotAlreadyInUse lotId) = Conflict.
Proof.
  rewrite startUsingProduct_run.
  destruct (find_by_id ProductLot.id lotId (productLots db)) as [lot|] eqn:Hlot;
    [|discriminate].
  destruct (ProductLot.isInUse lot) eqn:Huse; [discriminate|].
  destruct (find (N.eqb userId) (users db)); [|discriminate].
  destruct (find_by_id Product.id (ProductLot.productId lot) (products db));
    [|discriminate].
  intros [= <- <-] userId' now'. split; [|reflexivity].
  rewrite startUsingProduct_run. unfold afterStart at 1. simpl.
  change (map (started lotId (capacityOf (ProductLot.productId lot) db) now)
            (productLots db))
    with (update_where ProductLot.id lotId
            (start_using (capacityOf (ProductLot.productId lot) db) now)
            (productLots db)).
  rewrite find_by_id_update_where_same by reflexivity.
  rewrite Hlot. reflexivity.
Qed.

Lemma startUsingProduct_twice_conflict_witness :
  exists updatedLot db',
    startUsingProduct 23%N 2%N 1000 salon = Ok updatedLot db'
    /\ startUsingProduct 23%N 2%N 2000 db' = Throw (LotAlreadyInUse 23%N) db'.
Proof.
  destruct (startUsingProduct 23%N 2%N 1000 salon) as [l db'|e db'] eqn:E;
    [|vm_compute in E; discriminate].
  exists l, db'. split; [reflexivity|].
  exact (proj1 (startUsingProduct_twice_conflict _ _ _ _ _ _ E 2%N 2000)).
Defined.

Lemma started_absent lotId capacity now lots :
  ~ In lotId (map ProductLot.id lots) ->
  map (started lotId capacity now) lots = lots.
Proof.
  induction lots as [|x t IH]; simpl; intros Hn; [reflexivity|].
  unfold started at 1.
  destruct (N.eqb (ProductLot.id x) lotId) eqn:E.
  - apply N.eqb_eq in E. tauto.
  - rewrite IH by tauto. reflexivity.
Qed.

(** Opening one unopened lot moves exactly one lot of its product from the
    unopened ones to the ones in use. *)
Lemma started_counts capacity now lot lots :
  NoDup (map ProductLot.id lots) ->
  In lot lots ->
  ProductLot.isInUse lot = false ->
  let of_product l :=
    N.eqb (ProductLot.productId l) (ProductLot.productId lot) in
  let lots' := map (started (ProductLot.id lot) capacity now) lots in
  List.length (filter of_product lots') = List.length (filter of_product lots)
  /\ List.length (filter ProductLot.isInUse (filter of_product lots'))
     = S (List.length (filter ProductLot.isInUse (filter of_product lots)))
  /\ S (List.length (filter (fun l => negb (ProductLot.isInUse l))
                       (filter of_product lots')))
     = List.length (filter (fun l => negb (ProductLot.isInUse l))
                      (filter of_product lots)).
Proof.
  intros Hnd Hin Huse of_product. unfold of_product. clear of_product.
  induction lots as [|x t IH]; [destruct Hin|].
  simpl in Hnd. inversion Hnd as [|? ? Hx Ht]; subst.
  destruct Hin as [->|Hin].
  - cbn [map]. rewrite (started_absent _ _ _ _ Hx).
    unfold started. rewrite N.eqb_refl. simpl. rewrite !N.eqb_refl. simpl.
    rewrite Huse. simpl. auto.
  - assert (Hne : ProductLot.id x <> ProductLot.id lot).
    { intros E. apply Hx. rewrite E. now apply in_map. }
    apply N.eqb_neq in Hne.
    specialize (IH Ht Hin). cbn [map]. unfold started at 1 3 5.
    rewrite Hne. cbn [filter].
    destruct (N.eqb (ProductLot.productId x) (ProductLot.productId lot));
      [|exact IH].
    cbn [filter]. destruct (ProductLot.isInUse x); cbn [negb List.length];
      destruct IH as (H1 & H2 & H3); repeat split; congruence.
Qed.

(** X4.  With unique lot ids, [startUsingProduct] keeps the counters of the
    lot's product in step with its lots: if before the call they are the
    numbers of its lots, of its lots in use and of its unopened lots, they
    are so after it. *)
Theorem startUsingProduct_keeps_counters lotId userId now db updatedLot db' p :
  unique_lot_ids db ->
  startUsingProduct lotId userId now db = Ok updatedLot db' ->
  find_by_id Product.id (ProductLot.productId updatedLot) (products db)
  = Some p ->
  counters_match_lots p db ->
  exists p',
    find_by_id Product.id (ProductLot.productId updatedLot) (products db')
    = Some p'
    /\ counters_match_lots p' db'.
Proof.
  intros Hnd. rewrite startUsingProduct_run.
  destruct (find_by_id ProductLot.id lotId (productLots db)) as [lot|] eqn:Hlot;
    [|discriminate].
  destruct (ProductLot.isInUse lot) eqn:Huse; [discriminate|].
  destruct (find (N.eqb userId) (users db)); [|discriminate].
  destruct (find_by_id Product.id (ProductLot.productId lot) (products db))
    as [p0|]; [|discriminate].
  intros [= <- <-]. cbn [start_using ProductLot.productId].
  intros Hp (H1 & H2 & H3).
  exists (move_to_inUse now p). unfold afterStart. cbn [products productLots].
  split; [rewrite find_by_id_update_where_same by reflexivity; now rewrite Hp|].
  pose proof (find_by_id_key _ _ _ _ Hp) as Hpid.
  pose proof (find_by_id_key _ _ _ _ Hlot) as Hid.
  destruct (started_counts (capacityOf (ProductLot.productId lot) db) now lot
              (productLots db) Hnd (find_by_id_In _ _ _ _ Hlot) Huse)
    as (C1 & C2 & C3).
  rewrite Hid in C1, C2, C3.
  unfold counters_match_lots, lotsOf in *. cbn [products productLots].
  rewrite move_to_inUse_id, Hpid in *.
  cbn [move_to_inUse Product.totalQuantity Product.inUseQuantity
       Product.lotQuantity].
  rewrite C1, C2. repeat split; lia.
Qed.

Lemma startUsingProduct_keeps_counters_witness :
  counters_match_lots (ex_product 12%N "Top" 1 0 1) salon
  /\ exists updatedLot db' p',
       startUsingProduct 23%N 2%N 1000 salon = Ok updatedLot db'
       /\ find_by_id Product.id 12%N (products db') = Some p'
       /\ counters_match_lots p' db'.
Proof.
  assert (Hc : counters_match_lots (ex_product 12%N "Top" 1 0 1) salon)
    by (repeat split).
  split; [exact Hc|].
  destruct (startUsingProduct 23%N 2%N 1000 salon) as [l db'|e db'] eqn:E;
    [|vm_compute in E; discriminate].
  assert (Hl : ProductLot.productId l = 12%N)
    by (vm_compute in E; injection E as <- _; reflexivity).
  destruct (startUsingProduct_keeps_counters 23%N 2%N 1000 salon l db'
              (ex_product 12%N "Top" 1 0 1) salon_unique_lot_ids E)
    as (p' & H1 & H2).
  - rewrite Hl. reflexivity.
  - exact Hc.
  - rewrite Hl in H1. exists l, db', p'. auto.
Defined.

(** ** Adding stock: [addProductStock] *)

Lemma addProductStock_run params now db :
  addProductStock params now db
  = match find_by_id Product.id (AddProductStockParams.productId params)
            (products db) with
    | None => Throw (ProductNotFound (AddProductStockParams.productId params)) db
    | Some _ =>
        match find (N.eqb (AddProductStockParams.addedBy params)) (users db) with
        | None => Throw (UserNotFound (AddProductStockParams.addedBy params)) db
        | Some _ => Ok (stockLot params now (nextId db)) (afterAdd params now db)
        end
    end.
Proof.
  unfold addProductStock, transaction, stockLot, afterAdd. unfold_db.
  destruct (find_by_id Product.id _ (products db)); [|reflexivity].
  destruct (find (N.eqb _) (users db)); reflexivity.
Qed.

(** X5.  [addProductStock] refuses a product it cannot find, then a user it
    cannot find, both with NotFound; whenever it throws, the store is as it
    was: no lot has been created and no counter moved. *)
Theorem addProductStock_refusals params now db :
  (find_by_id Product.id (AddProductStockParams.productId params) (products db)
   = None ->
   addProductStock params now db
   = Throw (ProductNotFound (AddProductStockParams.productId params)) db)
  /\ (forall p,
        find_by_id Product.id (AddProductStockParams.productId params)
          (products db) = Some p ->
        ~ In (AddProductStockParams.addedBy params) (users db) ->
        addProductStock params now db
        = Throw (UserNotFound (AddProductStockParams.addedBy params)) db)
  /\ (forall e db',
        addProductStock params now db = Throw e db' ->
        db' = db /\ error_kind e = NotFound).
Proof.
  rewrite addProductStock_run. split; [|split].
  - intros Hnone. now rewrite Hnone.
  - intros p Hp Huser. rewrite Hp. now rewrite (find_eqb_not_In _ _ Huser).
  - intros e db'.
    destruct (find_by_id Product.id _ (products db));
      [|now intros [= <- <-]].
    destruct (find (N.eqb _) (users db)); [discriminate|].
    now intros [= <- <-].
Qed.

Lemma addProductStock_refusals_witness :
  addProductStock (AddProductStockParams.mk 12%N 1 None None 9%N) 1000 salon
  = Throw (UserNotFound 9%N) salon.
Proof.
  destruct (addProductStock_refusals
              (AddProductStockParams.mk 12%N 1 None None 9%N) 1000 salon)
    as (_ & H & _).
  apply (H (ex_product 12%N "Top" 1 0 1)); [reflexivity|].
  simpl. intuition discriminate.
Defined.

Lemma increment_stock_id quantity isInUse now p :
  Product.id (increment_stock quantity isInUse now p) = Product.id p.
Proof. reflexivity. Qed.

(** X6.  Adding one unit keeps the counters in step with the lots: with
    [quantity = 1], opened or not, if the product's counters are the
    numbers of its lots, of its lots in use and of its unopened lots before
    the call, they are so after it. *)
Theorem addProductStock_one_keeps_counters params now db productLot db' p :
  AddProductStockParams.quantity params = 1 ->
  addProductStock params now db = Ok productLot db' ->
  find_by_id Product.id (AddProductStockParams.productId params) (products db)
  = Some p ->
  counters_match_lots p db ->
  exists p',
    find_by_id Product.id (AddProductStockParams.productId params)
      (products db') = Some p'
    /\ counters_match_lots p' db'.
Proof.
  intros Hq. rewrite addProductStock_run.
  intros Hrun Hp (H1 & H2 & H3). rewrite Hp in Hrun.
  destruct (find (N.eqb _) (users db)); [|discriminate].
  injection Hrun as <- <-.
  pose proof (find_by_id_key _ _ _ _ Hp) as Hpid.
  exists (increment_stock 1
            (or_default false (AddProductStockParams.isInUse params)) now p).
  unfold afterAdd. cbn [products productLots]. rewrite Hq.
  split; [rewrite find_by_id_update_where_same by reflexivity; now rewrite Hp|].
  unfold counters_match_lots, lotsOf in *. cbn [productLots].
  rewrite increment_stock_id, Hpid in *.
  rewrite !filter_app. cbn [filter stockLot ProductLot.productId].
  rewrite !N.eqb_refl. rewrite !length_app.
  cbn [increment_stock Product.totalQuantity Product.inUseQuantity
       Product.lotQuantity].
  unfold stockLot. cbn [ProductLot.isInUse].
  destruct (or_default false (AddProductStockParams.isInUse params));
    cbn [filter ProductLot.isInUse negb List.length]; repeat split; lia.
Qed.

Lemma addProductStock_one_keeps_counters_witness :
  counters_match_lots (ex_product 12%N "Top" 1 0 1) salon
  /\ exists productLot db' p',
       addProductStock (AddProductStockParams.mk 12%N 1 None None 2%N) 1000
         salon = Ok productLot db'
       /\ find_by_id Product.id 12%N (products db') = Some p'
       /\ counters_match_lots p' db'.
Proof.
  assert (Hc : counters_match_lots (ex_product 12%N "Top" 1 0 1) salon)
    by (repeat split).
  split; [exact Hc|].
  destruct (addProductStock (AddProductStockParams.mk 12%N 1 None None 2%N)
              1000 salon) as [l db'|e db'] eqn:E;
    [|vm_compute in E; discriminate].
  destruct (addProductStock_one_keeps_counters
              (AddProductStockParams.mk 12%N 1 None None 2%N) 1000 salon l db'
              (ex_product 12%N "Top" 1 0 1) eq_refl E eq_refl Hc)
    as (p' & H1 & H2).
  exists l, db', p'. auto.
Defined.

(** ** The outcome of [recordProductUsage] *)

Lemma availableb_after_draw now db db1 d productId :
  products db1 = products db ->
  productLots db1 = map (draw now d) (productLots db) ->
  availableb db1 productId = availableb db productId.
Proof.
  unfold availableb. intros -> ->.
  rewrite (oldestInUse_map _ (draw_shape now d)).
  destruct (find_by_id Product.id productId (products db)); [|reflexivity].
  now destruct (oldestInUse productId (productLots db)).
Qed.

Lemma find_pointwise {A} (f g : A -> bool) xs :
  (forall x, f x = g x) -> find f xs = find g xs.
Proof.
  intros H. induction xs as [|x t IH]; simpl; [reflexivity|].
  rewrite H, IH. reflexivity.
Qed.

Lemma recordRelated_run uid now r db :
  recordRelated uid now r db
  = match find_by_id Product.id (RelatedEntry.productId r) (products db),
          oldestInUse (RelatedEntry.productId r) (productLots db) with
    | Some _, Some lot =>
        Ok tt
          (mkDB (stores db) (users db) (products db)
             (map (draw now (ProductLot.id lot, RelatedEntry.amount r))
                (productLots db))
             (serviceTypes db) (usages db)
             (relatedProductUsages db
              ++ relatedRows uid (nextId db) [(r, ProductLot.id lot)])
             (activities db) (monthlyServiceStats db) (N.succ (nextId db)))
    | _, _ => Throw (NoAvailableRelatedLots (RelatedEntry.productId r)) db
    end.
Proof.
  unfold recordRelated, oldestInUse. unfold_db.
  destruct (find_by_id Product.id (RelatedEntry.productId r) (products db))
    as [p|] eqn:Hp; [|reflexivity].
  rewrite (find_by_id_key _ _ _ _ Hp).
  destruct (inUseLots (RelatedEntry.productId r) (productLots db));
    reflexivity.
Qed.

Lemma forEach_cons {A} (x : A) xs (body : A -> M unit) db :
  forEach (x :: xs) body db
  = match body x db with
    | Ok _ db1 => forEach xs body db1
    | Throw e db1 => Throw e db1
    end.
Proof. reflexivity. Qed.

(** The loop stops at the first entry that cannot be served, and only
    there. *)
Lemma forEach_recordRelated_run uid now rels : forall db,
  match find (fun r => negb (availableb db (RelatedEntry.productId r))) rels with
  | Some r =>
      exists db'',
        forEach rels (recordRelated uid now) db
        = Throw (NoAvailableRelatedLots (RelatedEntry.productId r)) db''
  | None => exists db', forEach rels (recordRelated uid now) db = Ok tt db'
  end.
Proof.
  induction rels as [|r t IH]; intros db.
  - simpl. now exists db.
  - cbn [find]. rewrite forEach_cons, recordRelated_run.
    unfold availableb at 1.
    destruct (find_by_id Product.id (RelatedEntry.productId r) (products db))
      as [p|]; [|cbn [negb]; now exists db].
    destruct (oldestInUse (RelatedEntry.productId r) (productLots db))
      as [lot|]; [|cbn [negb]; now exists db].
    cbn [negb].
    match goal with
    | |- context [forEach t _ ?d] => specialize (IH d);
        rewrite (find_pointwise _
                   (fun r0 => negb (availableb db (RelatedEntry.productId r0))))
          in IH
    end.
    + exact IH.
    + intros x. f_equal.
      apply availableb_after_draw with (now := now)
        (d := (ProductLot.id lot, RelatedEntry.amount r)); reflexivity.
Qed.

Lemma served_servingLots db rels ks :
  Forall2 (served db) rels ks -> ks = servingLots db rels.
Proof.
  induction 1 as [|r k rels ks [_ (lot & Hl & Hk)] _ IH]; simpl;
    [reflexivity|].
  rewrite Hl, Hk, IH. reflexivity.
Qed.

Lemma recordUsageTx_run params now serviceType usedLot db :
  match find (fun r => negb (availableb db (RelatedEntry.productId r)))
          (or_default [] (RecordProductUsageParams.relatedProducts params)) with
  | Some r =>
      exists db'',
        recordUsageTx params now serviceType usedLot db
        = Throw (NoAvailableRelatedLots (RelatedEntry.productId r)) db''
  | None =>
      recordUsageTx params now serviceType usedLot db
      = Ok (usageRow params now serviceType usedLot (nextId db))
          (afterUsage params now serviceType usedLot
             (servingLots db
                (or_default []
                   (RecordProductUsageParams.relatedProducts params)))
             db)
  end.
Proof.
  destruct (find _ _) as [r|] eqn:Hfind.
  - unfold recordUsageTx. unfold_db.
    match goal with
    | |- context [forEach ?rels ?body ?d] =>
        pose proof (forEach_recordRelated_run (nextId db) now rels d) as Hrun
    end.
    rewrite (find_pointwise _
               (fun r0 => negb (availableb db (RelatedEntry.productId r0))))
      in Hrun.
    + rewrite Hfind in Hrun. destruct Hrun as (db'' & ->). now exists db''.
    + intros x. f_equal.
      apply availableb_after_draw with (now := now)
        (d := (ProductLot.id usedLot,
               RecordProductUsageParams.usageAmount params));
        reflexivity.
  - destruct (recordUsageTx params now serviceType usedLot db)
      as [usage db'|e db'] eqn:E.
    + apply recordUsageTx_Ok in E. destruct E as (ks & Hks & -> & ->).
      now rewrite (served_servingLots _ _ _ Hks).
    + exfalso. revert E. unfold recordUsageTx. unfold_db.
      match goal with
      | |- context [forEach ?rels ?body ?d] =>
          pose proof (forEach_recordRelated_run (nextId db) now rels d) as Hrun
      end.
      rewrite (find_pointwise _
                 (fun r0 => negb (availableb db (RelatedEntry.productId r0))))
        in Hrun.
      * rewrite Hfind in Hrun. destruct Hrun as (db3 & ->). discriminate.
      * intros x. f_equal.
        apply availableb_after_draw with (now := now)
          (d := (ProductLot.id usedLot,
                 RecordProductUsageParams.usageAmount params));
          reflexivity.
Qed.

(** X7.  The outcome of [recordProductUsage], decided on the store the call
    starts from.  The checks are made in this order and the first that
    fails names the error: product missing, no lot in use, service type
    missing, user missing, primary lot short of the amount, and then the
    first related entry whose product is missing or has no lot in use.
    Every failure leaves the store as it was.  If none fails the call
    returns the usage row and leaves [afterUsage]: the quantity of a related
    entry is never compared with anything. *)
Theorem recordProductUsage_outcome params now db :
  recordProductUsage params now db
  = let productId := RecordProductUsageParams.productId params in
    let serviceTypeId := RecordProductUsageParams.serviceTypeId params in
    let usageAmount := RecordProductUsageParams.usageAmount params in
    let recordedBy := RecordProductUsageParams.recordedBy params in
    let related :=
      or_default [] (RecordProductUsageParams.relatedProducts params) in
    match find_by_id Product.id productId (products db) with
    | None => Throw (ProductNotFound productId) db
    | Some product =>
        match oldestInUse productId (productLots db) with
        | None => Throw (NoAvailableLots (Product.productName product)) db
        | Some usedLot =>
            match find_by_id ServiceType.id serviceTypeId (serviceTypes db) with
            | None => Throw (ServiceTypeNotFound serviceTypeId) db
            | Some serviceType =>
                match find (N.eqb recordedBy) (users db) with
                | None => Throw (UserNotFound recordedBy) db
                | Some _ =>
                    match notEnough usedLot usageAmount with
                    | Some c => Throw (NotEnoughLeft c usageAmount) db
                    | None =>
                        match find (fun r =>
                                      negb (availableb db
                                              (RelatedEntry.productId r)))
                                related with
                        | Some r =>
                            Throw (NoAvailableRelatedLots
                                     (RelatedEntry.productId r)) db
                        | None =>
                            Ok (usageRow params now serviceType usedLot
                                  (nextId db))
                               (afterUsage params now serviceType usedLot
                                  (servingLots db related) db)
                        end
                    end
                end
            end
        end
    end.
Proof.
  cbv zeta.
  unfold recordProductUsage, oldestInUse. unfold_db.
  destruct (find_by_id Product.id _ (products db)) as [p|] eqn:Hp;
    [|reflexivity].
  rewrite (find_by_id_key _ _ _ _ Hp).
  destruct (inUseLots _ (productLots db)) as [|usedLot rest]; [reflexivity|].
  cbn [hd_error].
  destruct (find_by_id ServiceType.id _ (serviceTypes db)) as [st|];
    [|reflexivity].
  destruct (find (N.eqb _) (users db)); [|reflexivity].
  destruct (notEnough usedLot _); [reflexivity|].
  unfold transaction.
  pose proof (recordUsageTx_run params now st usedLot db) as Hrun.
  destruct (find _ (or_default [] _)) as [r|].
  - destruct Hrun as (db'' & ->). reflexivity.
  - now rewrite Hrun.
Qed.

Lemma map_fixed {A} (f : A -> A) xs :
  (forall x, In x xs -> f x = x) -> map f xs = xs.
Proof.
  induction xs as [|x t IH]; simpl; intros H; [reflexivity|].
  rewrite H by now left. rewrite IH; [reflexivity|]. intros y Hy. apply H.
  now right.
Qed.

Lemma decrement_unmeasured n now l :
  ProductLot.currentAmount l = None ->
  decrement_currentAmount n now l
  = ProductLot.mk (ProductLot.id l) (ProductLot.productId l)
      (ProductLot.isInUse l) None (ProductLot.startedAt l) now.
Proof.
  destruct l as [i p u c s t]. simpl. intros ->. reflexivity.
Qed.

(** X8.  A lot in use whose [currentAmount] is null is never short: with
    unique lot ids, a usage without related entries drawn from such a lot
    succeeds for any amount and records the lot in the [Usage] row.  The
    lot's [currentAmount] stays null: the lot keeps every column but the
    stamp [updatedAt], which becomes the time of the call, and every other
    lot is exactly as it was. *)
Theorem usage_from_unmeasured_lot params now db product usedLot serviceType :
  unique_lot_ids db ->
  find_by_id Product.id (RecordProductUsageParams.productId params)
    (products db) = Some product ->
  oldestInUse (RecordProductUsageParams.productId params) (productLots db)
  = Some usedLot ->
  ProductLot.currentAmount usedLot = None ->
  find_by_id ServiceType.id (RecordProductUsageParams.serviceTypeId params)
    (serviceTypes db) = Some serviceType ->
  In (RecordProductUsageParams.recordedBy params) (users db) ->
  or_default [] (RecordProductUsageParams.relatedProducts params) = [] ->
  exists usage db',
    recordProductUsage params now db = Ok usage db'
    /\ Usage.usedLotId usage = Some (ProductLot.id usedLot)
    /\ Usage.usageAmount usage = RecordProductUsageParams.usageAmount params
    /\ Forall2
         (fun l l' =>
            (ProductLot.id l <> ProductLot.id usedLot -> l' = l)
            /\ (ProductLot.id l = ProductLot.id usedLot ->
                l' = ProductLot.mk (ProductLot.id l) (ProductLot.productId l)
                       (ProductLot.isInUse l) None (ProductLot.startedAt l)
                       now))
         (productLots db) (productLots db').
Proof.
  intros Hnd Hp Hu Hc Hs Huser Hrel.
  rewrite recordProductUsage_outcome. cbv zeta.
  rewrite Hp, Hu, Hs, (find_eqb_In _ _ Huser), Hrel.
  unfold notEnough. rewrite Hc. cbn [find].
  eexists. eexists. split; [reflexivity|].
  split; [reflexivity|]. split; [reflexivity|].
  unfold afterUsage. rewrite Hrel. cbn [productLots map combine servingLots].
  apply Forall2_map_self. intros l Hl. unfold apply_draws. cbn [fold_left].
  unfold draw. cbn [fst snd].
  destruct (N.eqb_spec (ProductLot.id l) (ProductLot.id usedLot)) as [E|E].
  - split; [intros H; now elim H|]. intros _.
    destruct (oldestInUse_spec _ _ _ Hu) as (Hin & _).
    assert (l = usedLot)
      by (eapply NoDup_map_In_eq; [exact Hnd| | |]; auto).
    subst l. now apply decrement_unmeasured.
  - split; [reflexivity|]. intros H. now elim E.
Qed.

Lemma salon_unmeasured_unique_lot_ids : unique_lot_ids salon_unmeasured.
Proof.
  unfold unique_lot_ids. simpl.
  repeat constructor; simpl; intuition discriminate.
Defined.

Lemma usage_from_unmeasured_lot_witness :
  exists usage db',
    recordProductUsage (ex_usageOf 13%N (of_Z 1000) []) 1000 salon_unmeasured
    = Ok usage db'
    /\ Usage.usedLotId usage = Some 24%N
    /\ productLots db'
       = productLots salon
         ++ [ProductLot.mk 24%N 13%N true None (Some 10) 1000].
Proof.
  destruct (usage_from_unmeasured_lot (ex_usageOf 13%N (of_Z 1000) []) 1000
              salon_unmeasured (ex_product 13%N "Oil" 1 1 0)
              (ProductLot.mk 24%N 13%N true None (Some 10) 0) ex_serviceType)
    as (usage & db' & H1 & H2 & _ & H4).
  - exact salon_unmeasured_unique_lot_ids.
  - reflexivity.
  - reflexivity.
  - reflexivity.
  - reflexivity.
  - simpl. left. reflexivity.
  - reflexivity.
  - exists usage, db'. split; [exact H1|]. split; [exact H2|].
    vm_compute in H1. injection H1 as _ <-. vm_compute. reflexivity.
Defined.

Lemma find_by_id_unique {A} (key : A -> Id) rows r :
  NoDup (map key rows) -> In r rows -> find_by_id key (key r) rows = Some r.
Proof.
  intros Hnd Hin.
  destruct (find_by_id key (key r) rows) as [r'|] eqn:E.
  - f_equal. eapply NoDup_map_In_eq; [exact Hnd| | |].
    + eapply find_by_id_In; eauto.
    + exact Hin.
    + eapply find_by_id_key; eauto.
  - unfold find_by_id in E. eapply find_none in E; [|exact Hin].
    now rewrite N.eqb_refl in E.
Qed.

(** Subtracting a negative number is adding its magnitude. *)
Lemma sub_negative x m e :
  sub x (S754_finite true m e) = add x (S754_finite false m e).
Proof.
  destruct x as [s|s| |s mx ex]; reflexivity.
Qed.

Lemma ltb_nonnegative_negative c m e :
  nonnegative c -> ltb c (S754_finite true m e) = false.
Proof.
  destruct c as [s|[|]| |[|] mc ec]; simpl; intros H; try reflexivity;
    destruct H.
Qed.

(** X9.  The quantity check does not look at the sign of the amount: a
    negative [usageAmount] is never refused on a lot that holds zero or
    more, and the decrement then adds its magnitude to the lot.  (Unique lot
    ids, no related entries, service type and user known.) *)
Theorem negative_usage_refills_lot
    params now db product usedLot serviceType c m e :
  unique_lot_ids db ->
  find_by_id Product.id (RecordProductUsageParams.productId params)
    (products db) = Some product ->
  oldestInUse (RecordProductUsageParams.productId params) (productLots db)
  = Some usedLot ->
  ProductLot.currentAmount usedLot = Some c ->
  nonnegative c ->
  RecordProductUsageParams.usageAmount params = S754_finite true m e ->
  find_by_id ServiceType.id (RecordProductUsageParams.serviceTypeId params)
    (serviceTypes db) = Some serviceType ->
  In (RecordProductUsageParams.recordedBy params) (users db) ->
  or_default [] (RecordProductUsageParams.relatedProducts params) = [] ->
  exists usage db' lot',
    recordProductUsage params now db = Ok usage db'
    /\ find_by_id ProductLot.id (ProductLot.id usedLot) (productLots db')
       = Some lot'
    /\ ProductLot.currentAmount lot' = Some (add c (S754_finite false m e)).
Proof.
  intros Hnd Hp Hu Hc Hpos Ha Hs Huser Hrel.
  rewrite recordProductUsage_outcome. cbv zeta.
  rewrite Hp, Hu, Hs, (find_eqb_In _ _ Huser), Hrel.
  unfold notEnough. rewrite Hc, Ha, (ltb_nonnegative_negative _ _ _ Hpos).
  cbn [find].
  eexists. eexists. eexists. split; [reflexivity|].
  unfold afterUsage. rewrite Hrel, Ha.
  cbn [productLots map combine servingLots].
  change (map (apply_draws now
                 [(ProductLot.id usedLot, S754_finite true m e)])
            (productLots db))
    with (update_where ProductLot.id (ProductLot.id usedLot)
            (decrement_currentAmount (S754_finite true m e) now)
            (productLots db)).
  rewrite find_by_id_update_where_same by reflexivity.
  destruct (oldestInUse_spec _ _ _ Hu) as (Hin & _).
  rewrite (find_by_id_unique _ _ _ Hnd Hin). cbn [option_map].
  split; [reflexivity|].
  cbn [decrement_currentAmount ProductLot.currentAmount].
  now rewrite Hc, sub_negative.
Qed.

Lemma negative_usage_refills_lot_witness :
  exists usage db' lot',
    recordProductUsage (ex_usage (of_Z (-5)) []) 1000 salon = Ok usage db'
    /\ find_by_id ProductLot.id 21%N (productLots db') = Some lot'
    /\ ProductLot.currentAmount lot' = Some (of_Z 14).
Proof.
  destruct (negative_usage_refills_lot (ex_usage (of_Z (-5)) []) 1000 salon
              (ex_product 10%N "Color" 2 2 0)
              (ProductLot.mk 21%N 10%N true (Some (of_Z 9)) (Some 100) 0)
              ex_serviceType (of_Z 9) 5629499534213120 (-50))
    as (usage & db' & lot' & H1 & H2 & H3).
  - exact salon_unique_lot_ids.
  - reflexivity.
  - reflexivity.
  - reflexivity.
  - exact I.
  - reflexivity.
  - reflexivity.
  - simpl. left. reflexivity.
  - reflexivity.
  - exists usage, db', lot'. split; [exact H1|]. split; [exact H2|].
    rewrite H3. reflexivity.
Defined.

(** ** How the operations compose *)

Lemma orderBy_startedAt_nil ls : orderBy_startedAt ls = [] -> ls = [].
Proof.
  destruct ls as [|l t]; [reflexivity|]. simpl.
  destruct (orderBy_startedAt t) as [|h r]; simpl; [discriminate|].
  destruct (startedAt_leb _ _); discriminate.
Qed.

Lemma inUseLots_after_start capacity now lot lots :
  NoDup (map ProductLot.id lots) ->
  In lot lots ->
  ProductLot.isInUse lot = false ->
  inUseLots (ProductLot.productId lot) lots = [] ->
  inUseLots (ProductLot.productId lot)
    (map (started (ProductLot.id lot) capacity now) lots)
  = [start_using capacity now lot].
Proof.
  unfold inUseLots. intros Hnd Hin Huse Hnone.
  apply orderBy_startedAt_nil in Hnone.
  match goal with
  | |- orderBy_startedAt ?l = _ =>
      assert (E : l = [start_using capacity now lot]); [|now rewrite E]
  end.
  induction lots as [|x t IH]; [destruct Hin|].
  simpl in Hnd. inversion Hnd as [|? ? Hx Ht]; subst.
  cbn [filter] in Hnone. cbn [map].
  destruct Hin as [->|Hin].
  - rewrite (started_absent _ _ _ _ Hx). unfold started.
    rewrite N.eqb_refl. rewrite Huse, andb_false_r in Hnone.
    cbn [filter start_using ProductLot.productId ProductLot.isInUse].
    rewrite N.eqb_refl. cbn [andb]. now rewrite Hnone.
  - assert (Hne : ProductLot.id x <> ProductLot.id lot).
    { intros E. apply Hx. rewrite E. now apply in_map. }
    apply N.eqb_neq in Hne. unfold started at 1. rewrite Hne. cbn [filter].
    destruct (N.eqb (ProductLot.productId x) (ProductLot.productId lot)
              && ProductLot.isInUse x); [discriminate|].
    now apply IH.
Qed.

(** X10.  Opening a lot is what makes a product usable.  For a product
    with no lot in use a usage is refused with OutOfStock; once
    [startUsingProduct] has opened one of its lots (unique lot ids, known
    users), a usage without related entries whose amount the capacity
    covers succeeds, is drawn from that lot and leaves it at capacity minus
    the amount. *)
Theorem opened_lot_serves_next_usage
    lotId userId now db lot p params now' serviceType :
  unique_lot_ids db ->
  find_by_id ProductLot.id lotId (productLots db) = Some lot ->
  ProductLot.isInUse lot = false ->
  In userId (users db) ->
  find_by_id Product.id (ProductLot.productId lot) (products db) = Some p ->
  oldestInUse (ProductLot.productId lot) (productLots db) = None ->
  RecordProductUsageParams.productId params = ProductLot.productId lot ->
  find_by_id ServiceType.id (RecordProductUsageParams.serviceTypeId params)
    (serviceTypes db) = Some serviceType ->
  In (RecordProductUsageParams.recordedBy params) (users db) ->
  or_default [] (RecordProductUsageParams.relatedProducts params) = [] ->
  (forall c, Product.capacity p = Some c ->
             ltb c (RecordProductUsageParams.usageAmount params) = false) ->
  recordProductUsage params now' db
  = Throw (NoAvailableLots (Product.productName p)) db
  /\ exists updatedLot db1 usage db2 lot2,
       startUsingProduct lotId userId now db = Ok updatedLot db1
       /\ recordProductUsage params now' db1 = Ok usage db2
       /\ Usage.usedLotId usage = Some lotId
       /\ find_by_id ProductLot.id lotId (productLots db2) = Some lot2
       /\ ProductLot.currentAmount lot2
          = option_map
              (fun c => sub c (RecordProductUsageParams.usageAmount params))
              (Product.capacity p).
Proof.
  intros Hnd Hlot Huse Huser Hp Hnone Hpid Hs Hrec Hrel Hcap.
  pose proof (find_by_id_key _ _ _ _ Hlot) as Hid.
  pose proof (find_by_id_In _ _ _ _ Hlot) as Hin.
  assert (Hc : capacityOf (ProductLot.productId lot) db = Product.capacity p)
    by (unfold capacityOf; now rewrite Hp).
  split.
  { rewrite recordProductUsage_outcome. cbv zeta.
    now rewrite Hpid, Hp, Hnone. }
  rewrite startUsingProduct_run, Hlot, Huse, (find_eqb_In _ _ Huser), Hp.
  assert (Hn : match Product.capacity p with
               | Some c =>
                   if ltb c (RecordProductUsageParams.usageAmount params)
                   then Some c else None
               | None => None
               end = None).
  { destruct (Product.capacity p) as [c|]; [|reflexivity].
    now rewrite (Hcap c eq_refl). }
  assert (Hrun :
    recordProductUsage params now' (afterStart lotId userId now lot db)
    = Ok (usageRow params now' serviceType
            (start_using (Product.capacity p) now lot) (N.succ (nextId db)))
         (afterUsage params now' serviceType
            (start_using (Product.capacity p) now lot) []
            (afterStart lotId userId now lot db))).
  { rewrite recordProductUsage_outcome. cbv zeta.
    unfold afterStart at 1 2 3 4.
    cbn [products productLots serviceTypes users].
    rewrite Hpid, find_by_id_update_where_same, Hp by reflexivity.
    cbn [option_map]. unfold oldestInUse at 1. rewrite <- Hid.
    unfold oldestInUse in Hnone.
    destruct (inUseLots (ProductLot.productId lot) (productLots db)) eqn:Hl;
      [|discriminate].
    rewrite (inUseLots_after_start _ _ _ _ Hnd Hin Huse Hl). cbn [hd_error].
    rewrite Hs, (find_eqb_In _ _ Hrec), Hrel.
    unfold notEnough. cbn [start_using ProductLot.currentAmount].
    rewrite Hc, Hn. cbn [find servingLots map]. reflexivity. }
  exists (start_using (Product.capacity p) now lot),
    (afterStart lotId userId now lot db).
  do 3 eexists.
  split; [now rewrite Hc|]. split; [exact Hrun|].
  split; [cbn; now rewrite Hid|].
  unfold afterUsage. rewrite Hrel.
  cbn [productLots map combine ProductLot.id start_using].
  unfold afterStart. cbn [productLots].
  change (map (apply_draws now'
                 [(ProductLot.id lot,
                   RecordProductUsageParams.usageAmount params)])
            (map (started lotId (capacityOf (ProductLot.productId lot) db) now)
               (productLots db)))
    with (update_where ProductLot.id (ProductLot.id lot)
            (decrement_currentAmount
               (RecordProductUsageParams.usageAmount params) now')
            (update_where ProductLot.id lotId
               (start_using (capacityOf (ProductLot.productId lot) db) now)
               (productLots db))).
  rewrite Hid, !find_by_id_update_where_same by reflexivity.
  rewrite Hlot. cbn [option_map]. split; [reflexivity|].
  cbn [decrement_currentAmount start_using ProductLot.currentAmount].
  rewrite Hc. now destruct (Product.capacity p).
Qed.

Lemma opened_lot_serves_next_usage_witness :
  exists updatedLot db1 usage db2,
    startUsingProduct 23%N 2%N 1000 salon = Ok updatedLot db1
    /\ recordProductUsage (ex_usageOf 12%N (of_Z 1) []) 2000 db1 = Ok usage db2
    /\ Usage.usedLotId usage = Some 23%N.
Proof.
  destruct (opened_lot_serves_next_usage 23%N 2%N 1000 salon
              (ProductLot.mk 23%N 12%N false None None 0)
              (ex_product 12%N "Top" 1 0 1)
              (ex_usageOf 12%N (of_Z 1) []) 2000 ex_serviceType)
    as (_ & l & db1 & usage & db2 & lot2 & H1 & H2 & H3 & _).
  - exact salon_unique_lot_ids.
  - reflexivity.
  - reflexivity.
  - simpl. left. reflexivity.
  - reflexivity.
  - reflexivity.
  - reflexivity.
  - reflexivity.
  - simpl. left. reflexivity.
  - reflexivity.
  - intros c [= <-]. reflexivity.
  - exists l, db1, usage, db2. auto.
Defined.

Lemma createProduct_run params now db :
  createProduct params now db
  = match find (N.eqb (CreateProductParams.storeId params)) (stores db) with
    | None => Throw (StoreNotFound (CreateProductParams.storeId params)) db
    | Some _ =>
        Ok (newProduct params now (nextId db)) (afterCreate params now db)
    end.
Proof.
  pose proof repeatM_create_lots as Hlots.
  unfold createProduct, newProduct, afterCreate. unfold_db.
  destruct (find (N.eqb _) (stores db)); [|reflexivity].
  rewrite Hlots. reflexivity.
Qed.

Lemma find_by_id_app_new {A} (key : A -> Id) k rows x :
  Forall (fun r => key r <> k) rows -> key x = k ->
  find_by_id key k (rows ++ [x]) = Some x.
Proof.
  intros Hrows Hx. unfold find_by_id. apply find_app_new.
  - induction Hrows as [|r t Hr _ IH]; simpl; [reflexivity|].
    apply N.eqb_neq in Hr. now rewrite Hr.
  - now apply N.eqb_eq.
Qed.

Lemma inUseLots_app productId lots more :
  filter (fun l => N.eqb (ProductLot.productId l) productId
                   && ProductLot.isInUse l) lots = [] ->
  inUseLots productId (lots ++ more) = inUseLots productId more.
Proof. unfold inUseLots. rewrite filter_app. now intros ->. Qed.

Lemma inUseLots_none_filter productId lots :
  oldestInUse productId lots = None ->
  filter (fun l => N.eqb (ProductLot.productId l) productId
                   && ProductLot.isInUse l) lots = [].
Proof.
  unfold oldestInUse, inUseLots. intros H. apply orderBy_startedAt_nil.
  now destruct (orderBy_startedAt _).
Qed.

(** X11.  Stock added as already opened can be used at once: for a product
    with no lot in use, [addProductStock] with [isInUse] and an amount [a]
    creates a lot dated [now], and a following usage without related
    entries that [a] covers succeeds, is drawn from that lot and leaves it
    at [a] minus the amount. *)
Theorem stock_added_in_use_serves_usage
    params now db p a uparams now' serviceType :
  find_by_id Product.id (AddProductStockParams.productId params) (products db)
  = Some p ->
  In (AddProductStockParams.addedBy params) (users db) ->
  AddProductStockParams.isInUse params = Some true ->
  AddProductStockParams.currentAmount params = Some a ->
  oldestInUse (AddProductStockParams.productId params) (productLots db)
  = None ->
  RecordProductUsageParams.productId uparams
  = AddProductStockParams.productId params ->
  find_by_id ServiceType.id (RecordProductUsageParams.serviceTypeId uparams)
    (serviceTypes db) = Some serviceType ->
  In (RecordProductUsageParams.recordedBy uparams) (users db) ->
  or_default [] (RecordProductUsageParams.relatedProducts uparams) = [] ->
  ltb a (RecordProductUsageParams.usageAmount uparams) = false ->
  exists productLot db1 usage db2,
    addProductStock params now db = Ok productLot db1
    /\ ProductLot.startedAt productLot = Some now
    /\ ProductLot.currentAmount productLot = Some a
    /\ recordProductUsage uparams now' db1 = Ok usage db2
    /\ Usage.usedLotId usage = Some (ProductLot.id productLot)
    /\ In (ProductLot.mk (ProductLot.id productLot)
             (AddProductStockParams.productId params) true
             (Some (sub a (RecordProductUsageParams.usageAmount uparams)))
             (Some now) now')
          (productLots db2).
Proof.
  intros Hp Huser Huse Ha Hnone Hpid Hs Hrec Hrel Hlt.
  assert (Hlot : stockLot params now (nextId db)
                 = ProductLot.mk (nextId db)
                     (AddProductStockParams.productId params) true (Some a)
                     (Some now) now)
    by (unfold stockLot; now rewrite Huse, Ha).
  assert (Hrun :
    recordProductUsage uparams now' (afterAdd params now db)
    = Ok (usageRow uparams now' serviceType (stockLot params now (nextId db))
            (N.succ (N.succ (nextId db))))
         (afterUsage uparams now' serviceType
            (stockLot params now (nextId db)) []
            (afterAdd params now db))).
  { rewrite recordProductUsage_outcome. cbv zeta.
    unfold afterAdd at 1 2 3 4.
    cbn [products productLots serviceTypes users].
    rewrite Hpid, find_by_id_update_where_same, Hp by reflexivity.
    cbn [option_map]. unfold oldestInUse at 1.
    rewrite (inUseLots_app _ _ _ (inUseLots_none_filter _ _ Hnone)).
    rewrite Hlot. unfold inUseLots.
    cbn [filter ProductLot.productId ProductLot.isInUse].
    rewrite N.eqb_refl. cbn [andb orderBy_startedAt insert_by_startedAt hd_error].
    rewrite Hs, (find_eqb_In _ _ Hrec), Hrel.
    unfold notEnough. cbn [ProductLot.currentAmount]. rewrite Hlt.
    cbn [find servingLots map]. reflexivity. }
  rewrite addProductStock_run, Hp, (find_eqb_In _ _ Huser).
  do 4 eexists. split; [reflexivity|].
  rewrite Hlot at 1 2. split; [reflexivity|]. split; [reflexivity|].
  split; [exact Hrun|]. split; [reflexivity|].
  unfold afterUsage. rewrite Hrel. unfold afterAdd.
  cbn [productLots combine map]. rewrite map_app. apply in_or_app. right.
  rewrite Hlot. cbn [map apply_draws fold_left]. unfold draw.
  cbn [fst snd ProductLot.id]. rewrite N.eqb_refl. left. reflexivity.
Qed.

Lemma stock_added_in_use_serves_usage_witness :
  exists productLot db1 usage db2,
    addProductStock
      (AddProductStockParams.mk 12%N 1 (Some (of_Z 15)) (Some true) 2%N)
      1000 salon = Ok productLot db1
    /\ recordProductUsage (ex_usageOf 12%N (of_Z 1) []) 2000 db1 = Ok usage db2
    /\ Usage.usedLotId usage = Some (ProductLot.id productLot)
    /\ In (ProductLot.mk (ProductLot.id productLot) 12%N true
             (Some (of_Z 14)) (Some 1000) 2000)
          (productLots db2).
Proof.
  destruct (stock_added_in_use_serves_usage
              (AddProductStockParams.mk 12%N 1 (Some (of_Z 15)) (Some true) 2%N)
              1000 salon (ex_product 12%N "Top" 1 0 1) (of_Z 15)
              (ex_usageOf 12%N (of_Z 1) []) 2000 ex_serviceType)
    as (l & db1 & usage & db2 & H1 & _ & _ & H4 & H5 & H6).
  - reflexivity.
  - simpl. left. reflexivity.
  - reflexivity.
  - reflexivity.
  - reflexivity.
  - reflexivity.
  - reflexivity.
  - simpl. left. reflexivity.
  - reflexivity.
  - reflexivity.
  - exists l, db1, usage, db2. auto.
Defined.

Lemma newLots_not_in_use productId next now n (P : ProductLot.t -> bool) :
  filter (fun l => P l && ProductLot.isInUse l) (newLots productId next now n) = [].
Proof.
  revert next. induction n as [|n IH]; intros next; simpl; [reflexivity|].
  now rewrite andb_false_r.
Qed.

Lemma no_open_lots_of_unissued_id db :
  lots_reference_issued_ids db ->
  filter (fun l => N.eqb (ProductLot.productId l) (nextId db)
                   && ProductLot.isInUse l) (productLots db) = [].
Proof.
  unfold lots_reference_issued_ids.
  induction (productLots db) as [|l t IH]; intros H; simpl; [reflexivity|].
  inversion H as [|? ? Hl Ht]; subst.
  destruct (N.eqb (ProductLot.productId l) (nextId db)) eqn:E.
  - apply N.eqb_eq in E. lia.
  - simpl. auto.
Qed.

(** X12.  A product fresh from [createProduct] cannot be used yet: all its
    lots are unopened, so a usage of it is refused with OutOfStock and
    changes nothing (product and lot ids issued by the store). *)
Theorem new_product_has_no_open_lot params now0 db product db1 uparams now :
  ids_issued db ->
  lots_reference_issued_ids db ->
  createProduct params now0 db = Ok product db1 ->
  RecordProductUsageParams.productId uparams = Product.id product ->
  recordProductUsage uparams now db1
  = Throw (NoAvailableLots (Product.productName product)) db1
  /\ error_kind (NoAvailableLots (Product.productName product)) = OutOfStock.
Proof.
  intros [_ Hprods] Hrefs. rewrite createProduct_run.
  destruct (find (N.eqb _) (stores db)); [|discriminate].
  intros [= <- <-] Hpid. split; [|reflexivity].
  rewrite recordProductUsage_outcome. cbv zeta.
  unfold afterCreate at 1 2. cbn [products productLots].
  rewrite Hpid. cbn [newProduct Product.id].
  rewrite (find_by_id_app_new Product.id (nextId db) (products db)
             (newProduct params now0 (nextId db))).
  - unfold oldestInUse.
    rewrite (inUseLots_app _ _ _ (no_open_lots_of_unissued_id _ Hrefs)).
    unfold inUseLots. rewrite newLots_not_in_use. reflexivity.
  - eapply Forall_impl; [|exact Hprods]. cbv beta. intros q Hq. lia.
  - reflexivity.
Qed.

Lemma salon_ids_issued : ids_issued salon.
Proof. split; simpl; repeat constructor. Defined.

Lemma salon_lots_reference_issued_ids : lots_reference_issued_ids salon.
Proof. unfold lots_reference_issued_ids. simpl. repeat constructor. Defined.

Lemma new_product_has_no_open_lot_witness :
  exists product db1,
    createProduct (ex_newProduct 1%N 3) 500 salon = Ok product db1
    /\ recordProductUsage (ex_usageOf 100%N (of_Z 1) []) 1000 db1
       = Throw (NoAvailableLots (Product.productName product)) db1.
Proof.
  destruct (createProduct (ex_newProduct 1%N 3) 500 salon) as [p db1|e db1] eqn:E;
    [|vm_compute in E; discriminate].
  exists p, db1. split; [reflexivity|].
  refine (proj1 (new_product_has_no_open_lot _ _ _ _ _ _ 1000
                   salon_ids_issued salon_lots_reference_issued_ids E _)).
  vm_compute in E. injection E as <- _. reflexivity.
Defined.

(** ** Invariants of the store *)

Lemma NoDup_app_fresh (n : N) (a b : list Id) :
  NoDup a -> NoDup b ->
  Forall (fun k => (k < n)%N) a -> Forall (fun k => (n <= k)%N) b ->
  NoDup (a ++ b).
Proof.
  intros Ha Hb Hlt Hge. induction Ha as [|x a Hx Ha IH]; simpl; [exact Hb|].
  inversion Hlt as [|? ? Hxn Hlt']; subst.
  constructor; [|now apply IH].
  intros Hin. apply in_app_or in Hin. destruct Hin as [Hin|Hin]; [tauto|].
  rewrite Forall_forall in Hge. specialize (Hge x Hin). lia.
Qed.

Lemma newLots_ids productId next now n :
  NoDup (map ProductLot.id (newLots productId next now n))
  /\ Forall (fun k => (next <= k < next + N.of_nat n)%N)
       (map ProductLot.id (newLots productId next now n))
  /\ Forall (fun k => k = productId)
       (map ProductLot.productId (newLots productId next now n)).
Proof.
  revert next. induction n as [|n IH]; intros next.
  - simpl. repeat split; constructor.
  - destruct (IH (N.succ next)) as (H1 & H2 & H3).
    cbn [newLots map ProductLot.id ProductLot.productId].
    split; [|split].
    + constructor; [|exact H1]. intros Hin.
      rewrite Forall_forall in H2. specialize (H2 _ Hin). lia.
    + constructor; [lia|]. eapply Forall_impl; [|exact H2].
      cbv beta. intros k Hk. lia.
    + constructor; [reflexivity | exact H3].
Qed.

(** The keys of a grown store: the old rows keep their keys, the new rows
    carry ids the store had not handed out. *)
Lemma well_keyed_grow db db' newLotIds newLotProducts newProductIds :
  map ProductLot.id (productLots db')
  = map ProductLot.id (productLots db) ++ newLotIds ->
  map ProductLot.productId (productLots db')
  = map ProductLot.productId (productLots db) ++ newLotProducts ->
  map Product.id (products db') = map Product.id (products db) ++ newProductIds ->
  NoDup newLotIds -> NoDup newProductIds ->
  Forall (fun k => (nextId db <= k < nextId db')%N) newLotIds ->
  Forall (fun k => (nextId db <= k < nextId db')%N) newProductIds ->
  Forall (fun k => (k < nextId db')%N) newLotProducts ->
  (nextId db <= nextId db')%N ->
  well_keyed db -> well_keyed db'.
Proof.
  intros El Ep Eq Hnl Hnp Hl Hp Hlp Hle (W1 & W2 & (W3 & W4) & W5).
  unfold well_keyed, unique_lot_ids, unique_product_ids, ids_issued,
    lots_reference_issued_ids in *.
  rewrite <- (Forall_map ProductLot.id (fun k => (k < nextId db)%N)) in W3.
  rewrite <- (Forall_map Product.id (fun k => (k < nextId db)%N)) in W4.
  rewrite <- (Forall_map ProductLot.productId (fun k => (k < nextId db)%N))
    in W5.
  rewrite <- (Forall_map ProductLot.id (fun k => (k < nextId db')%N)).
  rewrite <- (Forall_map Product.id (fun k => (k < nextId db')%N)).
  rewrite <- (Forall_map ProductLot.productId (fun k => (k < nextId db')%N)).
  rewrite El, Ep, Eq.
  assert (Hmono : forall ks, Forall (fun k => (k < nextId db)%N) ks ->
                             Forall (fun k => (k < nextId db')%N) ks).
  { intros ks H. eapply Forall_impl; [|exact H]. cbv beta. intros k Hk. lia. }
  assert (Hup : forall ks,
             Forall (fun k => (nextId db <= k < nextId db')%N) ks ->
             Forall (fun k => (k < nextId db')%N) ks
             /\ Forall (fun k => (nextId db <= k)%N) ks).
  { intros ks H. split; (eapply Forall_impl; [|exact H]); cbv beta;
      intros k Hk; lia. }
  destruct (Hup _ Hl) as [Hl1 Hl2]. destruct (Hup _ Hp) as [Hp1 Hp2].
  repeat split.
  - eapply NoDup_app_fresh; eauto.
  - eapply NoDup_app_fresh; eauto.
  - apply Forall_app. auto.
  - apply Forall_app. auto.
  - apply Forall_app. auto.
Qed.

Lemma well_keyed_same_keys db db' :
  map ProductLot.id (productLots db') = map ProductLot.id (productLots db) ->
  map ProductLot.productId (productLots db')
  = map ProductLot.productId (productLots db) ->
  map Product.id (products db') = map Product.id (products db) ->
  (nextId db <= nextId db')%N ->
  well_keyed db -> well_keyed db'.
Proof.
  intros El Ep Eq Hle.
  apply (well_keyed_grow db db' [] [] []);
    rewrite ?app_nil_r; auto; constructor.
Qed.

Lemma map_map_keeps {A B} (key : A -> B) (f : A -> A) rows :
  (forall r, key (f r) = key r) -> map key (map f rows) = map key rows.
Proof. intros H. rewrite map_map. apply map_ext. exact H. Qed.

(** X13.  Primary keys survive every write path.  If lot ids and product
    ids are unique and were handed out by the store, and lots point at
    issued ids, the same holds for the store that [createProduct],
    [addProductStock], [startUsingProduct] and [recordProductUsage] leave,
    whether they return or throw. *)
Theorem operations_keep_keys db :
  well_keyed db ->
  (forall params now, well_keyed (final (createProduct params now db)))
  /\ (forall params now, well_keyed (final (addProductStock params now db)))
  /\ (forall lotId userId now,
        well_keyed (final (startUsingProduct lotId userId now db)))
  /\ (forall params now,
        well_keyed (final (recordProductUsage params now db))).
Proof.
  intros W. split; [|split; [|split]].
  - intros params now. rewrite createProduct_run.
    destruct (find (N.eqb _) (stores db)); [|exact W]. cbn [final].
    set (cnt := Z.to_nat (or_default 1 (CreateProductParams.totalQuantity params))).
    destruct (newLots_ids (nextId db) (N.succ (nextId db)) now cnt)
      as (H1 & H2 & H3).
    apply (well_keyed_grow db (afterCreate params now db)
             (map ProductLot.id
                (newLots (nextId db) (N.succ (nextId db)) now cnt))
             (map ProductLot.productId
                (newLots (nextId db) (N.succ (nextId db)) now cnt))
             [nextId db]);
      unfold afterCreate; cbn [productLots products nextId]; fold cnt;
      rewrite ?map_app; auto.
    + constructor; [intros [] | constructor].
    + eapply Forall_impl; [|exact H2]. cbv beta. intros k Hk. lia.
    + repeat constructor; lia.
    + eapply Forall_impl; [|exact H3]. cbv beta. intros k ->. lia.
    + lia.
  - intros params now. rewrite addProductStock_run.
    destruct (find_by_id Product.id _ (products db)) as [p|] eqn:Hp;
      [|exact W].
    destruct (find (N.eqb _) (users db)); [|exact W]. cbn [final].
    apply (well_keyed_grow db (afterAdd params now db) [nextId db]
             [AddProductStockParams.productId params] []);
      unfold afterAdd; cbn [productLots products nextId];
      rewrite ?map_app, ?app_nil_r; auto.
    + now rewrite map_key_update_where.
    + constructor; [intros [] | constructor].
    + constructor.
    + repeat constructor; lia.
    + constructor; [|constructor].
      destruct W as (_ & _ & (_ & W4) & _). rewrite Forall_forall in W4.
      pose proof (W4 _ (find_by_id_In _ _ _ _ Hp)) as Hlt.
      rewrite (find_by_id_key _ _ _ _ Hp) in Hlt. lia.
    + lia.
  - intros lotId userId now. rewrite startUsingProduct_run.
    destruct (find_by_id ProductLot.id lotId (productLots db)) as [lot|];
      [|exact W].
    destruct (ProductLot.isInUse lot); [exact W|].
    destruct (find (N.eqb userId) (users db)); [|exact W].
    destruct (find_by_id Product.id (ProductLot.productId lot) (products db));
      [|exact W].
    cbn [final].
    apply (well_keyed_same_keys db); unfold afterStart;
      cbn [productLots products nextId]; auto.
    + apply map_map_keeps. intros l. apply started_id.
    + apply map_map_keeps. intros l. apply started_productId.
    + now rewrite map_key_update_where.
    + lia.
  - intros params now. rewrite recordProductUsage_outcome. cbv zeta.
    destruct (find_by_id Product.id _ (products db)); [|exact W].
    destruct (oldestInUse _ (productLots db)) as [usedLot|]; [|exact W].
    destruct (find_by_id ServiceType.id _ (serviceTypes db)) as [st|];
      [|exact W].
    destruct (find (N.eqb _) (users db)); [|exact W].
    destruct (notEnough usedLot _); [exact W|].
    destruct (find _ (or_default [] _)); [exact W|]. cbn [final].
    apply (well_keyed_same_keys db); unfold afterUsage;
      cbn [productLots products nextId]; auto.
    + apply map_map_keeps. intros l. apply apply_draws_shape.
    + apply map_map_keeps. intros l. apply apply_draws_shape.
    + now rewrite map_key_update_where.
    + lia.
Qed.

Lemma salon_well_keyed : well_keyed salon.
Proof.
  split; [exact salon_unique_lot_ids|].
  split; [unfold unique_product_ids; simpl;
          repeat constructor; simpl; intuition discriminate|].
  split; [exact salon_ids_issued | exact salon_lots_reference_issued_ids].
Defined.

Lemma operations_keep_keys_witness :
  well_keyed salon
  /\ well_keyed (final (createProduct (ex_newProduct 1%N 3) 500 salon))
  /\ well_keyed (final (recordProductUsage (ex_usage (of_Z 1) []) 1000 salon)).
Proof.
  split; [exact salon_well_keyed|].
  destruct (operations_keep_keys salon salon_well_keyed) as (H1 & _ & _ & H4).
  split; [apply H1 | apply H4].
Defined.




(** ** Stock status *)

Lemma getProductStock_run productId db :
  getProductStock productId db
  = match find_by_id Product.id productId (products db) with
    | None => Throw (ProductNotFound productId) db
    | Some product =>
        let lots := lotsOf productId db in
        let inUseLots := filter ProductLot.isInUse lots in
        let unusedLots := filter (fun lot => negb (ProductLot.isInUse lot)) lots in
        Ok (ProductStock.mk product
              (if truthy_opt (Product.capacity product)
               then mul (of_Z (Product.totalQuantity product))
                      (or_zero (Product.capacity product))
               else of_Z (Product.totalQuantity product))
              (if truthy_opt (Product.capacity product)
               then add
                      (fold_left
                         (fun sum lot =>
                            add sum (or_zero (ProductLot.currentAmount lot)))
                         inUseLots (of_Z 0))
                      (mul (of_Z (Z.of_nat (List.length unusedLots)))
                         (or_zero (Product.capacity product)))
               else add (of_Z (Product.lotQuantity product))
                      (of_Z (Z.of_nat (List.length inUseLots))))
              inUseLots unusedLots
              (Product.lotQuantity product <=? Product.minStockAlert product))
           db
    end.
Proof.
  unfold getProductStock, product_findUnique_lots. unfold_db.
  destruct (find_by_id Product.id productId (products db)) as [p|] eqn:Hp;
    [|reflexivity].
  rewrite (find_by_id_key _ _ _ _ Hp). cbv zeta.
  destruct (truthy_opt (Product.capacity p)); reflexivity.
Qed.

Lemma filter_split_length {A} (f : A -> bool) xs :
  (List.length (filter f xs) + List.length (filter (fun x => negb (f x)) xs))%nat
  = List.length xs.
Proof.
  induction xs as [|x t IH]; simpl; [reflexivity|].
  destruct (f x); simpl; lia.
Qed.

(** X15.  [getProductStock] reads and never writes.  For a missing product
    it fails with NotFound.  Otherwise the lots it reports in use and the
    lots it reports unused split the lots of the product: each lot of the
    product is in exactly one of the two lists, by its [isInUse] flag, and
    the two lengths add up to the number of lots.  The low-stock flag
    compares the [lotQuantity] counter, not the number of unused lots, with
    [minStockAlert]. *)
Theorem getProductStock_splits_lots productId db :
  (find_by_id Product.id productId (products db) = None ->
   getProductStock productId db = Throw (ProductNotFound productId) db)
  /\ (forall p,
        find_by_id Product.id productId (products db) = Some p ->
        exists s,
          getProductStock productId db = Ok s db
          /\ ProductStock.product s = p
          /\ (forall lot,
                In lot (ProductStock.inUseLots s) <->
                In lot (lotsOf productId db) /\ ProductLot.isInUse lot = true)
          /\ (forall lot,
                In lot (ProductStock.unusedLots s) <->
                In lot (lotsOf productId db) /\ ProductLot.isInUse lot = false)
          /\ (List.length (ProductStock.inUseLots s)
              + List.length (ProductStock.unusedLots s))%nat
             = List.length (lotsOf productId db)
          /\ (ProductStock.isLowStock s = true <->
              Product.lotQuantity p <= Product.minStockAlert p)).
Proof.
  rewrite getProductStock_run. split.
  - now intros ->.
  - intros p ->. cbv zeta. eexists. split; [reflexivity|].
    cbn [ProductStock.product ProductStock.inUseLots ProductStock.unusedLots
         ProductStock.isLowStock].
    split; [reflexivity|]. split; [|split; [|split]].
    + intros lot. now rewrite filter_In.
    + intros lot. rewrite filter_In, negb_true_iff. tauto.
    + apply filter_split_length.
    + apply Z.leb_le.
Qed.

Lemma getProductStock_splits_lots_witness :
  exists s,
    getProductStock 10%N salon = Ok s salon
    /\ List.length (ProductStock.inUseLots s) = 2%nat
    /\ ProductStock.isLowStock s = true.
Proof.
  destruct (getProductStock_splits_lots 10%N salon) as [_ H].
  destruct (H (ex_product 10%N "Color" 2 2 0) eq_refl)
    as (s & H1 & _ & _ & _ & _ & H6).
  exists s. split; [exact H1|].
  split.
  - rewrite getProductStock_run in H1. vm_compute in H1.
    injection H1 as <-. reflexivity.
  - apply H6. simpl. lia.
Defined.

(** Rounding keeps the sign it is given. *)
Lemma binary_round_aux_sign s m e l :
  match binary_round_aux prec emax s m e l with
  | S754_zero s' | S754_finite s' _ _ | S754_infinity s' => s' = s
  | S754_nan => True
  end.
Proof.
  unfold binary_round_aux.
  destruct (shr_fexp prec emax m e l) as [mrs e'].
  destruct (shr_fexp prec emax _ e' loc_Exact) as [mrs'' e''].
  destruct (shr_m mrs''); [reflexivity| |exact I].
  destruct (Z.leb e'' (emax - prec)); reflexivity.
Qed.

Lemma not_negative_of_Z n : 0 <= n -> not_negative (of_Z n).
Proof.
  destruct n as [|p|p]; intros H; [exact I| |lia].
  unfold of_Z, binary_normalize, binary_round.
  destruct (shl_align p 0 _) as [mz ez].
  pose proof (binary_round_aux_sign false (Zpos mz) ez loc_Exact) as Hs.
  destruct (binary_round_aux prec emax false (Zpos mz) ez loc_Exact)
    as [[|]|[|]| |[|] m e]; simpl; auto; discriminate.
Qed.

Lemma not_negative_mul x y :
  not_negative x -> not_negative y -> not_negative (mul x y).
Proof.
  destruct x as [[|]|[|]| |[|] mx ex]; simpl; try contradiction;
    destruct y as [[|]|[|]| |[|] my ey]; simpl; try contradiction;
    intros _ _; try exact I.
  unfold mul, SFmul. cbn [xorb].
  pose proof (binary_round_aux_sign false (Zpos (mx * my)) (ex + ey) loc_Exact)
    as Hs.
  destruct (binary_round_aux prec emax false (Zpos (mx * my)) (ex + ey)
              loc_Exact) as [[|]|[|]| |[|] m e]; simpl; auto; discriminate.
Qed.

Lemma add_zero_l y : not_negative y -> add (of_Z 0) y = y.
Proof.
  destruct y as [[|]|[|]| |[|] m e]; simpl; intros H;
    try contradiction; reflexivity.
Qed.

Lemma add_zero_r x : not_negative x -> add x (of_Z 0) = x.
Proof.
  destruct x as [[|]|[|]| |[|] m e]; simpl; intros H;
    try contradiction; reflexivity.
Qed.

Lemma not_negative_or_zero x :
  match x with Some v => not_negative v | None => True end ->
  not_negative (or_zero x).
Proof.
  destruct x as [v|]; simpl; [|intros _; exact I].
  intros H. now destruct (truthy v).
Qed.

Lemma lotsOf_afterCreate params now db :
  lots_reference_issued_ids db ->
  lotsOf (nextId db) (afterCreate params now db)
  = newLots (nextId db) (N.succ (nextId db)) now
      (Z.to_nat (or_default 1 (CreateProductParams.totalQuantity params))).
Proof.
  intros Hrefs. unfold lotsOf, afterCreate. cbn [productLots].
  now rewrite filter_app, (no_lots_of_unissued_id _ Hrefs), newLots_filter.
Qed.

Lemma newLots_all_unused productId next now n :
  filter ProductLot.isInUse (newLots productId next now n) = []
  /\ filter (fun l => negb (ProductLot.isInUse l))
       (newLots productId next now n)
     = newLots productId next now n.
Proof.
  revert next. induction n as [|n IH]; intros next; simpl; [auto|].
  destruct (IH (N.succ next)) as [-> ->]. auto.
Qed.

(** X16.  A product fresh from [createProduct] is reported full.  For a
    quantity of zero or more and a capacity that is absent or not negative,
    [getProductStock] on the new product finds no lot in use, as many
    unused lots as [totalQuantity], and a current total equal to the total
    capacity. *)
Theorem fresh_product_reported_full params now0 db product db1 :
  ids_issued db ->
  lots_reference_issued_ids db ->
  0 <= or_default 1 (CreateProductParams.totalQuantity params) ->
  match CreateProductParams.capacity params with
  | Some capacity => not_negative capacity
  | None => True
  end ->
  createProduct params now0 db = Ok product db1 ->
  exists s,
    getProductStock (Product.id product) db1 = Ok s db1
    /\ ProductStock.inUseLots s = []
    /\ Z.of_nat (List.length (ProductStock.unusedLots s))
       = Product.totalQuantity product
    /\ ProductStock.currentTotal s = ProductStock.totalCapacity s.
Proof.
  intros [_ Hprods] Hrefs Hn Hcap. rewrite createProduct_run.
  destruct (find (N.eqb _) (stores db)); [|discriminate].
  intros [= <- <-]. rewrite getProductStock_run.
  cbn [newProduct Product.id]. unfold afterCreate at 1. cbn [products].
  rewrite (find_by_id_app_new Product.id (nextId db) (products db)
             (newProduct params now0 (nextId db)));
    [| eapply Forall_impl; [|exact Hprods]; cbv beta; intros q Hq; lia
     | reflexivity].
  cbv zeta. rewrite (lotsOf_afterCreate _ _ _ Hrefs).
  set (cnt := or_default 1 (CreateProductParams.totalQuantity params)) in *.
  destruct (newLots_all_unused (nextId db) (N.succ (nextId db)) now0
              (Z.to_nat cnt))
    as [-> ->].
  rewrite newLots_length, Z2Nat.id by exact Hn.
  eexists. split; [reflexivity|].
  cbn [ProductStock.inUseLots ProductStock.unusedLots
       ProductStock.currentTotal ProductStock.totalCapacity].
  split; [reflexivity|].
  split; [rewrite newLots_length, Z2Nat.id by exact Hn; reflexivity|].
  cbn [newProduct Product.capacity Product.totalQuantity Product.lotQuantity
       fold_left List.length]. fold cnt.
  destruct (truthy_opt (CreateProductParams.capacity params)).
  - apply add_zero_l. apply not_negative_mul.
    + now apply not_negative_of_Z.
    + now apply not_negative_or_zero.
  - apply add_zero_r. now apply not_negative_of_Z.
Qed.

Lemma fresh_product_reported_full_witness :
  exists product db1 s,
    createProduct (ex_newProduct 1%N 3) 500 salon = Ok product db1
    /\ getProductStock (Product.id product) db1 = Ok s db1
    /\ ProductStock.currentTotal s = ProductStock.totalCapacity s
    /\ ProductStock.totalCapacity s = of_Z 45.
Proof.
  destruct (createProduct (ex_newProduct 1%N 3) 500 salon)
    as [p db1|e db1] eqn:E; [|vm_compute in E; discriminate].
  destruct (fresh_product_reported_full (ex_newProduct 1%N 3) 500 salon p db1
              salon_ids_issued salon_lots_reference_issued_ids)
    as (s & H1 & _ & _ & H4).
  - simpl. lia.
  - exact I.
  - exact E.
  - exists p, db1, s. split; [reflexivity|]. split; [exact H1|].
    split; [exact H4|].
    vm_compute in E. injection E as <- <-.
    rewrite getProductStock_run in H1. vm_compute in H1.
    injection H1 as <-. reflexivity.
Defined.

Lemma NoDup_snoc {A} (l : list A) x :
  NoDup l -> ~ In x l -> NoDup (l ++ [x]).
Proof.
  intros Hl Hx. induction Hl as [|y l Hy Hl IH]; simpl.
  - constructor; [intros []|constructor].
  - constructor.
    + intros Hin. apply in_app_or in Hin. destruct Hin as [Hin|[->|[]]].
      * now apply Hy.
      * apply Hx. now left.
    + apply IH. intros Hin. apply Hx. now right.
Qed.

Section MonthlyStatsRuns.

Variable getFullYear : Date -> Z.
Variable getMonth : Date -> Z.

Lemma updateMonthlyStats_run serviceTypeId usageAmount date now db :
  updateMonthlyStats getFullYear getMonth serviceTypeId usageAmount date now db
  = Ok tt (afterStat serviceTypeId (getFullYear (or_default now date))
             (getMonth (or_default now date) + 1) usageAmount db).
Proof.
  unfold updateMonthlyStats, afterStat, stat_of. unfold_db.
  now destruct (find _ (monthlyServiceStats db)).
Qed.

Lemma stat_of_In sid y m db row :
  stat_of sid y m db = Some row ->
  In row (monthlyServiceStats db) /\ stat_key row = (sid, y, m).
Proof.
  unfold stat_of. intros H. apply find_some in H. destruct H as [Hin Hk].
  split; [exact Hin|]. unfold stat_key.
  apply andb_prop in Hk. destruct Hk as [Hk Hm].
  apply andb_prop in Hk. destruct Hk as [Hs Hy].
  apply N.eqb_eq in Hs. apply Z.eqb_eq in Hy, Hm. now subst.
Qed.

Lemma stat_of_None sid y m db :
  stat_of sid y m db = None ->
  ~ In (sid, y, m) (map stat_key (monthlyServiceStats db)).
Proof.
  unfold stat_of. intros H Hin. apply in_map_iff in Hin.
  destruct Hin as (r & Hk & Hin).
  pose proof (find_none _ _ H r Hin) as Hf. cbv beta in Hf.
  unfold stat_key in Hk. injection Hk as Hs Hy Hm.
  rewrite Hs, Hy, Hm in Hf.
  now rewrite N.eqb_refl, !Z.eqb_refl in Hf.
Qed.

(** X17.  [updateMonthlyStats] keeps the statistics table keyed: when row
    ids are unique and issued by the store and no two rows share a service
    type, year and month, the same holds after the call, whether it
    updated a row or created one. *)
Theorem updateMonthlyStats_keeps_keys serviceTypeId usageAmount date now db :
  stats_keyed db ->
  exists db',
    updateMonthlyStats getFullYear getMonth serviceTypeId usageAmount date
      now db = Ok tt db'
    /\ stats_keyed db'.
Proof.
  intros (Hids & Hiss & Hkeys). rewrite updateMonthlyStats_run.
  eexists. split; [reflexivity|]. unfold afterStat.
  set (y := getFullYear _). set (m := getMonth _ + 1).
  destruct (stat_of serviceTypeId y m db) as [row|] eqn:E.
  - unfold stats_keyed, with_monthlyServiceStats.
    cbn [monthlyServiceStats nextId].
    assert (Hid : map MonthlyServiceStat.id
                    (update_where MonthlyServiceStat.id
                       (MonthlyServiceStat.id row)
                       (set_stat
                          (add (MonthlyServiceStat.totalUsage row) usageAmount)
                          (MonthlyServiceStat.usageCount row + 1)
                          (div (add (MonthlyServiceStat.totalUsage row)
                                  usageAmount)
                             (of_Z (MonthlyServiceStat.usageCount row + 1))))
                       (monthlyServiceStats db))
                  = map MonthlyServiceStat.id (monthlyServiceStats db)).
    { unfold update_where. rewrite map_map. apply map_ext. intros r.
      now destruct (N.eqb _ _). }
    split; [now rewrite Hid|]. split.
    + unfold update_where. apply Forall_map.
      eapply Forall_impl; [|exact Hiss]. cbv beta. intros r Hr.
      now destruct (N.eqb _ _).
    + unfold update_where. rewrite map_map.
      erewrite map_ext; [exact Hkeys|]. intros r. cbv beta.
      now destruct (N.eqb _ _).
  - unfold stats_keyed. cbn [monthlyServiceStats nextId].
    rewrite !map_app. cbn [map MonthlyServiceStat.id stat_key
      MonthlyServiceStat.serviceTypeId MonthlyServiceStat.year
      MonthlyServiceStat.month].
    split; [|split].
    + apply NoDup_snoc; [exact Hids|].
      intros Hin. apply in_map_iff in Hin. destruct Hin as (r & Hr & Hin).
      rewrite Forall_forall in Hiss. specialize (Hiss r Hin). cbv beta in Hiss.
      lia.
    + apply Forall_app. split.
      * eapply Forall_impl; [|exact Hiss]. cbv beta. intros r Hr. lia.
      * constructor; [simpl; lia|constructor].
    + apply NoDup_snoc; [exact Hkeys|]. now apply stat_of_None.
Qed.

(** X18.  [updateMonthlyStats] touches one row only.  With unique row ids,
    what [getMonthlyServiceStats] returns for any other service type, year
    or month is the same after the call as before, and every table other
    than the statistics is as it was. *)
Theorem updateMonthlyStats_other_rows serviceTypeId usageAmount date now db
    sid y m :
  NoDup (map MonthlyServiceStat.id (monthlyServiceStats db)) ->
  (sid, y, m) <> (serviceTypeId, getFullYear (or_default now date),
                  getMonth (or_default now date) + 1) ->
  exists db' found,
    updateMonthlyStats getFullYear getMonth serviceTypeId usageAmount date
      now db = Ok tt db'
    /\ getMonthlyServiceStats sid y m db = Ok found db
    /\ getMonthlyServiceStats sid y m db' = Ok found db'
    /\ products db' = products db
    /\ productLots db' = productLots db
    /\ serviceTypes db' = serviceTypes db
    /\ usages db' = usages db
    /\ relatedProductUsages db' = relatedProductUsages db
    /\ activities db' = activities db.
Proof.
  intros Hids Hne. rewrite updateMonthlyStats_run.
  eexists. exists (stat_of sid y m db). split; [reflexivity|].
  split; [reflexivity|].
  unfold getMonthlyServiceStats, monthlyServiceStat_findUnique, gets.
  unfold afterStat.
  set (y0 := getFullYear _) in *. set (m0 := getMonth _ + 1) in *.
  destruct (stat_of serviceTypeId y0 m0 db) as [row|] eqn:E.
  - split; [|now repeat split].
    f_equal. unfold with_monthlyServiceStats, stat_of.
    cbn [monthlyServiceStats].
    apply stat_of_In in E. destruct E as [Hin Hk].
    unfold update_where.
    induction (monthlyServiceStats db) as [|r t IH]; [reflexivity|].
    cbn [map find]. cbn [map] in Hids. apply NoDup_cons_iff in Hids.
    destruct Hids as [Hnot Hids].
    destruct (N.eqb (MonthlyServiceStat.id r) (MonthlyServiceStat.id row))
      eqn:Eid.
    + apply N.eqb_eq in Eid.
      assert (Hr : r = row).
      { destruct Hin as [Hin|Hin]; [exact Hin|]. exfalso. apply Hnot.
        rewrite Eid. now apply in_map. }
      subst r. unfold stat_key in Hk. injection Hk as Hs Hy Hm.
      assert (Hoff : N.eqb (MonthlyServiceStat.serviceTypeId row) sid
                     && (MonthlyServiceStat.year row =? y)
                     && (MonthlyServiceStat.month row =? m) = false).
      { rewrite Hs, Hy, Hm.
        destruct (N.eqb_spec serviceTypeId sid) as [->|]; [|reflexivity].
        destruct (Z.eqb_spec y0 y) as [<-|]; [|reflexivity].
        destruct (Z.eqb_spec m0 m) as [<-|]; [|reflexivity].
        now elim Hne. }
      cbn [set_stat MonthlyServiceStat.serviceTypeId MonthlyServiceStat.year
           MonthlyServiceStat.month]. rewrite Hoff.
      f_equal. clear IH Hin. 
      assert (Hmap : map (fun r => if N.eqb (MonthlyServiceStat.id r)
                                        (MonthlyServiceStat.id row)
                                   then set_stat
                                          (add (MonthlyServiceStat.totalUsage row)
                                             usageAmount)
                                          (MonthlyServiceStat.usageCount row + 1)
                                          (div (add (MonthlyServiceStat.totalUsage
                                                       row) usageAmount)
                                             (of_Z (MonthlyServiceStat.usageCount
                                                      row + 1))) r
                                   else r) t = t).
      { apply map_fixed. intros x Hx.
        destruct (N.eqb_spec (MonthlyServiceStat.id x)
                    (MonthlyServiceStat.id row)) as [Ex|]; [|reflexivity].
        exfalso. apply Hnot. rewrite <- Ex. now apply in_map. }
      now rewrite Hmap.
    + destruct (N.eqb (MonthlyServiceStat.serviceTypeId r) sid
                && (MonthlyServiceStat.year r =? y)
                && (MonthlyServiceStat.month r =? m)); [reflexivity|].
      apply IH; [exact Hids|].
      destruct Hin as [Hin|Hin]; [|exact Hin].
      subst r. now rewrite N.eqb_refl in Eid.
  - split; [|now repeat split].
    f_equal. unfold stat_of. cbn [monthlyServiceStats].
    induction (monthlyServiceStats db) as [|r t IH]; cbn [app find].
    + cbn [MonthlyServiceStat.serviceTypeId MonthlyServiceStat.year
           MonthlyServiceStat.month].
      destruct (N.eqb_spec serviceTypeId sid) as [->|]; [|reflexivity].
      destruct (Z.eqb_spec y0 y) as [<-|]; [|reflexivity].
      destruct (Z.eqb_spec m0 m) as [<-|]; [|reflexivity].
      now elim Hne.
    + destruct (N.eqb (MonthlyServiceStat.serviceTypeId r) sid
                && (MonthlyServiceStat.year r =? y)
                && (MonthlyServiceStat.month r =? m)); [reflexivity|].
      apply IH. cbn [map] in Hids. now apply NoDup_cons_iff in Hids.
Qed.

(** X19.  Calls for the same service type and month add up in call order.
    After one call per amount of [amounts], a row that existed holds its
    old total with the amounts added from left to right and its old count
    plus their number; when there was no row, the first amount starts the
    total and the count is the number of amounts.  Once a call has updated
    a row (any call on an existing row, the second call otherwise) the
    average is the total divided by the count. *)
Theorem updateMonthlyStats_accumulates serviceTypeId date now amounts :
  let year := getFullYear (or_default now date) in
  let month := getMonth (or_default now date) + 1 in
  let calls :=
    forEach amounts (fun a =>
      updateMonthlyStats getFullYear getMonth serviceTypeId a date now) in
  forall db,
  exists db',
    calls db = Ok tt db'
    /\ match stat_of serviceTypeId year month db, amounts with
       | Some row, _ =>
           exists row',
             stat_of serviceTypeId year month db' = Some row'
             /\ MonthlyServiceStat.id row' = MonthlyServiceStat.id row
             /\ MonthlyServiceStat.totalUsage row'
                = fold_left add amounts (MonthlyServiceStat.totalUsage row)
             /\ MonthlyServiceStat.usageCount row'
                = MonthlyServiceStat.usageCount row
                  + Z.of_nat (List.length amounts)
             /\ (amounts <> [] ->
                 MonthlyServiceStat.averageUsage row'
                 = div (MonthlyServiceStat.totalUsage row')
                     (of_Z (MonthlyServiceStat.usageCount row')))
       | None, a :: rest =>
           exists row',
             stat_of serviceTypeId year month db' = Some row'
             /\ MonthlyServiceStat.totalUsage row' = fold_left add rest a
             /\ MonthlyServiceStat.usageCount row'
                = Z.of_nat (List.length amounts)
             /\ (rest <> [] ->
                 MonthlyServiceStat.averageUsage row'
                 = div (MonthlyServiceStat.totalUsage row')
                     (of_Z (MonthlyServiceStat.usageCount row')))
       | None, [] => db' = db
       end.
Proof.
  intros year month calls.
  assert (Hsome : forall amounts db row,
            stat_of serviceTypeId year month db = Some row ->
            exists db' row',
              forEach amounts (fun a =>
                updateMonthlyStats getFullYear getMonth serviceTypeId a date
                  now) db = Ok tt db'
              /\ stat_of serviceTypeId year month db' = Some row'
              /\ MonthlyServiceStat.id row' = MonthlyServiceStat.id row
              /\ MonthlyServiceStat.totalUsage row'
                 = fold_left add amounts (MonthlyServiceStat.totalUsage row)
              /\ MonthlyServiceStat.usageCount row'
                 = MonthlyServiceStat.usageCount row
                   + Z.of_nat (List.length amounts)
              /\ (amounts <> [] ->
                  MonthlyServiceStat.averageUsage row'
                  = div (MonthlyServiceStat.totalUsage row')
                      (of_Z (MonthlyServiceStat.usageCount row')))).
  { clear calls amounts. intros amounts.
    induction amounts as [|a rest IH]; intros db row Hrow.
    - exists db, row. split; [reflexivity|]. split; [exact Hrow|].
      split; [reflexivity|]. split; [reflexivity|].
      split; [simpl; lia|]. intros H. now elim H.
    - destruct (updateMonthlyStats_effect getFullYear getMonth serviceTypeId
                  a date now db) as (db1 & Hrun & Hrow1).
      fold year month in Hrow1. rewrite Hrow in Hrow1.
      destruct (IH db1 _ Hrow1) as (db' & row' & Hrest & Hst & Hid & Ht & Hc
                                    & Ha).
      exists db', row'. rewrite forEach_cons, Hrun.
      split; [exact Hrest|]. split; [exact Hst|].
      split; [exact Hid|]. split; [exact Ht|].
      split; [rewrite Hc; cbn [set_stat MonthlyServiceStat.usageCount
                               List.length]; lia|].
      intros _. destruct rest as [|b rest'].
      + cbn [forEach] in Hrest. injection Hrest as <-.
        rewrite Hrow1 in Hst. injection Hst as <-. reflexivity.
      + apply Ha. discriminate. }
  intros db.
  destruct (stat_of serviceTypeId year month db) as [row|] eqn:E.
  - destruct (Hsome amounts db row E) as (db' & row' & H).
    exists db'. split; [apply H|]. exists row'. apply H.
  - destruct amounts as [|a rest]; [exists db; split; reflexivity|].
    destruct (updateMonthlyStats_effect getFullYear getMonth serviceTypeId
                a date now db) as (db1 & Hrun & Hrow1).
    fold year month in Hrow1. rewrite E in Hrow1.
    destruct (Hsome rest db1 _ Hrow1) as (db' & row' & Hrest & Hst & _ & Ht
                                          & Hc & Ha).
    exists db'. unfold calls. rewrite forEach_cons, Hrun.
    split; [exact Hrest|]. exists row'.
    split; [exact Hst|]. split; [exact Ht|].
    split; [rewrite Hc; cbn [MonthlyServiceStat.usageCount List.length]; lia|].
    exact Ha.
Qed.

End MonthlyStatsRuns.

Lemma salon_stats_keyed : stats_keyed salon_stats.
Proof.
  unfold stats_keyed. cbn.
  split; [|split].
  - repeat constructor; simpl; intuition discriminate.
  - repeat constructor.
  - repeat constructor; simpl; intuition discriminate.
Qed.

Lemma updateMonthlyStats_keeps_keys_witness :
  exists db',
    updateMonthlyStats (fun _ => 2025) (fun _ => 4) 3%N (decimal 6 1) None
      1000 salon_stats = Ok tt db'
    /\ stats_keyed db'.
Proof.
  exact (updateMonthlyStats_keeps_keys (fun _ => 2025) (fun _ => 4) 3%N
           (decimal 6 1) None 1000 salon_stats salon_stats_keyed).
Defined.

Lemma updateMonthlyStats_other_rows_witness :
  exists db' found,
    updateMonthlyStats (fun _ => 2025) (fun _ => 4) 3%N (decimal 6 1) None
      1000 salon_stats = Ok tt db'
    /\ getMonthlyServiceStats 3%N 2025 4 salon_stats = Ok found salon_stats
    /\ getMonthlyServiceStats 3%N 2025 4 db' = Ok found db'
    /\ found <> None.
Proof.
  destruct (updateMonthlyStats_other_rows (fun _ => 2025) (fun _ => 4) 3%N
              (decimal 6 1) None 1000 salon_stats 3%N 2025 4)
    as (db' & found & Hrun & Hbefore & Hafter & _).
  - repeat constructor; simpl; intuition discriminate.
  - discriminate.
  - exists db', found. split; [exact Hrun|]. split; [exact Hbefore|].
    split; [exact Hafter|].
    vm_compute in Hbefore. injection Hbefore as <-. discriminate.
Defined.

Lemma updateMonthlyStats_accumulates_witness :
  exists db' row',
    forEach [decimal 6 1; decimal 4 1] (fun a =>
      updateMonthlyStats (fun _ => 2025) (fun _ => 4) 3%N a None 1000)
      salon_stats = Ok tt db'
    /\ stat_of 3%N 2025 5 db' = Some row'
    /\ MonthlyServiceStat.usageCount row' = 3
    /\ MonthlyServiceStat.averageUsage row'
       = div (MonthlyServiceStat.totalUsage row')
           (of_Z (MonthlyServiceStat.usageCount row')).
Proof.
  destruct (updateMonthlyStats_accumulates (fun _ => 2025) (fun _ => 4) 3%N
              None 1000 [decimal 6 1; decimal 4 1] salon_stats)
    as (db' & Hrun & Hrow).
  change (stat_of 3%N ((fun _ => 2025) (or_default 1000 None))
            ((fun _ => 4) (or_default 1000 None) + 1) salon_stats)
    with (Some (MonthlyServiceStat.mk 51%N 3%N 5 2025 (of_Z 1) (of_Z 1) 1))
    in Hrow.
  cbv iota in Hrow. destruct Hrow as (row' & Hst & _ & _ & Hc & Ha).
  exists db', row'. split; [exact Hrun|]. split; [exact Hst|].
  split; [exact Hc|]. apply Ha. discriminate.
Defined.

(** *** The inventory summary *)

Lemma ProductType_name_inj a b :
  ProductType_name a = ProductType_name b -> a = b.
Proof. destruct a, b; simpl; intros H; try reflexivity; discriminate. Qed.

Lemma count_or_zero_Some c : count_or_zero (Some c) = c.
Proof. simpl. destruct (Z.eqb_spec c 0); congruence. Qed.

Lemma Record_get_set k v o k' :
  Record_get k' (Record_set k v o)
  = if String.eqb k k' then Some v else Record_get k' o.
Proof.
  unfold Record_get. induction o as [|[k1 w] t IH]; simpl.
  - now destruct (String.eqb k k').
  - destruct (String.eqb_spec k1 k) as [->|Hne]; simpl.
    + now destruct (String.eqb k k').
    + destruct (String.eqb_spec k1 k') as [->|Hne'].
      * destruct (String.eqb_spec k k') as [->|]; [congruence|reflexivity].
      * exact IH.
Qed.

Lemma total_count_bump k o :
  total_count (Record_set k (count_or_zero (Record_get k o) + 1) o)
  = total_count o + 1.
Proof.
  induction o as [|[k1 w] t IH].
  - reflexivity.
  - unfold Record_get in *. simpl.
    destruct (String.eqb k1 k); simpl.
    + destruct (Z.eqb_spec w 0); lia.
    + rewrite IH. lia.
Qed.

Lemma total_count_fold types : forall acc,
  total_count (fold_left countCategory types acc)
  = total_count acc + Z.of_nat (List.length types).
Proof.
  induction types as [|t types IH]; intros acc; simpl fold_left.
  - simpl. lia.
  - rewrite IH. unfold countCategory. rewrite total_count_bump.
    simpl List.length. lia.
Qed.

Lemma Record_get_fold k types : forall acc,
  Record_get k (fold_left countCategory types acc)
  = let n := Z.of_nat (List.length
                (filter (fun t => String.eqb (ProductType_name t) k) types)) in
    if n =? 0 then Record_get k acc
    else Some (count_or_zero (Record_get k acc) + n).
Proof.
  induction types as [|t types IH]; intros acc; [reflexivity|].
  simpl fold_left. rewrite IH. cbv zeta. unfold countCategory at 1 2.
  rewrite Record_get_set. cbn [filter].
  destruct (String.eqb_spec (ProductType_name t) k) as [->|Hne].
  - cbn [List.length]. rewrite count_or_zero_Some.
    set (n := List.length _).
    destruct (Z.eqb_spec (Z.of_nat n) 0) as [E|E];
      destruct (Z.eqb_spec (Z.of_nat (S n)) 0); try lia.
    + f_equal. lia.
    + f_equal. lia.
  - reflexivity.
Qed.

Lemma Record_set_keys k v o :
  NoDup (map fst o) ->
  NoDup (map fst (Record_set k v o))
  /\ forall x, In x (map fst (Record_set k v o)) -> x = k \/ In x (map fst o).
Proof.
  induction o as [|[k1 w] t IH]; simpl; intros Hnd.
  - split; [constructor; [intros []|constructor]|]. intros x [<-|[]]. now left.
  - apply NoDup_cons_iff in Hnd. destruct Hnd as [Hk1 Hnd].
    destruct (String.eqb_spec k1 k) as [->|Hne]; simpl.
    + split; [now constructor|]. intros x H. now right.
    + destruct (IH Hnd) as [IH1 IH2]. split.
      * constructor; [|exact IH1]. intros Hin.
        destruct (IH2 _ Hin) as [->|Hin']; [now elim Hne|now apply Hk1].
      * intros x [<-|Hin]; [right; now left|].
        destruct (IH2 _ Hin) as [->|Hin']; [now left|right; now right].
Qed.

Lemma countCategory_keys types : forall acc,
  NoDup (map fst acc) -> NoDup (map fst (fold_left countCategory types acc)).
Proof.
  induction types as [|t types IH]; intros acc Hnd; simpl; [exact Hnd|].
  apply IH. unfold countCategory. now apply Record_set_keys.
Qed.

Lemma filter_and_length {A} (P Q : A -> bool) l :
  (List.length (filter (fun x => P x && Q x) l)
   <= List.length (filter P l))%nat.
Proof.
  induction l as [|x t IH]; simpl; [lia|].
  destruct (P x); simpl; [|exact IH].
  destruct (Q x); simpl; lia.
Qed.

Lemma filter_map_length {A B} (f : A -> B) (P : B -> bool) l :
  List.length (filter P (map f l))
  = List.length (filter (fun x => P (f x)) l).
Proof.
  induction l as [|x t IH]; simpl; [reflexivity|].
  destruct (P (f x)); simpl; now rewrite IH.
Qed.

Lemma filter_filter_and {A} (P Q : A -> bool) l :
  filter Q (filter P l) = filter (fun x => P x && Q x) l.
Proof.
  induction l as [|x t IH]; simpl; [reflexivity|].
  destruct (P x); simpl; [|exact IH].
  destruct (Q x); simpl; now rewrite IH.
Qed.

Lemma getInventorySummary_run storeId db :
  getInventorySummary storeId db
  = Ok (InventorySummary.mk
          (Z.of_nat (List.length
             (filter (fun p => N.eqb (Product.storeId p) storeId)
                (products db))))
          (Z.of_nat (List.length
             (filter (fun p => N.eqb (Product.storeId p) storeId
                               && (Product.lotQuantity p
                                   <=? Product.minStockAlert p))
                (products db))))
          (fold_left countCategory
             (map Product.type
                (filter (fun p => N.eqb (Product.storeId p) storeId)
                   (products db))) [])
          (firstn 5
             (orderBy_lastUsed_desc
                (filter (fun p => N.eqb (Product.storeId p) storeId
                                  && is_used p) (products db))))) db.
Proof. reflexivity. Qed.

(** X20.  The counts of [getInventorySummary] partition the products of
    the store.  The call reads and never writes; each type is keyed by its
    name, once, and its count is the number of the store's products of
    that type, with no entry for a type the store has no product of; the
    counts add up to [totalProducts]; and [lowStockCount] lies between 0
    and [totalProducts]. *)
Theorem getInventorySummary_counts storeId db :
  exists s,
    getInventorySummary storeId db = Ok s db
    /\ (forall t,
          Record_get (ProductType_name t) (InventorySummary.categoryCounts s)
          = if productsOfType storeId t db =? 0 then None
            else Some (productsOfType storeId t db))
    /\ NoDup (map fst (InventorySummary.categoryCounts s))
    /\ total_count (InventorySummary.categoryCounts s)
       = InventorySummary.totalProducts s
    /\ 0 <= InventorySummary.lowStockCount s
            <= InventorySummary.totalProducts s.
Proof.
  rewrite getInventorySummary_run. eexists. split; [reflexivity|].
  cbn [InventorySummary.categoryCounts InventorySummary.totalProducts
       InventorySummary.lowStockCount].
  split; [|split; [|split]].
  - intros t. rewrite Record_get_fold. cbv zeta.
    rewrite filter_map_length, filter_filter_and.
    unfold productsOfType. cbn [Record_get find count_or_zero].
    now destruct (Z.of_nat _ =? 0).
  - apply countCategory_keys. constructor.
  - rewrite total_count_fold, length_map. simpl. lia.
  - split; [lia|]. apply Nat2Z.inj_le. apply filter_and_length.
Qed.

Lemma insert_by_lastUsed_In p ps x :
  In x (insert_by_lastUsed p ps) <-> x = p \/ In x ps.
Proof.
  induction ps as [|h t IH]; simpl.
  - intuition.
  - destruct (lastUsed_geb _ _); simpl; [intuition|].
    rewrite IH. intuition.
Qed.

Lemma orderBy_lastUsed_desc_In ps x :
  In x (orderBy_lastUsed_desc ps) <-> In x ps.
Proof.
  induction ps as [|h t IH]; simpl; [reflexivity|].
  rewrite insert_by_lastUsed_In, IH. intuition.
Qed.

Lemma lastUsed_geb_total a b :
  lastUsed_geb a b = false -> lastUsed_geb b a = true.
Proof.
  destruct a as [x|], b as [y|]; simpl; try congruence.
  rewrite Z.leb_gt, Z.leb_le. lia.
Qed.

Lemma lastUsed_geb_trans a b c :
  lastUsed_geb a b = true -> lastUsed_geb b c = true ->
  lastUsed_geb a c = true.
Proof.
  destruct a as [x|], b as [y|], c as [z|]; simpl; try congruence.
  rewrite !Z.leb_le. lia.
Qed.

Lemma insert_by_lastUsed_descending p ps :
  descending ps -> descending (insert_by_lastUsed p ps).
Proof.
  induction ps as [|h t IH]; simpl; intros Hd.
  - split; [constructor|exact I].
  - destruct Hd as [Hh Ht].
    destruct (lastUsed_geb (Product.lastUsed p) (Product.lastUsed h)) eqn:E.
    + simpl. split; [|split; assumption].
      constructor; [exact E|].
      eapply Forall_impl; [|exact Hh]. cbv beta. intros x Hx.
      eapply lastUsed_geb_trans; eassumption.
    + simpl. split; [|now apply IH].
      apply Forall_forall. intros x Hx.
      apply insert_by_lastUsed_In in Hx. destruct Hx as [->|Hx].
      * now apply lastUsed_geb_total.
      * rewrite Forall_forall in Hh. now apply Hh.
Qed.

Lemma orderBy_lastUsed_desc_descending ps :
  descending (orderBy_lastUsed_desc ps).
Proof.
  induction ps as [|h t IH]; simpl; [exact I|].
  now apply insert_by_lastUsed_descending.
Qed.

Lemma descending_split n : forall ps,
  descending ps ->
  descending (firstn n ps)
  /\ forall x y, In x (firstn n ps) -> In y (skipn n ps) ->
       lastUsed_geb (Product.lastUsed x) (Product.lastUsed y) = true.
Proof.
  induction n as [|n IH]; intros ps Hd.
  - simpl. split; [exact I|]. intros x y [].
  - destruct ps as [|h t]; simpl.
    + split; [exact I|]. intros x y [].
    + destruct Hd as [Hh Ht]. destruct (IH t Ht) as [IH1 IH2]. split.
      * split; [|exact IH1]. apply Forall_forall. intros x Hx.
        rewrite Forall_forall in Hh. apply Hh.
        rewrite <- (firstn_skipn n t). apply in_or_app. now left.
      * intros x y [<-|Hx] Hy.
        -- rewrite Forall_forall in Hh. apply Hh.
           rewrite <- (firstn_skipn n t). apply in_or_app. now right.
        -- now apply IH2.
Qed.

(** X21.  [recentlyUsed] is the head of the used products of the store.
    It holds at most five products, latest use first; each is a product of
    the store that has been used; and a used product of the store that is
    left out was last used no later than every product listed, the list
    then being full. *)
Theorem getInventorySummary_recentlyUsed storeId db :
  exists s,
    getInventorySummary storeId db = Ok s db
    /\ (List.length (InventorySummary.recentlyUsed s) <= 5)%nat
    /\ descending (InventorySummary.recentlyUsed s)
    /\ (forall p, In p (InventorySummary.recentlyUsed s) ->
          In p (products db) /\ Product.storeId p = storeId
          /\ Product.lastUsed p <> None)
    /\ (forall p, In p (products db) -> Product.storeId p = storeId ->
          Product.lastUsed p <> None ->
          In p (InventorySummary.recentlyUsed s)
          \/ (List.length (InventorySummary.recentlyUsed s) = 5%nat
              /\ forall q, In q (InventorySummary.recentlyUsed s) ->
                   lastUsed_geb (Product.lastUsed q) (Product.lastUsed p)
                   = true)).
Proof.
  rewrite getInventorySummary_run. eexists. split; [reflexivity|].
  cbn [InventorySummary.recentlyUsed].
  set (used := filter _ (products db)).
  set (sorted := orderBy_lastUsed_desc used).
  assert (Hused : forall p, In p sorted <->
            In p (products db) /\ Product.storeId p = storeId
            /\ Product.lastUsed p <> None).
  { intros p. unfold sorted. rewrite orderBy_lastUsed_desc_In.
    unfold used. rewrite filter_In, andb_true_iff, N.eqb_eq.
    unfold is_used. destruct (Product.lastUsed p); intuition congruence. }
  destruct (descending_split 5 sorted (orderBy_lastUsed_desc_descending used))
    as [Hdesc Hcut].
  split; [apply firstn_le_length|]. split; [exact Hdesc|]. split.
  - intros p Hp. apply Hused.
    rewrite <- (firstn_skipn 5 sorted). apply in_or_app. now left.
  - intros p Hp Hs Hl.
    assert (Hin : In p sorted) by (apply Hused; auto).
    rewrite <- (firstn_skipn 5 sorted) in Hin. apply in_app_or in Hin.
    destruct Hin as [Hin|Hin]; [now left|right]. split.
    + apply firstn_length_le.
      destruct (Nat.le_gt_cases 5 (List.length sorted)) as [H|H];
        [exact H|].
      rewrite skipn_all2 in Hin by lia. destruct Hin.
    + intros q Hq. now apply Hcut.
Qed.

Lemma getInventorySummary_counts_witness :
  exists s,
    getInventorySummary 1%N salon_used = Ok s salon_used
    /\ Record_get (ProductType_name POLISH_COLOR)
         (InventorySummary.categoryCounts s) = Some 2
    /\ Record_get (ProductType_name GEL_TOP)
         (InventorySummary.categoryCounts s) = None
    /\ total_count (InventorySummary.categoryCounts s) = 3.
Proof.
  destruct (getInventorySummary_counts 1%N salon_used)
    as (s & Hrun & Hget & _ & Hsum & _).
  exists s. split; [exact Hrun|]. split; [|split].
  - rewrite Hget. reflexivity.
  - rewrite Hget. reflexivity.
  - rewrite Hsum. rewrite getInventorySummary_run in Hrun.
    injection Hrun as <-. reflexivity.
Defined.

Lemma getInventorySummary_recentlyUsed_witness :
  exists s,
    getInventorySummary 1%N salon_used = Ok s salon_used
    /\ map Product.id (InventorySummary.recentlyUsed s) = [10%N; 12%N]
    /\ descending (InventorySummary.recentlyUsed s).
Proof.
  destruct (getInventorySummary_recentlyUsed 1%N salon_used)
    as (s & Hrun & _ & Hdesc & _).
  exists s. split; [exact Hrun|]. split; [|exact Hdesc].
  rewrite getInventorySummary_run in Hrun. injection Hrun as <-.
  reflexivity.
Defined.

(** *** The service type catalogue *)

Ltac unfold_cat :=
  unfold serviceType_findFirst, serviceTypeProduct_findFirst,
    serviceType_findUnique_products, store_findUnique,
    serviceType_findUnique, product_findUnique;
  unfold K.bind, K.ret, K.throw, K.gets, K.modify, K.lift, K.transaction,
    fresh, gets, with_tables, with_serviceTypes, with_serviceTypeProducts;
  cbn [tables serviceTypeProducts stores users products productLots
       serviceTypes usages relatedProductUsages activities
       monthlyServiceStats nextId].

Lemma forEachK_cons {A} (x : A) xs (body : A -> K.t unit) c :
  forEachK (x :: xs) body c
  = match body x c with
    | Returns _ c1 => forEachK xs body c1
    | Throws e c1 => Throws e c1
    end.
Proof. reflexivity. Qed.

Lemma serviceTypeProduct_create_run sid pid a q role o c :
  serviceTypeProduct_create sid pid a q role o c
  = match association sid pid c with
    | Some _ => Throws UniqueConstraintFailed c
    | None =>
        let r := ServiceTypeProduct.mk (nextId (tables c)) sid pid a q role o in
        let db := tables c in
        Returns r
          (mkCatalog
             (mkDB (stores db) (users db) (products db) (productLots db)
                (serviceTypes db) (usages db) (relatedProductUsages db)
                (activities db) (monthlyServiceStats db)
                (N.succ (nextId db)))
             (serviceTypeProducts c ++ [r]))
    end.
Proof.
  unfold serviceTypeProduct_create, association. unfold_cat.
  now destruct (find _ (serviceTypeProducts c)).
Qed.

Lemma association_None sid pid c :
  association sid pid c = None <->
  forall r, In r (serviceTypeProducts c) ->
    ServiceTypeProduct.serviceTypeId r = sid ->
    ServiceTypeProduct.productId r <> pid.
Proof.
  unfold association. split.
  - intros H r Hin Hs Hp. pose proof (find_none _ _ H r Hin) as Hf.
    unfold same_pair in Hf. now rewrite Hs, Hp, !N.eqb_refl in Hf.
  - intros H. destruct (find _ _) as [r|] eqn:E; [|reflexivity].
    apply find_some in E. destruct E as [Hin Hk]. unfold same_pair in Hk.
    apply andb_prop in Hk. destruct Hk as [Hs Hp].
    apply N.eqb_eq in Hs, Hp. now elim (H r Hin Hs).
Qed.

Lemma association_Some sid pid c r :
  association sid pid c = Some r ->
  In r (serviceTypeProducts c)
  /\ ServiceTypeProduct.serviceTypeId r = sid
  /\ ServiceTypeProduct.productId r = pid.
Proof.
  unfold association. intros E. apply find_some in E.
  destruct E as [Hin Hk]. unfold same_pair in Hk.
  apply andb_prop in Hk. destruct Hk as [Hs Hp].
  apply N.eqb_eq in Hs, Hp. auto.
Qed.

Section CreateAll.

Variable A : Type.
Variable g : A -> Id * number * bool * option string * Z.
Variable sid : Id.

Lemma createAll_ok : forall xs c,
  (forall r, In r (serviceTypeProducts c) ->
     ServiceTypeProduct.serviceTypeId r = sid ->
     ~ In (ServiceTypeProduct.productId r)
         (map (fun x => fst (fst (fst (fst (g x))))) xs)) ->
  NoDup (map (fun x => fst (fst (fst (fst (g x))))) xs) ->
  forEachK xs (fun x =>
    (serviceTypeProduct_create sid (fst (fst (fst (fst (g x)))))
       (snd (fst (fst (fst (g x))))) (snd (fst (fst (g x))))
       (snd (fst (g x))) (snd (g x)) ;;; K.ret tt)%cat) c
  = let db := tables c in
    Returns tt
      (mkCatalog
         (mkDB (stores db) (users db) (products db) (productLots db)
            (serviceTypes db) (usages db) (relatedProductUsages db)
            (activities db) (monthlyServiceStats db)
            (nextId db + N.of_nat (List.length xs))%N)
         (serviceTypeProducts c ++ rowsFrom sid (nextId db) (map g xs))).
Proof.
  induction xs as [|x xs IH]; intros c Hfree Hnd.
  - simpl. unfold K.ret. rewrite N.add_0_r, app_nil_r.
    now destruct c as [[] ?].
  - rewrite forEachK_cons. unfold K.bind at 1.
    rewrite serviceTypeProduct_create_run.
    assert (Hnone : association sid (fst (fst (fst (fst (g x))))) c = None).
    { apply association_None. intros r Hin Hs Hp.
      apply (Hfree r Hin Hs). rewrite Hp. now left. }
    rewrite Hnone. cbv zeta. unfold K.ret at 1.
    cbn [map] in Hnd. apply NoDup_cons_iff in Hnd. destruct Hnd as [Hx Hnd].
    rewrite IH; [|cbn [serviceTypeProducts]|exact Hnd].
    + cbn [tables serviceTypeProducts stores users products productLots
           serviceTypes usages relatedProductUsages activities
           monthlyServiceStats nextId map List.length].
      rewrite <- app_assoc. cbn [app].
      destruct (g x) as [[[[p a] q] role] o]. cbn [rowsFrom fst snd].
      do 3 f_equal. lia.
    + intros r Hin Hs. apply in_app_or in Hin. destruct Hin as [Hin|[<-|[]]].
      * intros Hp. apply (Hfree r Hin Hs). now right.
      * exact Hx.
Qed.

Lemma createAll_dup : forall xs c,
  (exists r, In r (serviceTypeProducts c)
     /\ ServiceTypeProduct.serviceTypeId r = sid
     /\ In (ServiceTypeProduct.productId r)
          (map (fun x => fst (fst (fst (fst (g x))))) xs))
  \/ ~ NoDup (map (fun x => fst (fst (fst (fst (g x))))) xs) ->
  exists c',
    forEachK xs (fun x =>
      (serviceTypeProduct_create sid (fst (fst (fst (fst (g x)))))
         (snd (fst (fst (fst (g x))))) (snd (fst (fst (g x))))
         (snd (fst (g x))) (snd (g x)) ;;; K.ret tt)%cat) c
    = Throws UniqueConstraintFailed c'.
Proof.
  induction xs as [|x xs IH]; intros c H.
  - destruct H as [(r & _ & _ & [])|H]. elim H. constructor.
  - rewrite forEachK_cons. unfold K.bind at 1.
    rewrite serviceTypeProduct_create_run.
    destruct (association sid (fst (fst (fst (fst (g x))))) c) as [r0|] eqn:E;
      [now exists c|].
    cbv zeta. unfold K.ret at 1. apply IH. cbn [serviceTypeProducts].
    destruct H as [(r & Hin & Hs & Hp)|H].
    + cbn [map] in Hp. destruct Hp as [Hp|Hp].
      * exfalso. rewrite association_None in E. now apply (E r Hin Hs).
      * left. exists r. split; [apply in_or_app; now left|]. auto.
    + cbn [map] in H.
      destruct (in_dec N.eq_dec (fst (fst (fst (fst (g x)))))
                  (map (fun x => fst (fst (fst (fst (g x))))) xs)) as [Hi|Hi].
      * left. eexists. split; [apply in_or_app; right; now left|].
        split; [reflexivity|exact Hi].
      * right. intros Hnd. apply H. now constructor.
Qed.

End CreateAll.

Lemma rowsFrom_length sid next cs :
  List.length (rowsFrom sid next cs) = List.length cs.
Proof.
  revert next. induction cs as [|[[[[p a] q] role] o] t IH]; intros next;
    simpl; [reflexivity|]. now rewrite IH.
Qed.

Lemma rowsFrom_content sid next cs :
  map content (rowsFrom sid next cs) = cs.
Proof.
  revert next. induction cs as [|[[[[p a] q] role] o] t IH]; intros next;
    simpl; [reflexivity|]. now rewrite IH.
Qed.

Lemma rowsFrom_filter sid next cs :
  filter (fun r => N.eqb (ServiceTypeProduct.serviceTypeId r) sid)
    (rowsFrom sid next cs) = rowsFrom sid next cs.
Proof.
  revert next. induction cs as [|[[[[p a] q] role] o] t IH]; intros next;
    simpl; [reflexivity|]. now rewrite N.eqb_refl, IH.
Qed.

Lemma rowsFrom_filter_other sid sid' next cs :
  sid' <> sid ->
  filter (fun r => N.eqb (ServiceTypeProduct.serviceTypeId r) sid')
    (rowsFrom sid next cs) = [].
Proof.
  intros Hne. revert next.
  induction cs as [|[[[[p a] q] role] o] t IH]; intros next;
    simpl; [reflexivity|].
  destruct (N.eqb_spec sid sid') as [->|_]; [now elim Hne|apply IH].
Qed.

Lemma no_associations_of_unissued_id c :
  associations_issued c ->
  forall r, In r (serviceTypeProducts c) ->
    ServiceTypeProduct.serviceTypeId r <> nextId (tables c).
Proof.
  unfold associations_issued. rewrite Forall_forall. intros H r Hin.
  destruct (H r Hin). lia.
Qed.

Lemma associationsOf_unissued c :
  associations_issued c -> associationsOf (nextId (tables c)) c = [].
Proof.
  intros H. unfold associationsOf.
  pose proof (no_associations_of_unissued_id c H) as Hno.
  induction (serviceTypeProducts c) as [|r t IH]; simpl; [reflexivity|].
  destruct (N.eqb_spec (ServiceTypeProduct.serviceTypeId r)
              (nextId (tables c))) as [E|_].
  - elim (Hno r); [now left|exact E].
  - apply IH. intros x Hx. apply Hno. now right.
Qed.

(** The guard [products.length > 0] skips a loop that would do nothing. *)
Lemma guarded_loop {A} (xs : list A) (body : A -> K.t unit) :
  (if 0 <? Z.of_nat (List.length xs) then forEachK xs body else K.ret tt)
  = forEachK xs body.
Proof. now destruct xs. Qed.

(** What [createServiceType] does once the store is found and the name is
    free. *)
Lemma createServiceType_run params c :
  createServiceType params c
  = match find (N.eqb (CreateServiceTypeParams.storeId params))
            (stores (tables c)) with
    | None =>
        Throws (Missing (StoreNotFound (CreateServiceTypeParams.storeId params)))
          c
    | Some _ =>
        match find (same_name (CreateServiceTypeParams.name params)
                      (CreateServiceTypeParams.storeId params))
                (serviceTypes (tables c)) with
        | Some _ => Throws (NameTaken (CreateServiceTypeParams.name params)) c
        | None =>
            let db := tables c in
            let s := newServiceType params (nextId db) in
            match
              forEachK (or_default [] (CreateServiceTypeParams.products params))
                (fun product =>
                   (serviceTypeProduct_create (ServiceType.id s)
                      (ProductEntry.productId product)
                      (ProductEntry.usageAmount product)
                      (or_default true (ProductEntry.isRequired product))
                      (ProductEntry.productRole product)
                      (or_default 0 (ProductEntry.order product)) ;;;
                    K.ret tt)%cat)
                (mkCatalog
                   (mkDB (stores db) (users db) (products db) (productLots db)
                      (serviceTypes db ++ [s]) (usages db)
                      (relatedProductUsages db) (activities db)
                      (monthlyServiceStats db) (N.succ (nextId db)))
                   (serviceTypeProducts c))
            with
            | Returns _ c' => Returns s c'
            | Throws e _ => Throws e c
            end
        end
    end.
Proof.
  unfold createServiceType, serviceType_create. unfold_cat.
  destruct c as [db rows]. cbn [tables serviceTypeProducts].
  destruct (find (N.eqb _) (stores db)); [|reflexivity].
  cbv beta iota zeta.
  cbn [newServiceType ServiceType.name ServiceType.storeId ServiceType.id
       tables serviceTypeProducts serviceTypes].
  destruct (find (same_name _ _) (serviceTypes db)) eqn:E; [reflexivity|].
  cbv beta iota zeta.
  cbn [tables serviceTypeProducts stores users products productLots
       serviceTypes usages relatedProductUsages activities
       monthlyServiceStats nextId].
  rewrite E. cbv beta iota.
  cbn [tables serviceTypeProducts stores users products productLots
       serviceTypes usages relatedProductUsages activities
       monthlyServiceStats nextId].
  rewrite guarded_loop.
  now destruct (forEachK _ _ _).
Qed.

(** X22.  [createServiceType] is all or nothing.  Whenever it throws, the
    catalogue is as it was.  It refuses a store it cannot find (NotFound)
    and then a name the store already uses; and when two entries of
    [products] name the same product, the database refuses the second
    association and the transaction takes the service type back with
    it. *)
Theorem createServiceType_all_or_nothing params c :
  (forall e c', createServiceType params c = Throws e c' -> c' = c)
  /\ (find (N.eqb (CreateServiceTypeParams.storeId params))
        (stores (tables c)) = None ->
      createServiceType params c
      = Throws (Missing (StoreNotFound (CreateServiceTypeParams.storeId params)))
          c)
  /\ (find (N.eqb (CreateServiceTypeParams.storeId params))
        (stores (tables c)) <> None ->
      find (same_name (CreateServiceTypeParams.name params)
              (CreateServiceTypeParams.storeId params))
        (serviceTypes (tables c)) <> None ->
      createServiceType params c
      = Throws (NameTaken (CreateServiceTypeParams.name params)) c)
  /\ (find (N.eqb (CreateServiceTypeParams.storeId params))
        (stores (tables c)) <> None ->
      find (same_name (CreateServiceTypeParams.name params)
              (CreateServiceTypeParams.storeId params))
        (serviceTypes (tables c)) = None ->
      ~ NoDup (map ProductEntry.productId
                 (or_default [] (CreateServiceTypeParams.products params))) ->
      createServiceType params c = Throws UniqueConstraintFailed c).
Proof.
  rewrite createServiceType_run.
  destruct (find (N.eqb _) (stores (tables c))) as [st|].
  2:{ split; [now intros e c' [= _ <-]|]. split; [reflexivity|].
      split; intros H; now elim H. }
  destruct (find (same_name _ _) (serviceTypes (tables c))) as [s0|].
  { split; [now intros e c' [= _ <-]|]. split; [discriminate|].
    split; [reflexivity|]. intros _ H. discriminate. }
  cbv zeta. split; [|split; [discriminate|split; [intros _ H; now elim H|]]].
  - intros e c'. destruct (forEachK _ _ _); [discriminate|].
    now intros [= _ <-].
  - intros _ _ Hdup.
    destruct (createAll_dup ProductEntry.t entry_content
                (nextId (tables c))
                (or_default [] (CreateServiceTypeParams.products params))
                (mkCatalog
                   (mkDB (stores (tables c)) (users (tables c))
                      (products (tables c)) (productLots (tables c))
                      (serviceTypes (tables c)
                       ++ [newServiceType params (nextId (tables c))])
                      (usages (tables c)) (relatedProductUsages (tables c))
                      (activities (tables c)) (monthlyServiceStats (tables c))
                      (N.succ (nextId (tables c))))
                   (serviceTypeProducts c))) as [c' Hc'].
    { right. exact Hdup. }
    cbn [entry_content fst snd] in Hc'.
    cbn [newServiceType ServiceType.id]. now rewrite Hc'.
Qed.

Lemma createServiceType_all_or_nothing_witness :
  createServiceType (ex_newServiceType "Gel" [ex_entry 10%N; ex_entry 10%N]) atelier
  = Throws UniqueConstraintFailed atelier.
Proof.
  apply (createServiceType_all_or_nothing
           (ex_newServiceType "Gel" [ex_entry 10%N; ex_entry 10%N]) atelier).
  - discriminate.
  - reflexivity.
  - simpl. intros H. inversion H as [|? ? Hin _]. apply Hin. now left.
Defined.

Lemma grown_associationsOf s rows c sid :
  associationsOf sid (grown s rows c)
  = associationsOf sid c
    ++ filter (fun r => N.eqb (ServiceTypeProduct.serviceTypeId r) sid) rows.
Proof. unfold associationsOf, grown. cbn. apply filter_app. Qed.

(** X23.  [createServiceType] on a known store and a free name succeeds
    when the entries of [products] name distinct products (and the store
    has issued the ids its associations point at).  The service type is
    added at the end of the table; its associations are one row per entry,
    in the order of the entries, with [isRequired] true and [order] 0
    where an entry leaves them out; the associations of every other
    service type are as before; and a second call with the same
    parameters is refused, the name being taken now. *)
Theorem createServiceType_creates params c :
  find (N.eqb (CreateServiceTypeParams.storeId params)) (stores (tables c))
  <> None ->
  find (same_name (CreateServiceTypeParams.name params)
          (CreateServiceTypeParams.storeId params))
    (serviceTypes (tables c)) = None ->
  associations_issued c ->
  NoDup (map ProductEntry.productId
           (or_default [] (CreateServiceTypeParams.products params))) ->
  let entries := or_default [] (CreateServiceTypeParams.products params) in
  let s := newServiceType params (nextId (tables c)) in
  let rows := entryRows (ServiceType.id s) (N.succ (nextId (tables c)))
                entries in
  exists c',
    createServiceType params c = Returns s c'
    /\ c' = grown s rows c
    /\ serviceTypes (tables c') = serviceTypes (tables c) ++ [s]
    /\ associationsOf (ServiceType.id s) c' = rows
    /\ map content rows = map entry_content entries
    /\ (forall sid, sid <> ServiceType.id s ->
          associationsOf sid c' = associationsOf sid c)
    /\ createServiceType params c'
       = Throws (NameTaken (CreateServiceTypeParams.name params)) c'.
Proof.
  intros Hstore Hname Hiss Hnd entries s rows.
  assert (Hrun : createServiceType params c = Returns s (grown s rows c)).
  { rewrite createServiceType_run.
    destruct (find (N.eqb _) (stores (tables c))); [|now elim Hstore].
    rewrite Hname. cbv zeta. fold s entries.
    change (forEachK entries
              (fun product =>
                 (serviceTypeProduct_create (ServiceType.id s)
                    (ProductEntry.productId product)
                    (ProductEntry.usageAmount product)
                    (or_default true (ProductEntry.isRequired product))
                    (ProductEntry.productRole product)
                    (or_default 0 (ProductEntry.order product)) ;;;
                  K.ret tt)%cat))
      with (forEachK entries
              (fun x =>
                 (serviceTypeProduct_create (ServiceType.id s)
                    (fst (fst (fst (fst (entry_content x)))))
                    (snd (fst (fst (fst (entry_content x)))))
                    (snd (fst (fst (entry_content x))))
                    (snd (fst (entry_content x))) (snd (entry_content x)) ;;;
                  K.ret tt)%cat)).
    rewrite createAll_ok.
    - cbv zeta. cbn [tables serviceTypeProducts stores users products
        productLots serviceTypes usages relatedProductUsages activities
        monthlyServiceStats nextId].
      unfold grown, rows, entryRows. rewrite rowsFrom_length, length_map.
      reflexivity.
    - cbn [serviceTypeProducts]. intros r Hin Hs. exfalso.
      now apply (no_associations_of_unissued_id c Hiss r Hin).
    - exact Hnd. }
  exists (grown s rows c). split; [exact Hrun|]. split; [reflexivity|].
  split; [reflexivity|]. split; [|split; [|split]].
  - rewrite grown_associationsOf.
    change (ServiceType.id s) with (nextId (tables c)).
    rewrite (associationsOf_unissued c Hiss). unfold rows, entryRows.
    apply rowsFrom_filter.
  - unfold rows, entryRows. apply rowsFrom_content.
  - intros sid Hne. rewrite grown_associationsOf. unfold rows, entryRows.
    rewrite rowsFrom_filter_other by exact Hne. apply app_nil_r.
  - rewrite createServiceType_run. unfold grown at 1 2.
    cbn [tables stores serviceTypes].
    destruct (find (N.eqb _) (stores (tables c))); [|now elim Hstore].
    rewrite (find_app_new _ _ s Hname); [reflexivity|].
    unfold same_name, s. cbn [newServiceType ServiceType.name
                              ServiceType.storeId].
    now rewrite String.eqb_refl, N.eqb_refl.
Qed.

Lemma atelier_associations_issued : associations_issued atelier.
Proof. unfold associations_issued. cbn. repeat constructor. Qed.

Lemma createServiceType_creates_witness :
  exists s c',
    createServiceType (ex_newServiceType "Gel" [ex_entry 11%N; ex_entry 10%N])
      atelier = Returns s c'
    /\ map ServiceTypeProduct.productId (associationsOf (ServiceType.id s) c')
       = [11%N; 10%N]
    /\ ServiceType.longLengthRate s = 130.
Proof.
  destruct (createServiceType_creates
              (ex_newServiceType "Gel" [ex_entry 11%N; ex_entry 10%N]) atelier)
    as (c' & Hrun & _ & _ & Hrows & _).
  - discriminate.
  - reflexivity.
  - exact atelier_associations_issued.
  - simpl. repeat constructor; simpl; intuition discriminate.
  - eexists. exists c'. split; [exact Hrun|]. split; [|reflexivity].
    rewrite Hrows. reflexivity.
Defined.

Lemma upsertServiceTypeProduct_run params c :
  let sid := UpsertServiceTypeProductParams.serviceTypeId params in
  let pid := UpsertServiceTypeProductParams.productId params in
  let f := set_association (UpsertServiceTypeProductParams.usageAmount params)
             (or_default true (UpsertServiceTypeProductParams.isRequired params))
             (UpsertServiceTypeProductParams.productRole params)
             (or_default 0 (UpsertServiceTypeProductParams.order params)) in
  upsertServiceTypeProduct params c
  = match find_by_id ServiceType.id sid (serviceTypes (tables c)) with
    | None => Throws (Missing (ServiceTypeNotFound sid)) c
    | Some _ =>
        match find_by_id Product.id pid (products (tables c)) with
        | None => Throws (Missing (ProductNotFound pid)) c
        | Some _ =>
            match association sid pid c with
            | Some e =>
                Returns (f e)
                  (with_serviceTypeProducts
                     (update_where ServiceTypeProduct.id
                        (ServiceTypeProduct.id e) f) c)
            | None =>
                let db := tables c in
                let r :=
                  ServiceTypeProduct.mk (nextId db) sid pid
                    (UpsertServiceTypeProductParams.usageAmount params)
                    (or_default true
                       (UpsertServiceTypeProductParams.isRequired params))
                    (UpsertServiceTypeProductParams.productRole params)
                    (or_default 0 (UpsertServiceTypeProductParams.order params))
                in
                Returns r
                  (mkCatalog
                     (mkDB (stores db) (users db) (products db)
                        (productLots db) (serviceTypes db) (usages db)
                        (relatedProductUsages db) (activities db)
                        (monthlyServiceStats db) (N.succ (nextId db)))
                     (serviceTypeProducts c ++ [r]))
            end
        end
    end.
Proof.
  intros sid pid f. unfold upsertServiceTypeProduct. fold sid pid.
  destruct c as [db rows].
  unfold K.bind at 1. unfold K.lift at 1, serviceType_findUnique, gets.
  cbn [tables serviceTypeProducts].
  destruct (find_by_id ServiceType.id sid (serviceTypes db)); [|reflexivity].
  unfold K.bind at 1. unfold K.lift at 1, product_findUnique, gets.
  cbn [tables serviceTypeProducts].
  destruct (find_by_id Product.id pid (products db)); [|reflexivity].
  unfold K.bind at 1. unfold serviceTypeProduct_findFirst at 1, K.gets.
  unfold association. cbn [serviceTypeProducts].
  destruct (find (same_pair sid pid) rows) as [e|] eqn:E.
  - reflexivity.
  - rewrite serviceTypeProduct_create_run. unfold association.
    cbn [serviceTypeProducts]. now rewrite E.
Qed.

Lemma removeProductFromServiceType_run sid pid c :
  removeProductFromServiceType sid pid c
  = match association sid pid c with
    | None => Throws (NotAssociated pid sid) c
    | Some e =>
        Returns tt
          (with_serviceTypeProducts
             (filter (fun r => negb (N.eqb (ServiceTypeProduct.id r)
                                       (ServiceTypeProduct.id e)))) c)
    end.
Proof.
  unfold removeProductFromServiceType, association. unfold_cat.
  now destruct (find _ (serviceTypeProducts c)).
Qed.

Lemma find_update_where_other {A} (key : A -> Id) (P : A -> bool) f rows e :
  NoDup (map key rows) -> In e rows -> P e = false -> P (f e) = false ->
  find P (update_where key (key e) f rows) = find P rows.
Proof.
  intros Hnd Hin He Hfe. unfold update_where.
  induction rows as [|r t IH]; [reflexivity|].
  cbn [map] in Hnd. apply NoDup_cons_iff in Hnd. destruct Hnd as [Hr Hnd].
  cbn [map find].
  destruct (N.eqb_spec (key r) (key e)) as [Ek|Ek].
  - assert (r = e) as ->.
    { destruct Hin as [Hin|Hin]; [exact Hin|]. exfalso. apply Hr.
      rewrite Ek. now apply in_map. }
    rewrite He, Hfe. f_equal. apply map_fixed. intros x Hx.
    destruct (N.eqb_spec (key x) (key e)) as [Ex|]; [|reflexivity].
    exfalso. apply Hr. rewrite <- Ex. now apply in_map.
  - destruct (P r); [reflexivity|]. apply IH; [exact Hnd|].
    destruct Hin as [Hin|Hin]; [now subst|exact Hin].
Qed.

Lemma find_app_other {A} (P : A -> bool) rows x :
  P x = false -> find P (rows ++ [x]) = find P rows.
Proof.
  intros Hx. induction rows as [|r t IH]; simpl; [now rewrite Hx|].
  now destruct (P r).
Qed.

Lemma find_filter_other {A} (P Q : A -> bool) rows :
  (forall x, In x rows -> Q x = false -> P x = false) ->
  find P (filter Q rows) = find P rows.
Proof.
  induction rows as [|r t IH]; intros H; simpl; [reflexivity|].
  destruct (Q r) eqn:EQ; simpl.
  - destruct (P r); [reflexivity|]. apply IH. intros x Hx. apply H. now right.
  - rewrite (H r (or_introl eq_refl) EQ). apply IH. intros x Hx. apply H.
    now right.
Qed.

Lemma same_pair_other sid pid r s' p' :
  ServiceTypeProduct.serviceTypeId r = sid ->
  ServiceTypeProduct.productId r = pid ->
  (s', p') <> (sid, pid) -> same_pair s' p' r = false.
Proof.
  intros Hs Hp Hne. unfold same_pair. rewrite Hs, Hp.
  destruct (N.eqb_spec sid s') as [->|]; [|reflexivity].
  destruct (N.eqb_spec pid p') as [->|]; [|reflexivity].
  now elim Hne.
Qed.

(** X24.  [upsertServiceTypeProduct] refuses a service type it cannot
    find, then a product it cannot find, both with NotFound and no change.
    Otherwise it succeeds, and afterwards the row of the pair is the row
    it returns: it holds the given amount, [isRequired] true and [order] 0
    where the call leaves them out -- also on a row that held other
    values -- while a [productRole] that is left out keeps the role of an
    existing row.  With unique row ids the row of every other pair is as
    before. *)
Theorem upsertServiceTypeProduct_outcome params c :
  let sid := UpsertServiceTypeProductParams.serviceTypeId params in
  let pid := UpsertServiceTypeProductParams.productId params in
  (find_by_id ServiceType.id sid (serviceTypes (tables c)) = None ->
   upsertServiceTypeProduct params c
   = Throws (Missing (ServiceTypeNotFound sid)) c)
  /\ (find_by_id ServiceType.id sid (serviceTypes (tables c)) <> None ->
      find_by_id Product.id pid (products (tables c)) = None ->
      upsertServiceTypeProduct params c
      = Throws (Missing (ProductNotFound pid)) c)
  /\ (find_by_id ServiceType.id sid (serviceTypes (tables c)) <> None ->
      find_by_id Product.id pid (products (tables c)) <> None ->
      exists r c',
        upsertServiceTypeProduct params c = Returns r c'
        /\ association sid pid c' = Some r
        /\ ServiceTypeProduct.usageAmount r
           = UpsertServiceTypeProductParams.usageAmount params
        /\ ServiceTypeProduct.isRequired r
           = or_default true (UpsertServiceTypeProductParams.isRequired params)
        /\ ServiceTypeProduct.order r
           = or_default 0 (UpsertServiceTypeProductParams.order params)
        /\ ServiceTypeProduct.productRole r
           = match UpsertServiceTypeProductParams.productRole params,
                   association sid pid c with
             | Some role, _ => Some role
             | None, Some e => ServiceTypeProduct.productRole e
             | None, None => None
             end
        /\ serviceTypes (tables c') = serviceTypes (tables c)
        /\ products (tables c') = products (tables c)
        /\ (NoDup (map ServiceTypeProduct.id (serviceTypeProducts c)) ->
            forall s' p', (s', p') <> (sid, pid) ->
              association s' p' c' = association s' p' c)).
Proof.
  intros sid pid. rewrite upsertServiceTypeProduct_run. fold sid pid.
  destruct (find_by_id ServiceType.id sid (serviceTypes (tables c)));
    [|split; [reflexivity|split; intros H; now elim H]].
  split; [discriminate|].
  destruct (find_by_id Product.id pid (products (tables c)));
    [|split; [reflexivity|intros _ H; now elim H]].
  split; [discriminate|]. intros _ _.
  destruct (association sid pid c) as [e|] eqn:E.
  - eexists. eexists. split; [reflexivity|].
    destruct (association_Some _ _ _ _ E) as (Hin & Hs & Hp).
    split; [|split; [reflexivity|split; [reflexivity|split; [reflexivity|]]]].
    + unfold association, with_serviceTypeProducts, update_where in *.
      cbn [serviceTypeProducts].
      erewrite find_map_keeps; [|intros x; cbv beta|exact E].
      * now rewrite N.eqb_refl.
      * now destruct (N.eqb _ _).
    + split; [now destruct (UpsertServiceTypeProductParams.productRole params)|].
      split; [reflexivity|]. split; [reflexivity|].
      intros Hnd s' p' Hne. unfold association, with_serviceTypeProducts.
      cbn [serviceTypeProducts].
      apply find_update_where_other; [exact Hnd|exact Hin| |].
      * now apply (same_pair_other sid pid).
      * now apply (same_pair_other sid pid).
  - cbv zeta. eexists. eexists. split; [reflexivity|].
    split; [|split; [reflexivity|split; [reflexivity|split; [reflexivity|]]]].
    + unfold association in *. cbn [serviceTypeProducts].
      apply find_app_new; [exact E|]. unfold same_pair.
      cbn [ServiceTypeProduct.serviceTypeId ServiceTypeProduct.productId].
      now rewrite !N.eqb_refl.
    + split; [now destruct (UpsertServiceTypeProductParams.productRole params)|].
      split; [reflexivity|]. split; [reflexivity|].
      intros _ s' p' Hne. unfold association. cbn [serviceTypeProducts].
      apply find_app_other. now apply (same_pair_other sid pid).
Qed.

Lemma upsertServiceTypeProduct_outcome_witness :
  exists r c',
    upsertServiceTypeProduct (ex_upsert 11%N None) atelier = Returns r c'
    /\ association 3%N 11%N c' = Some r
    /\ ServiceTypeProduct.isRequired r = true
    /\ ServiceTypeProduct.productRole r = Some "BASE"%string
    /\ association 3%N 10%N c' = association 3%N 10%N atelier.
Proof.
  destruct (upsertServiceTypeProduct_outcome (ex_upsert 11%N None) atelier)
    as (_ & _ & H).
  destruct H as (r & c' & Hrun & Hrow & _ & Hreq & _ & Hrole & _ & _ & Hother);
    [discriminate|discriminate|].
  exists r, c'. split; [exact Hrun|]. split; [exact Hrow|].
  split; [exact Hreq|]. split; [exact Hrole|].
  apply Hother; [|discriminate].
  repeat constructor; simpl; intuition discriminate.
Defined.




Lemma filter_out_one {A} (key : A -> Id) rows e :
  NoDup (map key rows) -> In e rows ->
  S (List.length (filter (fun r => negb (N.eqb (key r) (key e))) rows))
  = List.length rows.
Proof.
  intros Hnd Hin. induction rows as [|r t IH]; [destruct Hin|].
  cbn [map] in Hnd. apply NoDup_cons_iff in Hnd. destruct Hnd as [Hr Hnd].
  cbn [filter List.length].
  destruct (N.eqb_spec (key r) (key e)) as [Ek|Ek]; cbn [negb List.length].
  - f_equal. f_equal. clear IH Hin.
    induction t as [|x t IH]; [reflexivity|]. cbn [filter].
    destruct (N.eqb_spec (key x) (key e)) as [Ex|Ex]; cbn [negb].
    + exfalso. apply Hr. rewrite Ek, <- Ex. now left.
    + f_equal. apply IH.
      * intros H. apply Hr. now right.
      * cbn [map] in Hnd. now apply NoDup_cons_iff in Hnd.
  - f_equal. apply IH; [exact Hnd|].
    destruct Hin as [Hin|Hin]; [now subst|exact Hin].
Qed.

(** X26.  [removeProductFromServiceType] refuses a pair that is not
    associated and changes nothing.  On an associated pair, with unique
    row ids and one row per pair, it removes exactly one row: the pair is
    no longer associated, every other pair keeps its row, the store is
    untouched, and a second removal is refused. *)
Theorem removeProductFromServiceType_outcome sid pid c :
  (association sid pid c = None ->
   removeProductFromServiceType sid pid c = Throws (NotAssociated pid sid) c)
  /\ (association sid pid c <> None ->
      NoDup (map ServiceTypeProduct.id (serviceTypeProducts c)) ->
      NoDup (map pair_key (serviceTypeProducts c)) ->
      exists c',
        removeProductFromServiceType sid pid c = Returns tt c'
        /\ tables c' = tables c
        /\ association sid pid c' = None
        /\ (forall s' p', (s', p') <> (sid, pid) ->
              association s' p' c' = association s' p' c)
        /\ S (List.length (serviceTypeProducts c'))
           = List.length (serviceTypeProducts c)
        /\ removeProductFromServiceType sid pid c'
           = Throws (NotAssociated pid sid) c').
Proof.
  rewrite removeProductFromServiceType_run.
  destruct (association sid pid c) as [e|] eqn:E;
    [|split; [reflexivity|intros H; now elim H]].
  split; [discriminate|]. intros _ Hids Hpairs.
  destruct (association_Some _ _ _ _ E) as (Hin & Hs & Hp).
  eexists. split; [reflexivity|]. split; [reflexivity|].
  assert (Hgone : association sid pid
                    (with_serviceTypeProducts
                       (filter (fun r => negb (N.eqb (ServiceTypeProduct.id r)
                                                 (ServiceTypeProduct.id e))))
                       c) = None).
  { apply association_None. unfold with_serviceTypeProducts.
    cbn [serviceTypeProducts]. intros r Hr Hrs Hrp.
    apply filter_In in Hr. destruct Hr as [Hr Hid].
    assert (r = e) as ->.
    { apply (NoDup_map_In_eq pair_key (serviceTypeProducts c)); auto.
      unfold pair_key. congruence. }
    now rewrite N.eqb_refl in Hid. }
  split; [exact Hgone|]. split; [|split].
  - intros s' p' Hne. unfold association, with_serviceTypeProducts.
    cbn [serviceTypeProducts]. apply find_filter_other.
    intros x Hx Hid. apply negb_false_iff, N.eqb_eq in Hid.
    assert (x = e) as ->.
    { now apply (NoDup_map_In_eq ServiceTypeProduct.id
                   (serviceTypeProducts c)). }
    now apply (same_pair_other sid pid).
  - unfold with_serviceTypeProducts. cbn [serviceTypeProducts].
    now apply filter_out_one.
  - rewrite removeProductFromServiceType_run. now rewrite Hgone.
Qed.

Lemma removeProductFromServiceType_outcome_witness :
  exists c',
    removeProductFromServiceType 3%N 11%N atelier = Returns tt c'
    /\ association 3%N 11%N c' = None
    /\ association 3%N 10%N c' = association 3%N 10%N atelier
    /\ removeProductFromServiceType 3%N 11%N c'
       = Throws (NotAssociated 11%N 3%N) c'.
Proof.
  destruct (removeProductFromServiceType_outcome 3%N 11%N atelier)
    as [_ H].
  destruct H as (c' & Hrun & _ & Hgone & Hother & _ & Hagain).
  - discriminate.
  - repeat constructor; simpl; intuition discriminate.
  - repeat constructor; simpl; intuition discriminate.
  - exists c'. split; [exact Hrun|]. split; [exact Hgone|].
    split; [apply Hother; discriminate|exact Hagain].
Defined.

(** X27.  Removing undoes adding.  When a pair is not associated and the
    store has issued the ids of its associations, an
    [upsertServiceTypeProduct] that succeeds followed by
    [removeProductFromServiceType] on the pair leaves the table of
    associations, the service types and the products exactly as they were
    at the start. *)
Theorem upsert_then_remove_restores params c r c1 :
  association (UpsertServiceTypeProductParams.serviceTypeId params)
    (UpsertServiceTypeProductParams.productId params) c = None ->
  associations_issued c ->
  upsertServiceTypeProduct params c = Returns r c1 ->
  exists c2,
    removeProductFromServiceType
      (UpsertServiceTypeProductParams.serviceTypeId params)
      (UpsertServiceTypeProductParams.productId params) c1 = Returns tt c2
    /\ serviceTypeProducts c2 = serviceTypeProducts c
    /\ serviceTypes (tables c2) = serviceTypes (tables c)
    /\ products (tables c2) = products (tables c).
Proof.
  intros Hnone Hiss. rewrite upsertServiceTypeProduct_run. cbv zeta.
  set (sid := UpsertServiceTypeProductParams.serviceTypeId params) in *.
  set (pid := UpsertServiceTypeProductParams.productId params) in *.
  destruct (find_by_id ServiceType.id sid (serviceTypes (tables c)));
    [|discriminate].
  destruct (find_by_id Product.id pid (products (tables c))); [|discriminate].
  rewrite Hnone. intros [= <- <-].
  rewrite removeProductFromServiceType_run.
  set (r := ServiceTypeProduct.mk _ _ _ _ _ _ _).
  assert (Hf : association sid pid
                 (mkCatalog
                    (mkDB (stores (tables c)) (users (tables c))
                       (products (tables c)) (productLots (tables c))
                       (serviceTypes (tables c)) (usages (tables c))
                       (relatedProductUsages (tables c))
                       (activities (tables c))
                       (monthlyServiceStats (tables c))
                       (N.succ (nextId (tables c))))
                    (serviceTypeProducts c ++ [r])) = Some r).
  { unfold association in *. cbn [serviceTypeProducts].
    apply find_app_new; [exact Hnone|]. unfold same_pair, r.
    cbn [ServiceTypeProduct.serviceTypeId ServiceTypeProduct.productId].
    now rewrite !N.eqb_refl. }
  rewrite Hf. eexists. split; [reflexivity|].
  split; [|split; reflexivity].
  unfold with_serviceTypeProducts. cbn [serviceTypeProducts].
  rewrite filter_app. cbn [filter]. rewrite N.eqb_refl. cbn [negb].
  rewrite app_nil_r. apply forallb_filter_id. apply forallb_forall.
  intros x Hx. apply negb_true_iff, N.eqb_neq.
  unfold associations_issued in Hiss. rewrite Forall_forall in Hiss.
  destruct (Hiss x Hx) as [Hlt _]. unfold r. cbn [ServiceTypeProduct.id]. lia.
Qed.

Lemma upsert_then_remove_restores_witness :
  exists r c1 c2,
    upsertServiceTypeProduct (ex_upsert 12%N None) atelier = Returns r c1
    /\ removeProductFromServiceType 3%N 12%N c1 = Returns tt c2
    /\ serviceTypeProducts c2 = serviceTypeProducts atelier.
Proof.
  destruct (upsertServiceTypeProduct (ex_upsert 12%N None) atelier)
    as [r c1|e c1] eqn:E; [|vm_compute in E; discriminate].
  destruct (upsert_then_remove_restores (ex_upsert 12%N None) atelier r c1)
    as (c2 & Hrm & Hrows & _).
  - reflexivity.
  - exact atelier_associations_issued.
  - exact E.
  - exists r, c1, c2. split; [reflexivity|]. split; [exact Hrm|exact Hrows].
Defined.

Lemma copyServiceType_run params c :
  copyServiceType params c
  = match find_by_id ServiceType.id (CopyServiceTypeParams.sourceId params)
            (serviceTypes (tables c)) with
    | None => Throws (SourceNotFound (CopyServiceTypeParams.sourceId params)) c
    | Some src =>
        match find (same_name (CopyServiceTypeParams.newName params)
                      (ServiceType.storeId src))
                (serviceTypes (tables c)) with
        | Some _ => Throws (NameTaken (CopyServiceTypeParams.newName params)) c
        | None =>
            let db := tables c in
            let s := copiedServiceType params src (nextId db) in
            match
              forEachK (associationsOf (ServiceType.id src) c)
                (fun product =>
                   (serviceTypeProduct_create (ServiceType.id s)
                      (ServiceTypeProduct.productId product)
                      (ServiceTypeProduct.usageAmount product)
                      (ServiceTypeProduct.isRequired product)
                      (ServiceTypeProduct.productRole product)
                      (ServiceTypeProduct.order product) ;;;
                    K.ret tt)%cat)
                (mkCatalog
                   (mkDB (stores db) (users db) (products db) (productLots db)
                      (serviceTypes db ++ [s]) (usages db)
                      (relatedProductUsages db) (activities db)
                      (monthlyServiceStats db) (N.succ (nextId db)))
                   (serviceTypeProducts c))
            with
            | Returns _ c' => Returns s c'
            | Throws e _ => Throws e c
            end
        end
    end.
Proof.
  unfold copyServiceType, serviceType_create, associationsOf. unfold_cat.
  destruct c as [db rows]. cbn [tables serviceTypeProducts].
  destruct (find_by_id ServiceType.id _ (serviceTypes db)) as [src|];
    [|reflexivity].
  cbv beta iota zeta.
  cbn [copiedServiceType ServiceType.name ServiceType.storeId ServiceType.id
       tables serviceTypeProducts serviceTypes].
  destruct (find (same_name _ _) (serviceTypes db)) eqn:E; [reflexivity|].
  cbv beta iota zeta.
  cbn [tables serviceTypeProducts stores users products productLots
       serviceTypes usages relatedProductUsages activities
       monthlyServiceStats nextId].
  rewrite E. cbv beta iota.
  cbn [tables serviceTypeProducts stores users products productLots
       serviceTypes usages relatedProductUsages activities
       monthlyServiceStats nextId].
  now destruct (forEachK _ _ _).
Qed.

Lemma associationsOf_distinct_products sid c :
  NoDup (map pair_key (serviceTypeProducts c)) ->
  NoDup (map ServiceTypeProduct.productId (associationsOf sid c)).
Proof.
  unfold associationsOf.
  induction (serviceTypeProducts c) as [|r t IH]; simpl; intros Hnd;
    [constructor|].
  apply NoDup_cons_iff in Hnd. destruct Hnd as [Hr Hnd].
  destruct (N.eqb_spec (ServiceTypeProduct.serviceTypeId r) sid) as [Es|Es];
    [|now apply IH].
  cbn [map]. constructor; [|now apply IH].
  intros Hin. apply in_map_iff in Hin. destruct Hin as (x & Hp & Hx).
  apply filter_In in Hx. destruct Hx as [Hx Hs]. apply N.eqb_eq in Hs.
  apply Hr. apply in_map_iff. exists x. split; [|exact Hx].
  unfold pair_key. congruence.
Qed.

(** X28.  [copyServiceType] refuses a source it cannot find and a new name
    the source's store already uses, changing nothing.  Otherwise, in a
    catalogue with one association per pair whose store issued the ids,
    it succeeds: the copy is added with a fresh id; its associations say
    what the source's say, row by row and in the same order; the
    associations of every other service type are as before; and when the
    call gives no design rate, or gives zero or NaN, the copy computes the
    same adjusted usage amounts as the source. *)
Theorem copyServiceType_copies params c :
  (find_by_id ServiceType.id (CopyServiceTypeParams.sourceId params)
     (serviceTypes (tables c)) = None ->
   copyServiceType params c
   = Throws (SourceNotFound (CopyServiceTypeParams.sourceId params)) c)
  /\ forall src,
       find_by_id ServiceType.id (CopyServiceTypeParams.sourceId params)
         (serviceTypes (tables c)) = Some src ->
       (find (same_name (CopyServiceTypeParams.newName params)
                (ServiceType.storeId src))
          (serviceTypes (tables c)) <> None ->
        copyServiceType params c
        = Throws (NameTaken (CopyServiceTypeParams.newName params)) c)
       /\ (find (same_name (CopyServiceTypeParams.newName params)
                   (ServiceType.storeId src))
             (serviceTypes (tables c)) = None ->
           associations_issued c ->
           NoDup (map pair_key (serviceTypeProducts c)) ->
           let s := copiedServiceType params src (nextId (tables c)) in
           exists c',
             copyServiceType params c = Returns s c'
             /\ serviceTypes (tables c') = serviceTypes (tables c) ++ [s]
             /\ map content (associationsOf (ServiceType.id s) c')
                = map content
                    (associationsOf (CopyServiceTypeParams.sourceId params) c)
             /\ (forall sid, sid <> ServiceType.id s ->
                   associationsOf sid c' = associationsOf sid c)
             /\ (truthy_opt (CopyServiceTypeParams.designUsageRate params)
                 = false ->
                 forall baseAmount nailLength,
                   calculateAdjustedUsageAmount s baseAmount nailLength
                   = calculateAdjustedUsageAmount src baseAmount nailLength)).
Proof.
  rewrite copyServiceType_run.
  destruct (find_by_id ServiceType.id _ (serviceTypes (tables c)))
    as [src0|] eqn:Esrc; [|split; [reflexivity|discriminate]].
  split; [discriminate|]. intros src [= <-].
  pose proof (find_by_id_key _ _ _ _ Esrc) as Hid.
  destruct (find (same_name _ _) (serviceTypes (tables c))) eqn:Ename.
  { split; [reflexivity|discriminate]. }
  split; [intros H; now elim H|]. intros _ Hiss Hpairs s. cbv zeta. fold s.
  set (rows := copiedRows (ServiceType.id s) (N.succ (nextId (tables c)))
                 (associationsOf (ServiceType.id src0) c)).
  change (forEachK (associationsOf (ServiceType.id src0) c)
            (fun product =>
               (serviceTypeProduct_create (ServiceType.id s)
                  (ServiceTypeProduct.productId product)
                  (ServiceTypeProduct.usageAmount product)
                  (ServiceTypeProduct.isRequired product)
                  (ServiceTypeProduct.productRole product)
                  (ServiceTypeProduct.order product) ;;;
                K.ret tt)%cat))
    with (forEachK (associationsOf (ServiceType.id src0) c)
            (fun x =>
               (serviceTypeProduct_create (ServiceType.id s)
                  (fst (fst (fst (fst (content x)))))
                  (snd (fst (fst (fst (content x)))))
                  (snd (fst (fst (content x))))
                  (snd (fst (content x))) (snd (content x)) ;;;
                K.ret tt)%cat)).
  rewrite createAll_ok.
  - cbv zeta. cbn [tables serviceTypeProducts stores users products
      productLots serviceTypes usages relatedProductUsages activities
      monthlyServiceStats nextId].
    eexists. split; [reflexivity|]. split; [reflexivity|].
    change (ServiceType.id s) with (nextId (tables c)).
    unfold associationsOf at 1. cbn [serviceTypeProducts].
    split; [|split].
    + rewrite filter_app. fold (associationsOf (nextId (tables c)) c).
      rewrite (associationsOf_unissued c Hiss). cbn [app].
      rewrite rowsFrom_filter, rowsFrom_content. now rewrite Hid.
    + intros sid Hne. unfold associationsOf at 1. cbn [serviceTypeProducts].
      rewrite filter_app, rowsFrom_filter_other by exact Hne.
      apply app_nil_r.
    + intros Hrate baseAmount nailLength.
      unfold calculateAdjustedUsageAmount, s.
      cbn [copiedServiceType ServiceType.shortLengthRate
           ServiceType.mediumLengthRate ServiceType.longLengthRate
           ServiceType.designUsageRate].
      assert (Hor : number_or (CopyServiceTypeParams.designUsageRate params)
                      (ServiceType.designUsageRate src0)
                    = ServiceType.designUsageRate src0).
      { unfold number_or, truthy_opt in *.
        destruct (CopyServiceTypeParams.designUsageRate params) as [v|];
          [|reflexivity]. now rewrite Hrate. }
      now rewrite Hor.
  - cbn [serviceTypeProducts]. intros r Hin Hs. exfalso.
    now apply (no_associations_of_unissued_id c Hiss r Hin).
  - change (fun x : ServiceTypeProduct.t => fst (fst (fst (fst (content x)))))
      with ServiceTypeProduct.productId.
    now apply associationsOf_distinct_products.
Qed.

Lemma atelier_pairs : NoDup (map pair_key (serviceTypeProducts atelier)).
Proof. repeat constructor; simpl; intuition discriminate. Qed.

Lemma copyServiceType_copies_witness :
  exists s c',
    copyServiceType (ex_copy "French Manicure" (Some (of_Z 0))) atelier
    = Returns s c'
    /\ map ServiceTypeProduct.productId (associationsOf (ServiceType.id s) c')
       = [10%N; 11%N]
    /\ calculateAdjustedUsageAmount s (decimal 5 1) LONG
       = calculateAdjustedUsageAmount ex_serviceType (decimal 5 1) LONG.
Proof.
  destruct (copyServiceType_copies
              (ex_copy "French Manicure" (Some (of_Z 0))) atelier)
    as [_ H].
  destruct (H ex_serviceType eq_refl) as [_ H'].
  destruct (H' eq_refl atelier_associations_issued atelier_pairs)
    as (c' & Hrun & _ & Hrows & _ & Hsame).
  eexists. exists c'. split; [exact Hrun|]. split.
  - assert (Hmap : forall rows,
              map ServiceTypeProduct.productId rows
              = map (fun x => fst (fst (fst (fst x)))) (map content rows)).
    { intros rows. rewrite map_map. reflexivity. }
    rewrite Hmap, Hrows. reflexivity.
  - apply Hsame. reflexivity.
Defined.

Lemma NoDup_app_disjoint {A} (a b : list A) :
  NoDup a -> NoDup b -> (forall x, In x a -> ~ In x b) -> NoDup (a ++ b).
Proof.
  intros Ha Hb Hd. induction Ha as [|x a Hx Ha IH]; simpl; [exact Hb|].
  constructor.
  - intros Hin. apply in_app_or in Hin. destruct Hin as [Hin|Hin].
    + now apply Hx.
    + apply (Hd x); [now left|exact Hin].
  - apply IH. intros y Hy. apply Hd. now right.
Qed.

Lemma NoDup_ids_decided (l : list Id) : NoDup l \/ ~ NoDup l.
Proof.
  induction l as [|x t IH]; [left; constructor|].
  destruct IH as [IH|IH].
  - destruct (in_dec N.eq_dec x t) as [Hin|Hin].
    + right. intros H. apply NoDup_cons_iff in H. tauto.
    + left. now constructor.
  - right. intros H. apply NoDup_cons_iff in H. tauto.
Qed.

Lemma NoDup_map_filter {A B} (f : A -> B) (P : A -> bool) l :
  NoDup (map f l) -> NoDup (map f (filter P l)).
Proof.
  induction l as [|x t IH]; simpl; intros Hnd; [constructor|].
  apply NoDup_cons_iff in Hnd. destruct Hnd as [Hx Hnd].
  destruct (P x); [|now apply IH]. cbn [map]. constructor; [|now apply IH].
  intros Hin. apply Hx. apply in_map_iff in Hin.
  destruct Hin as (y & Hy & Hin). apply filter_In in Hin.
  apply in_map_iff. exists y. tauto.
Qed.

Lemma rowsFrom_keys sid next cs :
  NoDup (map (fun x => fst (fst (fst (fst x)))) cs) ->
  NoDup (map ServiceTypeProduct.id (rowsFrom sid next cs))
  /\ Forall (fun r =>
               (next <= ServiceTypeProduct.id r
                < next + N.of_nat (List.length cs))%N
               /\ ServiceTypeProduct.serviceTypeId r = sid)
       (rowsFrom sid next cs)
  /\ NoDup (map pair_key (rowsFrom sid next cs)).
Proof.
  revert next. induction cs as [|[[[[p a] q] role] o] t IH]; intros next Hnd.
  - simpl. repeat split; constructor.
  - cbn [map fst] in Hnd. apply NoDup_cons_iff in Hnd.
    destruct Hnd as [Hp Hnd].
    destruct (IH (N.succ next) Hnd) as (H1 & H2 & H3).
    cbn [rowsFrom map ServiceTypeProduct.id pair_key
         ServiceTypeProduct.serviceTypeId ServiceTypeProduct.productId
         List.length].
    split; [|split].
    + constructor; [|exact H1]. intros Hin. apply in_map_iff in Hin.
      destruct Hin as (r & Hr & Hin). rewrite Forall_forall in H2.
      destruct (H2 r Hin) as [Hb _]. rewrite Hr in Hb. lia.
    + constructor;
        [cbn [ServiceTypeProduct.id ServiceTypeProduct.serviceTypeId];
         split; [lia|reflexivity]|].
      eapply Forall_impl; [|exact H2]. cbv beta. intros r [Hb Hs].
      split; [lia|exact Hs].
    + constructor; [|exact H3]. intros Hin. apply in_map_iff in Hin.
      destruct Hin as (r & Hr & Hin). apply Hp.
      assert (Hc : In (content r) t).
      { rewrite <- (rowsFrom_content sid (N.succ next) t).
        now apply in_map. }
      apply in_map_iff. exists (content r). split; [|exact Hc].
      unfold pair_key in Hr. injection Hr as _ Hp'. exact Hp'.
Qed.

(** The keys survive the addition of a service type with a free name and of
    rows for it that name distinct products. *)
Lemma grown_keyed s cs c :
  catalog_keyed c ->
  ServiceType.id s = nextId (tables c) ->
  find (same_name (ServiceType.name s) (ServiceType.storeId s))
    (serviceTypes (tables c)) = None ->
  NoDup (map (fun x => fst (fst (fst (fst x)))) cs) ->
  catalog_keyed
    (grown s (rowsFrom (ServiceType.id s) (N.succ (nextId (tables c))) cs) c).
Proof.
  intros (Hnames & Hpairs & Hids & Hiss & Hsts) Hid Hfree Hnd.
  destruct (rowsFrom_keys (ServiceType.id s) (N.succ (nextId (tables c))) cs
              Hnd) as (R1 & R2 & R3).
  unfold associations_issued, serviceTypes_issued in *.
  rewrite Forall_forall in Hiss, Hsts, R2.
  unfold catalog_keyed, associations_issued, serviceTypes_issued, grown.
  cbn [tables serviceTypeProducts serviceTypes nextId].
  rewrite rowsFrom_length. rewrite !map_app. cbn [map].
  split; [|split; [|split; [|split]]].
  - apply NoDup_snoc; [exact Hnames|]. intros Hin. apply in_map_iff in Hin.
    destruct Hin as (x & Hk & Hx).
    pose proof (find_none _ _ Hfree x Hx) as Hf. unfold same_name in Hf.
    unfold serviceType_key in Hk. injection Hk as Hn Hs.
    now rewrite Hn, Hs, String.eqb_refl, N.eqb_refl in Hf.
  - apply NoDup_app_disjoint; [exact Hpairs|exact R3|].
    intros k Hk Hk'. apply in_map_iff in Hk, Hk'.
    destruct Hk as (x & Hxk & Hx). destruct Hk' as (y & Hyk & Hy).
    destruct (Hiss x Hx) as [_ Hlt]. destruct (R2 y Hy) as [_ Hs].
    unfold pair_key in *. subst k. injection Hyk as Hs' _. lia.
  - apply NoDup_app_disjoint; [exact Hids|exact R1|].
    intros k Hk Hk'. apply in_map_iff in Hk, Hk'.
    destruct Hk as (x & Hxk & Hx). destruct Hk' as (y & Hyk & Hy).
    destruct (Hiss x Hx) as [Hlt _]. destruct (R2 y Hy) as [Hb _]. lia.
  - apply Forall_forall. intros r Hr. apply in_app_or in Hr.
    destruct Hr as [Hr|Hr].
    + destruct (Hiss r Hr). lia.
    + destruct (R2 r Hr) as [Hb Hs]. lia.
  - apply Forall_forall. intros x Hx. apply in_app_or in Hx.
    destruct Hx as [Hx|[<-|[]]].
    + specialize (Hsts x Hx). cbv beta in Hsts. lia.
    + lia.
Qed.

Lemma createAll_decided A (g : A -> Id * number * bool * option string * Z)
    sid xs c :
  (forall r, In r (serviceTypeProducts c) ->
     ServiceTypeProduct.serviceTypeId r <> sid) ->
  (NoDup (map (fun x => fst (fst (fst (fst (g x))))) xs)
   /\ forEachK xs (fun x =>
        (serviceTypeProduct_create sid (fst (fst (fst (fst (g x)))))
           (snd (fst (fst (fst (g x))))) (snd (fst (fst (g x))))
           (snd (fst (g x))) (snd (g x)) ;;; K.ret tt)%cat) c
      = let db := tables c in
        Returns tt
          (mkCatalog
             (mkDB (stores db) (users db) (products db) (productLots db)
                (serviceTypes db) (usages db) (relatedProductUsages db)
                (activities db) (monthlyServiceStats db)
                (nextId db + N.of_nat (List.length xs))%N)
             (serviceTypeProducts c ++ rowsFrom sid (nextId db) (map g xs))))
  \/ exists c',
       forEachK xs (fun x =>
         (serviceTypeProduct_create sid (fst (fst (fst (fst (g x)))))
            (snd (fst (fst (fst (g x))))) (snd (fst (fst (g x))))
            (snd (fst (g x))) (snd (g x)) ;;; K.ret tt)%cat) c
       = Throws UniqueConstraintFailed c'.
Proof.
  intros Hfree.
  destruct (NoDup_ids_decided (map (fun x => fst (fst (fst (fst (g x))))) xs))
    as [Hnd|Hnd].
  - left. split; [exact Hnd|]. apply createAll_ok; [|exact Hnd].
    intros r Hin Hs. now elim (Hfree r Hin).
  - right. apply createAll_dup. now right.
Qed.

(** X29.  The keys of the catalogue survive every write path.  If no two
    service types of a store share a name, no two associations share a
    service type and product, association ids are unique, and the ids of
    service types and associations were issued by the store, then the
    same holds for the catalogue that [createServiceType],
    [upsertServiceTypeProduct], [removeProductFromServiceType] and
    [copyServiceType] leave, whether they return or throw. *)
Theorem catalogue_keeps_keys c :
  catalog_keyed c ->
  (forall params, catalog_keyed (left_by (createServiceType params c)))
  /\ (forall params, catalog_keyed (left_by (upsertServiceTypeProduct params c)))
  /\ (forall sid pid,
        catalog_keyed (left_by (removeProductFromServiceType sid pid c)))
  /\ (forall params, catalog_keyed (left_by (copyServiceType params c))).
Proof.
  intros Hk. pose proof Hk as (Hnames & Hpairs & Hids & Hiss & Hsts).
  split; [|split; [|split]].
  - intros params. rewrite createServiceType_run.
    destruct (find (N.eqb _) (stores (tables c))); [|exact Hk].
    destruct (find (same_name _ _) (serviceTypes (tables c))) eqn:Ename;
      [exact Hk|].
    cbv zeta.
    set (s := newServiceType params (nextId (tables c))).
    set (c1 := mkCatalog _ _).
    destruct (createAll_decided ProductEntry.t entry_content (ServiceType.id s)
                (or_default [] (CreateServiceTypeParams.products params)) c1)
      as [[Hnd Hrun]|[c' Hrun]].
    + intros r Hin. now apply (no_associations_of_unissued_id c Hiss).
    + cbn [entry_content fst snd] in Hrun. rewrite Hrun. cbv zeta.
      cbn [left_by]. unfold c1.
      cbn [tables serviceTypeProducts stores users products productLots
           serviceTypes usages relatedProductUsages activities
           monthlyServiceStats nextId].
      pose proof (grown_keyed s
                    (map entry_content
                       (or_default [] (CreateServiceTypeParams.products params)))
                    c Hk eq_refl Ename) as Hg.
      unfold grown in Hg. rewrite rowsFrom_length, length_map in Hg.
      apply Hg. now rewrite map_map.
    + cbn [entry_content fst snd] in Hrun. rewrite Hrun. exact Hk.
  - intros params. rewrite upsertServiceTypeProduct_run. cbv zeta.
    set (sid := UpsertServiceTypeProductParams.serviceTypeId params).
    set (pid := UpsertServiceTypeProductParams.productId params).
    set (f := set_association _ _ _ _).
    destruct (find_by_id ServiceType.id sid (serviceTypes (tables c)))
      as [st|] eqn:Est; [|exact Hk].
    destruct (find_by_id Product.id pid (products (tables c))); [|exact Hk].
    destruct (association sid pid c) as [e|] eqn:E; cbn [left_by].
    + unfold catalog_keyed, associations_issued, serviceTypes_issued,
        with_serviceTypeProducts, update_where.
      cbn [tables serviceTypeProducts].
      rewrite !map_map.
      split; [exact Hnames|]. split; [|split; [|split; [|exact Hsts]]].
      * erewrite map_ext; [exact Hpairs|]. intros x. cbv beta.
        now destruct (N.eqb _ _).
      * erewrite map_ext; [exact Hids|]. intros x. cbv beta.
        now destruct (N.eqb _ _).
      * apply Forall_map. eapply Forall_impl; [|exact Hiss]. cbv beta.
        intros x Hx. now destruct (N.eqb _ _).
    + unfold catalog_keyed, associations_issued, serviceTypes_issued in *.
      cbn [tables serviceTypeProducts serviceTypes nextId].
      rewrite !map_app. cbn [map pair_key ServiceTypeProduct.id
        ServiceTypeProduct.serviceTypeId ServiceTypeProduct.productId].
      rewrite Forall_forall in Hiss, Hsts.
      split; [exact Hnames|]. split; [|split; [|split]].
      * apply NoDup_snoc; [exact Hpairs|]. intros Hin.
        apply in_map_iff in Hin. destruct Hin as (x & Hxk & Hx).
        rewrite association_None in E. unfold pair_key in Hxk.
        injection Hxk as Hs Hp. now apply (E x Hx Hs).
      * apply NoDup_snoc; [exact Hids|]. intros Hin.
        apply in_map_iff in Hin. destruct Hin as (x & Hxk & Hx).
        destruct (Hiss x Hx). lia.
      * apply Forall_forall. intros x Hx. apply in_app_or in Hx.
        destruct Hx as [Hx|[<-|[]]].
        -- destruct (Hiss x Hx). lia.
        -- cbn [ServiceTypeProduct.id ServiceTypeProduct.serviceTypeId].
           pose proof (find_by_id_key _ _ _ _ Est) as Hkey.
           pose proof (Hsts st (find_by_id_In _ _ _ _ Est)) as Hlt.
           cbv beta in Hlt. lia.
      * apply Forall_forall. intros x Hx. specialize (Hsts x Hx).
        cbv beta in Hsts. lia.
  - intros sid pid. rewrite removeProductFromServiceType_run.
    destruct (association sid pid c) as [e|]; [|exact Hk]. cbn [left_by].
    unfold catalog_keyed, associations_issued, serviceTypes_issued,
      with_serviceTypeProducts.
    cbn [tables serviceTypeProducts].
    split; [exact Hnames|]. split; [|split; [|split; [|exact Hsts]]].
    + now apply NoDup_map_filter.
    + now apply NoDup_map_filter.
    + apply Forall_forall. intros x Hx. apply filter_In in Hx.
      unfold associations_issued in Hiss. rewrite Forall_forall in Hiss.
      now apply Hiss.
  - intros params. rewrite copyServiceType_run.
    destruct (find_by_id ServiceType.id _ (serviceTypes (tables c)))
      as [src|]; [|exact Hk].
    destruct (find (same_name _ _) (serviceTypes (tables c))) eqn:Ename;
      [exact Hk|].
    cbv zeta.
    set (s := copiedServiceType params src (nextId (tables c))).
    set (c1 := mkCatalog _ _).
    destruct (createAll_decided ServiceTypeProduct.t content (ServiceType.id s)
                (associationsOf (ServiceType.id src) c) c1)
      as [[Hnd Hrun]|[c' Hrun]].
    + intros r Hin. now apply (no_associations_of_unissued_id c Hiss).
    + cbn [content fst snd] in Hrun. rewrite Hrun. cbv zeta.
      cbn [left_by]. unfold c1.
      cbn [tables serviceTypeProducts stores users products productLots
           serviceTypes usages relatedProductUsages activities
           monthlyServiceStats nextId].
      pose proof (grown_keyed s
                    (map content (associationsOf (ServiceType.id src) c))
                    c Hk eq_refl Ename) as Hg.
      unfold grown in Hg. rewrite rowsFrom_length, length_map in Hg.
      apply Hg. now rewrite map_map.
    + cbn [content fst snd] in Hrun. rewrite Hrun. exact Hk.
Qed.

Lemma atelier_keyed : catalog_keyed atelier.
Proof.
  unfold catalog_keyed. split; [|split; [|split; [|split]]].
  - repeat constructor; simpl; intuition discriminate.
  - exact atelier_pairs.
  - repeat constructor; simpl; intuition discriminate.
  - exact atelier_associations_issued.
  - unfold serviceTypes_issued. cbn. repeat constructor.
Qed.

Lemma catalogue_keeps_keys_witness :
  catalog_keyed
    (left_by (copyServiceType (ex_copy "French Manicure" None) atelier))
  /\ catalog_keyed
       (left_by (createServiceType
                   (ex_newServiceType "Gel" [ex_entry 10%N; ex_entry 10%N])
                   atelier)).
Proof.
  destruct (catalogue_keeps_keys atelier atelier_keyed)
    as (Hcreate & _ & _ & Hcopy).
  split; [apply Hcopy|apply Hcreate].
Defined.
